(** * EsRepository: entity identity and time-ranged index selection

    A shallow embedding of the computations of [EsRepository]
    (src/config/EsHostOptions.ts, class [EsRepository]):

    - [entityId]: the document id composed from the properties carrying the
      [EntityId] decorator, with [createEntity] and [indexEntity] up to the
      request they hand to the client;
    - [indexesByTimeRange]: the index names that cover a time range for
      indices split by day, month or year, with the optional group selectors
      [YYYY.*] and [YYYY.MM.*]; with it [indexSelectorByTimeRange],
      [periodIndexName], the selectors relative to now and the former
      selector kept in test/esrepo_old.txt;
    - [bulk]: the summary of a bulk response;

    and of the cache of clients, [EsClient.instance] (src/EsClient.ts).

    The repository leans on two libraries.  moment.js supplies the calendar:
    it is embedded below through the time functions of ECMAScript's [Date]
    (Day, DayFromYear, YearFromTime, MonthFromTime, DateFromTime, MakeDay,
    MakeDate), on which moment's fixed-offset mode is built.  Timestamps are
    integers ([Z]); fractional timestamps are outside the model.

    A [Date] holds the time values of at most 8.64e15 ms around the epoch
    ([Calendar.maxTime]) and is invalid beyond; the embedding computes on
    all of [Z] and has no invalid date.  It stands for the code on the
    timestamps of [Period.inDateRange], which leave three years to both
    ends of that range: there no instant that a run computes leaves the
    range ([RangeFacts]).  The theorems that say which names are returned
    assume it; nearer to the ends of the range the code meets invalid dates
    and returns other names, or none.

    The decorator package supplies [getEntityIdProps] and
    [getRoutingIdProp]; their results are inputs of the embedded functions.

    The [while] loops run on a bound of passes computed from their
    arguments; the theorems show that the bound is never reached.  Strings
    are sequences of code units, and lengths count code units. *)

From Stdlib Require Import ZArith Lia List Bool String Ascii.
From Stdlib Require Import DecimalString DecimalN.
From Stdlib Require Import Sorted Permutation RelationClasses OrderedTypeEx.
Import ListNotations.

Local Open Scope string_scope.
Local Open Scope list_scope.
Local Open Scope Z_scope.

(** ** ECMAScript time values *)

Module Calendar.

Definition msPerDay : Z := 86400000.

(** A time value is at most 8.64e15 ms away from the epoch; [TimeClip] turns
    what lies beyond into NaN ([None]). *)
Definition maxTime : Z := 8640000000000000.

Definition TimeClip (t : Z) : option Z :=
  if Z.abs t <=? maxTime then Some t else None.

Definition Day (t : Z) : Z := t / msPerDay.

Definition TimeWithinDay (t : Z) : Z := t mod msPerDay.

Definition isLeap (y : Z) : bool :=
  (y mod 4 =? 0) && (negb (y mod 100 =? 0) || (y mod 400 =? 0)).

Definition DaysInYear (y : Z) : Z := if isLeap y then 366 else 365.

Definition DayFromYear (y : Z) : Z :=
  365 * (y - 1970) + (y - 1969) / 4 - (y - 1901) / 100 + (y - 1601) / 400.

(** [YearFromTime t] is "the largest integer y such that TimeFromYear(y) <= t".
    It is computed from the mean year length and corrected by one year;
    [YearFromDay_spec] shows that this is the year of the definition. *)
Definition YearFromDay (d : Z) : Z :=
  let y := 1970 + (400 * d) / 146097 in
  if d <? DayFromYear y then y - 1
  else if DayFromYear (y + 1) <=? d then y + 1
  else y.

Definition YearFromTime (t : Z) : Z := YearFromDay (Day t).

Definition InLeapYear (t : Z) : Z := if isLeap (YearFromTime t) then 1 else 0.

Definition DayWithinYear (t : Z) : Z := Day t - DayFromYear (YearFromTime t).

(** Days of the year before month [m] (0 = January), [leap] being 0 or 1. *)
Definition monthStartDay (leap m : Z) : Z :=
  match m with
  | 0 => 0
  | 1 => 31
  | 2 => 59 + leap
  | 3 => 90 + leap
  | 4 => 120 + leap
  | 5 => 151 + leap
  | 6 => 181 + leap
  | 7 => 212 + leap
  | 8 => 243 + leap
  | 9 => 273 + leap
  | 10 => 304 + leap
  | _ => 334 + leap
  end.

(** The month of the day [dwy] of a year, by the table of MonthFromTime. *)
Definition monthOfYearDay (leap dwy : Z) : Z :=
  if dwy <? 31 then 0
  else if dwy <? 59 + leap then 1
  else if dwy <? 90 + leap then 2
  else if dwy <? 120 + leap then 3
  else if dwy <? 151 + leap then 4
  else if dwy <? 181 + leap then 5
  else if dwy <? 212 + leap then 6
  else if dwy <? 243 + leap then 7
  else if dwy <? 273 + leap then 8
  else if dwy <? 304 + leap then 9
  else if dwy <? 334 + leap then 10
  else 11.

Definition MonthFromTime (t : Z) : Z :=
  monthOfYearDay (InLeapYear t) (DayWithinYear t).

Definition DateFromTime (t : Z) : Z :=
  DayWithinYear t - monthStartDay (InLeapYear t) (MonthFromTime t) + 1.

(** The day of the week, 0 for Sunday. *)
Definition WeekDay (t : Z) : Z := (Day t + 4) mod 7.

(** [MakeDay year month date]: the day number of the first of the month
    [month mod 12] of year [year + floor (month / 12)], moved by [date - 1]. *)
Definition MakeDay (year month date : Z) : Z :=
  let ym := year + month / 12 in
  let mn := month mod 12 in
  DayFromYear ym + monthStartDay (if isLeap ym then 1 else 0) mn + date - 1.

Definition MakeDate (day time : Z) : Z := day * msPerDay + time.

(** The first day of the month with index [mi = 12 * year + month]. *)
Definition monthStart (mi : Z) : Z := MakeDay 0 mi 1.

(** [Date.UTC(y, m, d)]: a year from 0 to 99 stands for 1900 + y. *)
Definition Date_UTC (y m d : Z) : Z :=
  let yr := if (0 <=? y) && (y <=? 99) then 1900 + y else y in
  MakeDate (MakeDay yr m d) 0.

(** [Date.prototype.setUTCMonth(month, date)] and [setUTCDate(date)]. *)
Definition setUTCMonth (t month date : Z) : Z :=
  MakeDate (MakeDay (YearFromTime t) month date) (TimeWithinDay t).

Definition setUTCDate (t date : Z) : Z :=
  MakeDate (MakeDay (YearFromTime t) (MonthFromTime t) date) (TimeWithinDay t).

End Calendar.

(** ** moment.js in fixed-offset mode *)

Module Moment.
Import Calendar.

(** A moment holds the instant shifted by its offset ([time], what moment
    keeps in its [Date] once [utcOffset] has been set) and the offset in
    minutes.  [cursor] and [endAtDate] are given the offset right after they
    are created, so the local mode of moment is not modelled.

    [time] is any integer.  A [Date] turns a time value that [TimeClip]
    does not keep into NaN, and the moment is invalid from then on; the
    operations below do the arithmetic alone and are those of moment as long
    as the time values stay within [maxTime], as they do on the timestamps
    of [Period.inDateRange]. *)
Record t : Type := mk { time : Z; offset : Z }.

Inductive unitOfTime : Type := year | month | date | day.

(** [moment.unix(seconds)] *)
Definition of_unix (seconds : Z) : t := mk (seconds * 1000) 0.

(** [m.utcOffset(input)]: an input below 16 in absolute value counts hours. *)
Definition utcOffset (m : t) (input : Z) : t :=
  let input := if Z.abs input <? 16 then input * 60 else input in
  mk (time m + (input - offset m) * 60000) input.

Definition valueOf (m : t) : Z := time m - offset m * 60000.

(** [m.unix()] is [Math.floor(m.valueOf() / 1000)]. *)
Definition unix (m : t) : Z := valueOf m / 1000.

Definition get (m : t) (u : unitOfTime) : Z :=
  match u with
  | year => YearFromTime (time m)
  | month => MonthFromTime (time m)
  | date => DateFromTime (time m)
  | day => WeekDay (time m)
  end.

Definition MS_PER_400_YEARS : Z := 146097 * msPerDay.

(** [utcStartOfDate]: steps around the two-digit years of [Date.UTC]. *)
Definition utcStartOfDate (y m d : Z) : Z :=
  if (y <? 100) && (0 <=? y) then Date_UTC (y + 400) m d - MS_PER_400_YEARS
  else Date_UTC y m d.

Definition startOf (m : t) (u : unitOfTime) : t :=
  let time' :=
    match u with
    | year => utcStartOfDate (get m year) 0 1
    | month => utcStartOfDate (get m year) (get m month) 1
    | date | day => utcStartOfDate (get m year) (get m month) (get m date)
    end in
  mk time' (offset m).

Definition endOf (m : t) (u : unitOfTime) : t :=
  let time' :=
    match u with
    | year => utcStartOfDate (get m year + 1) 0 1 - 1
    | month => utcStartOfDate (get m year) (get m month + 1) 1 - 1
    | date | day => utcStartOfDate (get m year) (get m month) (get m date + 1) - 1
    end in
  mk time' (offset m).

(** moment's [daysInMonth(year, month)], for any integer [month]. *)
Definition daysInMonth (y mth : Z) : Z :=
  let modMonth := mth mod 12 in
  let y := y + (mth - modMonth) / 12 in
  if modMonth =? 1 then (if isLeap y then 29 else 28)
  else 31 - (modMonth mod 7) mod 2.

(** [setMonth]: the day of the month is clamped to the target month. *)
Definition setMonth (m : t) (value : Z) : t :=
  let dayOfMonth := Z.min (get m date) (daysInMonth (get m year) value) in
  mk (setUTCMonth (time m) value dayOfMonth) (offset m).

(** [m.add(n, unit)] for the units of the source: a year is twelve months;
    months go through [setMonth], days through [setUTCDate]. *)
Definition add (m : t) (n : Z) (u : unitOfTime) : t :=
  match u with
  | year => if n =? 0 then m else setMonth m (get m month + 12 * n)
  | month => if n =? 0 then m else setMonth m (get m month + n)
  | date | day => if n =? 0 then m else mk (setUTCDate (time m) (get m date + n)) (offset m)
  end.

End Moment.

(** ** moment's [format] *)

Module Format.
Import Calendar.

(** ['' + n] for a natural number [n]. *)
Definition decimal (n : Z) : string :=
  NilEmpty.string_of_uint (N.to_uint (Z.to_N n)).

Fixpoint zeros (k : nat) : string :=
  match k with
  | O => ""
  | S k' => String "0" (zeros k')
  end.

(** moment's [zeroFill(number, targetLength)], without a forced sign.  The
    truncated subtraction of [nat] is the [Math.max(0, zerosToFill)]. *)
Definition zeroFill (number : Z) (targetLength : nat) : string :=
  let absNumber := decimal (Z.abs number) in
  let zerosToFill := (targetLength - String.length absNumber)%nat in
  (if 0 <=? number then "" else "-") ++ zeros zerosToFill ++ absNumber.

(** [m.format(fmt)], for the tokens the repository uses: [YYYY], [MM] and
    [DD].  Every other character of its format strings ([.] and [*]) is no
    token and is copied. *)
Fixpoint format (m : Moment.t) (fmt : string) : string :=
  match fmt with
  | String "Y" (String "Y" (String "Y" (String "Y" rest))) =>
      zeroFill (Moment.get m Moment.year) 4 ++ format m rest
  | String "M" (String "M" rest) =>
      zeroFill (Moment.get m Moment.month + 1) 2 ++ format m rest
  | String "D" (String "D" rest) =>
      zeroFill (Moment.get m Moment.date) 2 ++ format m rest
  | String c rest => String c (format m rest)
  | EmptyString => ""
  end.

End Format.

(** ** Time-ranged index selection *)

Inductive PeriodType : Type :=
  | DAILY
  | MONTHLY
  | YEARLY
  | OtherPeriod (intervalString : string).

Inductive Error : Type :=
  | InvalidTimeRangeError
  | RangeError (splitPeriodType : PeriodType)
  | PlainError (message : string).

(** What a call does: it returns, it throws, or its loop has not finished
    within the iterations granted to it. *)
Inductive Outcome (A : Type) : Type :=
  | Return (a : A)
  | Throw (e : Error)
  | Unfinished.

Arguments Return {A} a.
Arguments Throw {A} e.
Arguments Unfinished {A}.

(** [while (cond) body], run for at most [fuel] tests of the condition. *)
Fixpoint while {S : Type} (fuel : nat) (cond : S -> bool) (body : S -> S) (s : S)
  : option S :=
  match fuel with
  | O => None
  | Datatypes.S fuel' =>
      if cond s then while fuel' cond body (body s) else Some s
  end.

(** [[...new Set(l)]]: the first occurrence of every string, in order. *)
Fixpoint uniqueFrom (seen l : list string) : list string :=
  match l with
  | [] => []
  | x :: r =>
      if existsb (String.eqb x) seen then uniqueFrom seen r
      else x :: uniqueFrom (x :: seen) r
  end.

Definition unique (l : list string) : list string := uniqueFrom [] l.

Section IndexesByTimeRange.
Import Moment Format.

(** The loop state: the moment [cursor], mutated in place by the source, and
    the array [suffexes]. *)
Definition LoopState : Type := (Moment.t * list string)%type.

Definition yearlyBody (st : LoopState) : LoopState :=
  let (cursor, suffexes) := st in
  (add cursor 1 year, suffexes ++ [format cursor "YYYY"]).

Definition monthlyBody (enableGroupSelect : bool) (endAtDate : Moment.t)
  (st : LoopState) : LoopState :=
  let (cursor, suffexes) := st in
  if enableGroupSelect
     && (get cursor month =? 0)
     && (unix (endOf cursor year) <=? unix endAtDate)
  then (startOf (add cursor 1 year) year, suffexes ++ [format cursor "YYYY.*"])
  else (add cursor 1 month, suffexes ++ [format cursor "YYYY.MM"]).

Definition dailyBody (enableGroupSelect : bool) (endAtDate : Moment.t)
  (st : LoopState) : LoopState :=
  let (cursor, suffexes) := st in
  if enableGroupSelect
     && (get cursor month =? 0)
     && (get cursor date =? 1)
     && (unix (endOf cursor year) <=? unix endAtDate)
  then (startOf (add cursor 1 year) year, suffexes ++ [format cursor "YYYY.*"])
  else if enableGroupSelect
     && (get cursor date =? 1)
     && (unix (endOf cursor month) <=? unix endAtDate)
  then (startOf (add cursor 1 month) month, suffexes ++ [format cursor "YYYY.MM.*"])
  else (add cursor 1 day, suffexes ++ [format cursor "YYYY.MM.DD"]).

(** Every pass of the three loops moves the cursor forward by a day at
    least, so the days between the cursor and [endAtDate] bound the passes. *)
Definition loopBound (cursor endAtDate : Moment.t) : nat :=
  S (Z.to_nat (Calendar.Day (time endAtDate) - Calendar.Day (time cursor) + 1)).

Definition runLoop (body : LoopState -> LoopState) (cursor endAtDate : Moment.t)
  : option LoopState :=
  while (loopBound cursor endAtDate)
        (fun st => unix (fst st) <=? unix endAtDate) body (cursor, []).

Definition indexesByTimeRange (prefix : string) (startAt endAt : Z)
  (splitPeriodType : PeriodType) (enableGroupSelect : bool)
  : Outcome (list string) :=
  if endAt <? startAt then Throw InvalidTimeRangeError
  else
    let cursor := utcOffset (of_unix startAt) 9 in
    let endAtDate := utcOffset (of_unix endAt) 9 in
    let finish (r : option LoopState) :=
      match r with
      | Some (_, suffexes) => Return (map (fun v => (prefix ++ v)%string) (unique suffexes))
      | None => Unfinished
      end in
    match splitPeriodType with
    | YEARLY =>
        let cursor := startOf cursor year in
        let endAtDate := endOf endAtDate year in
        finish (runLoop yearlyBody cursor endAtDate)
    | MONTHLY =>
        let cursor := startOf cursor month in
        let endAtDate := endOf endAtDate month in
        finish (runLoop (monthlyBody enableGroupSelect endAtDate) cursor endAtDate)
    | DAILY =>
        let cursor := startOf cursor date in
        let endAtDate := endOf endAtDate date in
        finish (runLoop (dailyBody enableGroupSelect endAtDate) cursor endAtDate)
    | OtherPeriod _ => Throw (RangeError splitPeriodType)
    end.

(** [indexSelectorByTimeRange]: the names joined with commas. *)
Definition indexSelectorByTimeRange (prefix : string) (startAt endAt : Z)
  (splitPeriodType : PeriodType) : Outcome string :=
  match indexesByTimeRange prefix startAt endAt splitPeriodType true with
  | Return l => Return (String.concat "," l)
  | Throw e => Throw e
  | Unfinished => Unfinished
  end.

End IndexesByTimeRange.


(** ** Periods, canonical labels and selector tokens

    The vocabulary of the specification, stated on unit numbers: a day is
    numbered by its distance from 1970-01-01, a month by [12 * year + month]
    (January is month 0) and a year by itself, all in the fixed offset
    +09:00. *)

Module Period.
Import Calendar Format.

(** The fixed reference offset, in seconds. *)
Definition referenceOffset : Z := 9 * 3600.

(** The day, in +09:00, that holds the epoch second [ts]. *)
Definition localDay (ts : Z) : Z := (ts + referenceOffset) / 86400.

Definition yearOfDay (d : Z) : Z := YearFromTime (d * msPerDay).
Definition monthOfDay (d : Z) : Z := MonthFromTime (d * msPerDay).
Definition dateOfDay (d : Z) : Z := DateFromTime (d * msPerDay).

(** The timestamps on which no [Date] of a run is invalid.  The instants
    of a run lie less than a year before [startAt] ([startOf]) and less than
    nine hours and 770 days after [endAt] ([utcOffset], [endOf], then a last
    [add] of a year or the [endOf] of the test for a group); three years of
    366 days are left to both ends of the range of [Date]. *)
Definition inDateRange (seconds : Z) : Prop :=
  - maxTime + 3 * 366 * msPerDay <= seconds * 1000 <=
  maxTime - 3 * 366 * msPerDay.

(** The unit that holds the epoch second [ts] (there are units for the
    three granularities only). *)
Definition unitOf (g : PeriodType) (ts : Z) : Z :=
  match g with
  | DAILY => localDay ts
  | MONTHLY => 12 * yearOfDay (localDay ts) + monthOfDay (localDay ts)
  | YEARLY => yearOfDay (localDay ts)
  | OtherPeriod _ => 0
  end.

(** The first day of a unit: unit [u] is the days from [unitStart g u] to
    the day before [unitStart g (u + 1)]. *)
Definition unitStart (g : PeriodType) (u : Z) : Z :=
  match g with
  | DAILY => u
  | MONTHLY => monthStart u
  | YEARLY => DayFromYear u
  | OtherPeriod _ => u
  end.

Definition yearLabel (y : Z) : string := zeroFill y 4.

Definition monthLabel (y m : Z) : string :=
  yearLabel y ++ "." ++ zeroFill (m + 1) 2.

Definition dayLabel (y m d : Z) : string :=
  monthLabel y m ++ "." ++ zeroFill d 2.

(** The canonical label of a unit: ["2019.06.22"], ["2019.06"], ["2019"]. *)
Definition unitLabel (g : PeriodType) (u : Z) : string :=
  match g with
  | DAILY => dayLabel (yearOfDay u) (monthOfDay u) (dateOfDay u)
  | MONTHLY => monthLabel (u / 12) (u mod 12)
  | YEARLY => yearLabel u
  | OtherPeriod _ => ""
  end.

(** The units [a], [a + 1], ..., [b]. *)
Definition unitsBetween (a b : Z) : list Z :=
  map (fun i => a + Z.of_nat i) (seq 0 (Z.to_nat (b - a + 1))).

(** A selector token: one unit, a whole year ([YYYY.*]) or a whole month
    ([YYYY.MM.*], January being month 0). *)
Inductive Token : Type :=
  | Concrete (u : Z)
  | YearGroup (y : Z)
  | MonthGroup (y m : Z).

Definition isGroup (tok : Token) : bool :=
  match tok with
  | Concrete _ => false
  | _ => true
  end.

Definition tokenLabel (g : PeriodType) (tok : Token) : string :=
  match tok with
  | Concrete u => unitLabel g u
  | YearGroup y => yearLabel y ++ ".*"
  | MonthGroup y m => monthLabel y m ++ ".*"
  end.

(** The first unit of a year, and the units a token stands for. *)
Definition firstUnitOfYear (g : PeriodType) (y : Z) : Z :=
  match g with
  | DAILY => DayFromYear y
  | MONTHLY => 12 * y
  | _ => y
  end.

Definition expand (g : PeriodType) (tok : Token) : list Z :=
  match tok with
  | Concrete u => [u]
  | YearGroup y => unitsBetween (firstUnitOfYear g y) (firstUnitOfYear g (y + 1) - 1)
  | MonthGroup y m => unitsBetween (monthStart (12 * y + m)) (monthStart (12 * y + m + 1) - 1)
  end.

(** The year a unit lies in. *)
Definition yearOfUnit (g : PeriodType) (u : Z) : Z :=
  match g with
  | DAILY => yearOfDay u
  | MONTHLY => u / 12
  | _ => u
  end.

(** The index names a token stands for. *)
Definition expandLabels (prefix : string) (g : PeriodType) (tok : Token)
  : list string :=
  map (fun u => (prefix ++ unitLabel g u)%string) (expand g tok).

(** When a group token is due, in the specification's words: the cursor is
    on the first sub-unit of a coarser period and the last unit of that
    period is not after the unit of [endAt]. *)
Definition groupDue (g : PeriodType) (uE u : Z) : Prop :=
  match g with
  | DAILY =>
      (monthOfDay u = 0 /\ dateOfDay u = 1 /\
       DayFromYear (yearOfDay u + 1) - 1 <= uE) \/
      (dateOfDay u = 1 /\
       monthStart (12 * yearOfDay u + monthOfDay u + 1) - 1 <= uE)
  | MONTHLY => u mod 12 = 0 /\ u + 11 <= uE
  | _ => False
  end.

(** The group rule in the specification's words.  With the cursor on unit
    [u] and [uE] the unit of [endAt]: when the cursor is on the first
    sub-unit of a coarser period whose last unit is not after [uE], the
    group token of that period is emitted and the cursor goes to the first
    unit after the period; otherwise the unit itself is emitted and the
    cursor goes to the next unit.  The result is the token and the next
    cursor. *)
Definition selectStep (g : PeriodType) (enableGroupSelect : bool) (uE u : Z)
  : Token * Z :=
  match g with
  | DAILY =>
      let y := yearOfDay u in
      let m := monthOfDay u in
      let d := dateOfDay u in
      if enableGroupSelect && (m =? 0) && (d =? 1)
         && (DayFromYear (y + 1) - 1 <=? uE)
      then (YearGroup y, DayFromYear (y + 1))
      else if enableGroupSelect && (d =? 1)
         && (monthStart (12 * y + m + 1) - 1 <=? uE)
      then (MonthGroup y m, monthStart (12 * y + m + 1))
      else (Concrete u, u + 1)
  | MONTHLY =>
      if enableGroupSelect && (u mod 12 =? 0) && (u + 11 <=? uE)
      then (YearGroup (u / 12), u + 12)
      else (Concrete u, u + 1)
  | _ => (Concrete u, u + 1)
  end.

(** [Selects g egs uE u toks]: walking from unit [u] to unit [uE] by
    [selectStep] emits the tokens [toks]. *)
Inductive Selects (g : PeriodType) (enableGroupSelect : bool) (uE : Z)
  : Z -> list Token -> Prop :=
  | Selects_done (u : Z) : uE < u -> Selects g enableGroupSelect uE u []
  | Selects_step (u u' : Z) (tok : Token) (toks : list Token) :
      u <= uE ->
      selectStep g enableGroupSelect uE u = (tok, u') ->
      Selects g enableGroupSelect uE u' toks ->
      Selects g enableGroupSelect uE u (tok :: toks).

(** The first unit a token stands for. *)
Definition tokenStart (g : PeriodType) (tok : Token) : Z :=
  match tok with
  | Concrete u => u
  | YearGroup y => firstUnitOfYear g y
  | MonthGroup y m => monthStart (12 * y + m)
  end.

(** The moments of the loops: the cursor on the first instant of unit [u],
    [endAtDate] on the last millisecond of unit [uE]. *)
Definition cursorAt (g : PeriodType) (u : Z) : Moment.t :=
  Moment.mk (unitStart g u * msPerDay) 540.

Definition endAtOf (g : PeriodType) (uE : Z) : Moment.t :=
  Moment.mk (unitStart g (uE + 1) * msPerDay - 1) 540.

Definition momentUnit (g : PeriodType) : Moment.unitOfTime :=
  match g with
  | DAILY => Moment.date
  | MONTHLY => Moment.month
  | _ => Moment.year
  end.

Definition bodyOf (g : PeriodType) (enableGroupSelect : bool)
  (endAtDate : Moment.t) : LoopState -> LoopState :=
  match g with
  | DAILY => dailyBody enableGroupSelect endAtDate
  | MONTHLY => monthlyBody enableGroupSelect endAtDate
  | _ => yearlyBody
  end.

(** The characters of a zero-filled number: decimal digits and the sign. *)
Definition numericChar (c : ascii) : bool :=
  match uint_of_char c (Some Decimal.Nil) with
  | Some _ => true
  | None => Ascii.eqb c "-"
  end.

Fixpoint numeric (s : string) : bool :=
  match s with
  | EmptyString => true
  | String c r => numericChar c && numeric r
  end.

(** The number a string of digits stands for. *)
Definition digitsValue (s : string) : N :=
  match NilEmpty.uint_of_string s with
  | Some d => N.of_uint d
  | None => 0%N
  end.

Definition supported (g : PeriodType) : Prop :=
  g = DAILY \/ g = MONTHLY \/ g = YEARLY.

End Period.

(** ** Entity identity *)

Module Identity.

(** The values an id property is read as.  Numbers and objects are left
    out: the entities of the repository carry strings. *)
Inductive JsValue : Type :=
  | undefined
  | null
  | JsString (s : string)
  | JsBoolean (b : bool).

(** [ToString], as applied by [value + delimiter]. *)
Definition toString (v : JsValue) : string :=
  match v with
  | undefined => "undefined"
  | null => "null"
  | JsString s => s
  | JsBoolean true => "true"
  | JsBoolean false => "false"
  end.

(** [ToBoolean], as applied by [if (routingId)]. *)
Definition truthy (v : JsValue) : bool :=
  match v with
  | undefined | null => false
  | JsString s => negb (String.eqb s "")
  | JsBoolean b => b
  end.

(** An entity, as far as the repository looks at it: [entity[prop]].  A
    property that is missing reads [undefined]; a getter reads its result. *)
Definition Entity : Type := string -> JsValue.

(** The options of an [EntityId] decorator. *)
Record EntityIdOptions : Type := { seq : option Z }.

(** What [getEntityIdProps] gives: [undefined] ([None]) or a [Map] from
    property names to options, here its entries in insertion order. *)
Definition EntityIdProps : Type := option (list (string * EntityIdOptions)).

Definition idFields (props : EntityIdProps) : list (string * EntityIdOptions) :=
  match props with
  | None => []
  | Some entries => entries
  end.

(** [s.substr(start, length)]; a length below zero counts as zero. *)
Definition substr (s : string) (start : nat) (len : Z) : string :=
  String.substring start (Z.to_nat len) s.

Definition strlen (s : string) : Z := Z.of_nat (String.length s).

Section EntityId.

(** [a.localeCompare(b)] depends on the locale of the host; it is a
    parameter of the embedding. *)
Variable localeCompare : string -> string -> Z.

(** An element of [entityIdList]. *)
Record IdItem : Type := { prop : string; item_seq : Z }.

(** The comparator handed to [sort]:
    [a.seq - b.seq || a.prop.localeCompare(b.prop)]. *)
Definition compareItems (a b : IdItem) : Z :=
  let d := item_seq a - item_seq b in
  if d =? 0 then localeCompare (prop a) (prop b) else d.

(** The order of [sort]: by [seq], then by property name. *)
Definition itemLe (a b : IdItem) : Prop :=
  item_seq a < item_seq b \/
  (item_seq a = item_seq b /\ localeCompare (prop a) (prop b) <= 0).

(** [Array.prototype.sort] is stable; with a comparator it places [a]
    before [b] unless the comparator is positive.  Insertion from the right
    is such a sort. *)
Fixpoint insertItem (x : IdItem) (l : list IdItem) : list IdItem :=
  match l with
  | [] => [x]
  | y :: r => if compareItems x y <=? 0 then x :: y :: r else y :: insertItem x r
  end.

Fixpoint sortItems (l : list IdItem) : list IdItem :=
  match l with
  | [] => []
  | x :: r => insertItem x (sortItems r)
  end.

Definition entityIdList (entries : list (string * EntityIdOptions)) : list IdItem :=
  map (fun e => {| prop := fst e;
                   item_seq := match seq (snd e) with Some n => n | None => 0 end |})
      entries.

Definition entityId (props : EntityIdProps) (entity : Entity) (delimiter : string)
  : option string :=
  match props with
  | None => None
  | Some entries =>
      let sortedEntityIdList := sortItems (entityIdList entries) in
      let entityId :=
        fold_left (fun acc item => (acc ++ (toString (entity (prop item)) ++ delimiter))%string)
                  sortedEntityIdList "" in
      Some (substr entityId 0 (strlen entityId - strlen delimiter))
  end.

(** [routingId]: the value of the property [getRoutingIdProp] names. *)
Definition routingId (routingIdProp : option string) (entity : Entity) : JsValue :=
  match routingIdProp with
  | Some p => if negb (String.eqb p "") then entity p else undefined
  | None => undefined
  end.

(** The parameters handed to [client.create] and [client.index]; [body]
    stands for [classToPlain(entity)]. *)
Record WriteParams : Type := {
  index : string;
  id : option string;
  body : Entity;
  routing : option JsValue
}.

Definition routingParam (routingIdProp : option string) (entity : Entity)
  : option JsValue :=
  let r := routingId routingIdProp entity in
  if truthy r then Some r else None.

(** [createEntity] and [indexEntity], up to the request they send. *)
Definition createEntity (props : EntityIdProps) (routingIdProp : option string)
  (entity : Entity) (index : string) : Outcome WriteParams :=
  match entityId props entity "-" with
  | None | Some EmptyString => Throw (PlainError "entityId decorator requried")
  | Some entityId =>
      Return {| index := index; id := Some entityId; body := entity;
                routing := routingParam routingIdProp entity |}
  end.

Definition indexEntity (props : EntityIdProps) (routingIdProp : option string)
  (entity : Entity) (index : string) : Outcome WriteParams :=
  Return {| index := index; id := entityId props entity "-"; body := entity;
            routing := routingParam routingIdProp entity |}.

End EntityId.

(** A comparison by code units, one of the orders [localeCompare] can be. *)
Definition ordinalCompare (a b : string) : Z :=
  match String.compare a b with
  | Lt => -1
  | Eq => 0
  | Gt => 1
  end.

End Identity.

(** ** Index names of single instants *)

Module Naming.
Import Calendar Moment Format Period.

(** The unit a day lies in. *)
Definition unitOfDay (g : PeriodType) (d : Z) : Z :=
  match g with
  | DAILY => d
  | MONTHLY => 12 * yearOfDay d + monthOfDay d
  | YEARLY => yearOfDay d
  | OtherPeriod _ => 0
  end.

Section Host.

(** [LocalTZA(t, true)] of ECMAScript: the offset of the host's time zone
    at the instant [t], in milliseconds.  It is a parameter: moment in local
    mode reads its fields with [Date]'s local getters. *)
Variable LocalTZA : Z -> Z.

Definition LocalTime (t : Z) : Z := t + LocalTZA t.

(** [moment.unix(seconds)], left in local mode: [year()], [month()] and
    [date()] are [getFullYear()], [getMonth()] and [getDate()], the fields
    of [LocalTime(t)].  It is written as the fixed-offset moment with the
    same fields. *)
Definition local (seconds : Z) : Moment.t :=
  let t := seconds * 1000 in
  Moment.mk (LocalTime t) (LocalTZA t / 60000).

(** The day of the host's calendar that holds the epoch second [ts]. *)
Definition hostDay (ts : Z) : Z := Day (LocalTime (ts * 1000)).

Definition periodIndexName (prefix : string) (timestamp : Z) (period : PeriodType)
  : Outcome string :=
  let date := local timestamp in
  match period with
  | DAILY => Return (prefix ++ format date "YYYY.MM.DD")%string
  | MONTHLY => Return (prefix ++ format date "YYYY.MM")%string
  | YEARLY => Return (prefix ++ format date "YYYY")%string
  | OtherPeriod _ => Throw (RangeError period)
  end.

End Host.

(** A host whose clock is at +09:00 throughout. *)
Definition seoul (t : Z) : Z := 32400000.

End Naming.

(** ** Date-math selectors relative to now *)

Module Relative.

(** [s.slice(start, end)]: negative positions count from the end. *)
Definition slice (s : string) (start end_ : Z) : string :=
  let len := Identity.strlen s in
  let from := if start <? 0 then Z.max (len + start) 0 else Z.min start len in
  let to := if end_ <? 0 then Z.max (len + end_) 0 else Z.min end_ len in
  String.substring (Z.to_nat from) (Z.to_nat (Z.max (to - from) 0)) s.

(** The values [i] takes in [for (let i = 0; i < range; i++)]. *)
Definition counter (range : Z) : list Z :=
  map Z.of_nat (seq 0 (Z.to_nat range)).

Definition indexSelectorByRelDate (prefix : string) (dayRange : Z)
  (format : string) : string :=
  let names := ("<" ++ prefix ++ "{now/d{" ++ format ++ "|+09:00}}>,")%string in
  let names :=
    fold_left
      (fun names i =>
         (names ++ ("<" ++ prefix ++ "{now/d-" ++ Format.decimal (i + 1)
                    ++ "d{" ++ format ++ "|+09:00}}>,"))%string)
      (counter dayRange) names in
  slice names 0 (-1).

Definition indexSelectorByRelMonth (prefix : string) (monthRange : Z)
  (format : string) : string :=
  let names := ("<" ++ prefix ++ "{now/m{" ++ format ++ "|+09:00}}>,")%string in
  let names :=
    fold_left
      (fun names i =>
         (names ++ ("<" ++ prefix ++ "{now/m-" ++ Format.decimal (i + 1)
                    ++ "m{" ++ format ++ "|+09:00}}>,"))%string)
      (counter monthRange) names in
  slice names 0 (-1).

Definition indexSelectorByRelHour (prefix : string) (hourRange : Z)
  (format : string) : string :=
  let names := ("<" ++ prefix ++ "{now/h{" ++ format ++ "|+09:00}}>,")%string in
  let names :=
    fold_left
      (fun names i =>
         (names ++ ("<" ++ prefix ++ "{now/h-" ++ Format.decimal (i + 1)
                    ++ "h{" ++ format ++ "|+09:00}}>,"))%string)
      (counter hourRange) names in
  slice names 0 (-1).

(** A date-math index name: [<prefix{now/u{format|+09:00}}>] for now,
    [<prefix{now/u-ku{format|+09:00}}>] for [k] units before now. *)
Definition dateMathName (unit prefix format : string) (k : Z) : string :=
  ("<" ++ prefix ++ "{now/" ++ unit
   ++ (if (k =? 0)%Z then "" else "-" ++ Format.decimal k ++ unit)
   ++ "{" ++ format ++ "|+09:00}}>")%string.

End Relative.

(** ** The summary of a bulk response *)

Module Bulk.

Inductive WriteResult : Type := created | updated | noop | deleted.

Record WriteError : Type := { type : string; reason : string }.

(** A [WriteResponse], as far as [bulk] reads it: an item that succeeded
    carries [result], an item that failed carries [error]. *)
Record WriteResponse : Type := {
  _index : string;
  _id : string;
  result : option WriteResult;
  status : Z;
  error : option WriteError
}.

(** An item of the response of [client.bulk]: the response of the
    operation, under the name of the operation. *)
Record BulkItem : Type := {
  index : option WriteResponse;
  update : option WriteResponse;
  delete : option WriteResponse;
  create : option WriteResponse
}.

Record BulkResult : Type := {
  succeed : Z;
  failed : Z;
  errors : list string;
  items : list WriteResponse
}.

(** A call returns or throws the [TypeError] of a property read on
    [undefined]. *)
Inductive Attempt (A : Type) : Type :=
  | Done (a : A)
  | TypeError.

Arguments Done {A} a.
Arguments TypeError {A}.

(** [item['index'] || item['update'] || item['delete'] || item['create']] *)
Definition infoOf (item : BulkItem) : option WriteResponse :=
  match index item with
  | Some info => Some info
  | None =>
      match update item with
      | Some info => Some info
      | None =>
          match delete item with
          | Some info => Some info
          | None => create item
          end
      end
  end.

(** The variables of the loop. *)
Record Tally : Type := {
  tally_succeed : Z;
  tally_errors : list string;
  resultItems : list WriteResponse
}.

(** [options.ignore]: absent, or the statuses not to report. *)
Definition reported (ignore : option (list Z)) (info : WriteResponse) : bool :=
  match ignore with
  | None => true
  | Some statuses => negb (existsb (Z.eqb (status info)) statuses)
  end.

(** One pass of [for (const item of items)]. *)
Definition tallyItem (ignore : option (list Z)) (t : Tally) (item : BulkItem)
  : Attempt Tally :=
  match infoOf item with
  | None => TypeError
  | Some info =>
      let resultItems := resultItems t ++ [info] in
      match result info with
      | Some _ =>
          Done {| tally_succeed := tally_succeed t + 1;
                  tally_errors := tally_errors t;
                  resultItems := resultItems |}
      | None =>
          match error info with
          | Some e =>
              if reported ignore info
              then Done {| tally_succeed := tally_succeed t;
                           tally_errors :=
                             tally_errors t ++ [(type e ++ " - " ++ reason e)%string];
                           resultItems := resultItems |}
              else Done {| tally_succeed := tally_succeed t;
                           tally_errors := tally_errors t;
                           resultItems := resultItems |}
          | None =>
              Done {| tally_succeed := tally_succeed t;
                      tally_errors := tally_errors t;
                      resultItems := resultItems |}
          end
      end
  end.

Fixpoint tallyItems (ignore : option (list Z)) (t : Tally) (l : list BulkItem)
  : Attempt Tally :=
  match l with
  | [] => Done t
  | item :: rest =>
      match tallyItem ignore t item with
      | Done t' => tallyItems ignore t' rest
      | TypeError => TypeError
      end
  end.

(** [bulk], from the items of the response on. *)
Definition bulk (responseItems : list BulkItem) (ignore : option (list Z))
  : Attempt BulkResult :=
  match tallyItems ignore
          {| tally_succeed := 0; tally_errors := []; resultItems := [] |}
          responseItems with
  | Done t =>
      Done {| succeed := tally_succeed t;
              failed := Z.of_nat (List.length (tally_errors t));
              errors := tally_errors t;
              items := resultItems t |}
  | TypeError => TypeError
  end.

(** Whether an item succeeded, and the message of an item that failed. *)
Definition succeeded (info : WriteResponse) : bool :=
  match result info with
  | Some _ => true
  | None => false
  end.

Definition failure (info : WriteResponse) : option string :=
  match result info, error info with
  | None, Some e => Some (type e ++ " - " ++ reason e)%string
  | _, _ => None
  end.

(** The messages [bulk] reports for the responses [infos]. *)
Definition reportedFailures (ignore : option (list Z)) (infos : list WriteResponse)
  : list string :=
  flat_map (fun info =>
              match failure info with
              | Some message => if reported ignore info then [message] else []
              | None => []
              end) infos.

End Bulk.

(** ** Strings without a given character *)

Module Chars.

(** [charFree c s]: the character [c] does not occur in [s]. *)
Fixpoint charFree (c : ascii) (s : string) : bool :=
  match s with
  | EmptyString => true
  | String x r => negb (Ascii.eqb x c) && charFree c r
  end.

End Chars.

(** ** The former index selector (test/esrepo_old.txt) *)

Module Legacy.
Import Moment Format.

(** The loop state: the moment [endAtDate], moved back in place, and the
    array [indexes]. *)
Definition WalkState : Type := (Moment.t * list string)%type.

(** [indexes.indexOf(endAtDate.format(fmt)) === -1] *)
Definition notListed (fmt : string) (st : WalkState) : bool :=
  negb (existsb (String.eqb (format (fst st) fmt)) (snd st)).

(** [indexes.push(endAtDate.format(fmt)); endAtDate.add('-1', unit)] *)
Definition stepBack (fmt : string) (u : unitOfTime) (st : WalkState) : WalkState :=
  let (endAtDate, indexes) := st in
  (add endAtDate (-1) u, indexes ++ [format endAtDate fmt]).

(** The three branches differ by [fmt] and by the unit only.  A pass moves
    [endAtDate] back by a day at least, so the days between the two moments
    bound the passes. *)
Definition walkBack (fmt : string) (u : unitOfTime)
  (startAtDate endAtDate : Moment.t) : option (list string) :=
  match while (loopBound startAtDate endAtDate) (notListed fmt) (stepBack fmt u)
              (endAtDate, [format startAtDate fmt]) with
  | Some (_, indexes) => Some indexes
  | None => None
  end.

Definition indexSelectorByTimeRange (prefix : string) (startAt endAt : Z)
  (splitPeriodType : PeriodType) : Outcome string :=
  if endAt <? startAt then Throw InvalidTimeRangeError
  else
    let startAtDate := utcOffset (of_unix startAt) 9 in
    let endAtDate := utcOffset (of_unix endAt) 9 in
    let finish (r : option (list string)) :=
      match r with
      | Some indexes =>
          if 100 <? Z.of_nat (List.length indexes)
          then Return (prefix ++ "*")%string
          else Return (String.concat ","
                         (map (fun v => (prefix ++ v)%string) (unique indexes)))
      | None => Unfinished
      end in
    match splitPeriodType with
    | YEARLY => finish (walkBack "YYYY" year startAtDate endAtDate)
    | MONTHLY => finish (walkBack "YYYY.MM" month startAtDate endAtDate)
    | DAILY => finish (walkBack "YYYY.MM.DD" day startAtDate endAtDate)
    | OtherPeriod _ => Throw (RangeError splitPeriodType)
    end.

(** The format and the unit of a granularity. *)
Definition fmtOf (g : PeriodType) : string :=
  match g with
  | DAILY => "YYYY.MM.DD"
  | MONTHLY => "YYYY.MM"
  | _ => "YYYY"
  end.

Definition unitBack (g : PeriodType) : unitOfTime :=
  match g with
  | DAILY => day
  | MONTHLY => month
  | _ => year
  end.

(** The order in which the former selector lists the units from [uS] to
    [uE]: the first, then the others from the last one down. *)
Definition walkOrder (uS uE : Z) : list Z :=
  uS :: rev (Period.unitsBetween (uS + 1) uE).

End Legacy.

(** ** The cache of clients (src/EsClient.ts) *)

Module EsClient.

Section Instance.

(** The options of a host, and [JSON.stringify] on them. *)
Variable EsHostOptions : Type.
Variable stringify : EsHostOptions -> string.

(** A [Client]: the options it was constructed with and the number of
    clients constructed before it, which tells apart two clients
    constructed with the same options. *)
Record Client : Type := { born : nat; options : EsHostOptions }.

(** The static [handlers], a [Map] from cache keys to clients, as its
    entries in insertion order, with the number of clients constructed so
    far. *)
Record Handlers : Type := {
  entries : list (string * Client);
  constructed : nat
}.

(** [new Map()] *)
Definition empty : Handlers := {| entries := []; constructed := 0 |}.

(** [handlers.get(cacheKey)] *)
Fixpoint get (cacheKey : string) (l : list (string * Client)) : option Client :=
  match l with
  | [] => None
  | (key, client) :: rest =>
      if String.eqb key cacheKey then Some client else get cacheKey rest
  end.

(** [EsClient.instance(target)]: the client returned and the handlers
    after the call.  [set] is called for a key that [get] has not found, so
    it adds an entry. *)
Definition instance (target : EsHostOptions) (h : Handlers) : Client * Handlers :=
  let cacheKey := stringify target in
  match get cacheKey (entries h) with
  | None =>
      let client := {| born := constructed h; options := target |} in
      (client, {| entries := entries h ++ [(cacheKey, client)];
                  constructed := S (constructed h) |})
  | Some handler => (handler, h)
  end.

(** The clients returned by successive calls. *)
Fixpoint instances (targets : list EsHostOptions) (h : Handlers)
  : list Client * Handlers :=
  match targets with
  | [] => ([], h)
  | target :: rest =>
      let (client, h') := instance target h in
      let (clients, h'') := instances rest h' in
      (client :: clients, h'')
  end.

(** What holds of the handlers at all times: a key occurs once, it is the
    text of the options of its client, and every construction has added an
    entry. *)
Definition cacheInv (h : Handlers) : Prop :=
  NoDup (map fst (entries h)) /\
  (forall key client, In (key, client) (entries h) ->
     key = stringify (options client)) /\
  constructed h = List.length (entries h).

End Instance.

Arguments born {EsHostOptions} c.
Arguments options {EsHostOptions} c.
Arguments Build_Client {EsHostOptions} born options.
Arguments entries {EsHostOptions} h.
Arguments constructed {EsHostOptions} h.
Arguments Build_Handlers {EsHostOptions} entries constructed.
Arguments get {EsHostOptions} cacheKey l.
Arguments instance {EsHostOptions} stringify target h.
Arguments instances {EsHostOptions} stringify targets h.
Arguments cacheInv {EsHostOptions} stringify h.

End EsClient.

(** * Properties *)

(** ** The calendar *)

Module CalendarFacts.
Import Calendar.

Ltac divmod := Z.div_mod_to_equations; lia.

Lemma isLeap_true (y : Z) :
  isLeap y = true <-> y mod 4 = 0 /\ (y mod 100 <> 0 \/ y mod 400 = 0).
Proof.
  unfold isLeap.
  destruct (Z.eqb_spec (y mod 4) 0), (Z.eqb_spec (y mod 100) 0),
    (Z.eqb_spec (y mod 400) 0); simpl; intuition congruence.
Qed.

Lemma DayFromYear_succ (y : Z) :
  DayFromYear (y + 1) = DayFromYear y + DaysInYear y.
Proof.
  unfold DaysInYear.
  destruct (isLeap y) eqn:L.
  - apply isLeap_true in L. unfold DayFromYear. divmod.
  - assert (N : ~ (y mod 4 = 0 /\ (y mod 100 <> 0 \/ y mod 400 = 0))).
    { rewrite <- isLeap_true, L. discriminate. }
    unfold DayFromYear. divmod.
Qed.

Lemma DayFromYear_lt (y y' : Z) : y < y' -> DayFromYear y < DayFromYear y'.
Proof. intros H. unfold DayFromYear. divmod. Qed.

Lemma DayFromYear_le (y y' : Z) : y <= y' -> DayFromYear y <= DayFromYear y'.
Proof. intros H. unfold DayFromYear. divmod. Qed.

Lemma DayFromYear_lt_inv (y y' : Z) : DayFromYear y < DayFromYear y' -> y < y'.
Proof.
  intros H. destruct (Z_lt_le_dec y y') as [|L]; [assumption|].
  apply DayFromYear_le in L. lia.
Qed.

(** [YearFromDay d] is the year of the ECMAScript definition: the largest
    [y] whose first day is not after [d]. *)
Lemma YearFromDay_spec (d : Z) :
  DayFromYear (YearFromDay d) <= d < DayFromYear (YearFromDay d + 1).
Proof.
  unfold YearFromDay.
  set (y := 1970 + 400 * d / 146097).
  assert (Hlo : DayFromYear (y - 1) <= d).
  { subst y. unfold DayFromYear. divmod. }
  assert (Hhi : d < DayFromYear (y + 2)).
  { subst y. unfold DayFromYear. divmod. }
  destruct (Z.ltb_spec d (DayFromYear y)).
  - replace (y - 1 + 1) with y by lia. lia.
  - destruct (Z.leb_spec (DayFromYear (y + 1)) d).
    + replace (y + 1 + 1) with (y + 2) by lia. lia.
    + lia.
Qed.

Lemma YearFromDay_unique (d y : Z) :
  DayFromYear y <= d < DayFromYear (y + 1) -> YearFromDay d = y.
Proof.
  intros H. pose proof (YearFromDay_spec d) as S.
  assert (y < YearFromDay d + 1) by (apply DayFromYear_lt_inv; lia).
  assert (YearFromDay d < y + 1) by (apply DayFromYear_lt_inv; lia).
  lia.
Qed.

Lemma Day_of_day (d r : Z) : 0 <= r < msPerDay -> Day (d * msPerDay + r) = d.
Proof. unfold Day, msPerDay. intros. divmod. Qed.


Lemma DayWithinYear_range (t : Z) :
  0 <= DayWithinYear t < DaysInYear (YearFromTime t).
Proof.
  unfold DayWithinYear, YearFromTime.
  pose proof (YearFromDay_spec (Day t)) as S.
  rewrite DayFromYear_succ in S. lia.
Qed.

Ltac month_cases m :=
  let H := fresh "Hm" in
  assert (H : m = 0 \/ m = 1 \/ m = 2 \/ m = 3 \/ m = 4 \/ m = 5 \/ m = 6 \/
              m = 7 \/ m = 8 \/ m = 9 \/ m = 10 \/ m = 11) by lia;
  repeat (destruct H as [H | H]; [rewrite H in * | ]); [ .. | rewrite H in * ].

Ltac table_norm :=
  repeat match goal with
  | |- context [monthStartDay ?l (?a + 1)] =>
      let v := eval cbv in (a + 1) in change (a + 1) with v
  end;
  cbn [monthStartDay]; cbv iota.

Ltac table_step :=
  match goal with
  | |- context [if ?a <? ?b then _ else _] =>
      destruct (Z.ltb_spec a b); cbv iota; [try lia |]
  end.

Lemma monthOfYearDay_range (leap dwy : Z) : 0 <= monthOfYearDay leap dwy <= 11.
Proof. unfold monthOfYearDay. repeat table_step. lia. Qed.

(** The table read backwards: a day from the first day of month [mn] to
    the day before the first day of the next month lies in month [mn]. *)
Lemma monthOfYearDay_spec (leap mn dwy : Z) :
  0 <= leap <= 1 -> 0 <= mn <= 11 ->
  monthStartDay leap mn <= dwy ->
  (mn < 11 -> dwy < monthStartDay leap (mn + 1)) ->
  monthOfYearDay leap dwy = mn.
Proof.
  intros Hl Hm Hlo Hhi. unfold monthOfYearDay.
  assert (L : leap = 0 \/ leap = 1) by lia.
  destruct L as [-> | ->]; month_cases mn; cbn in Hlo, Hhi |- *;
    repeat table_step; lia.
Qed.

Lemma monthOfYearDay_start (leap dwy : Z) :
  0 <= leap <= 1 -> 0 <= dwy ->
  monthStartDay leap (monthOfYearDay leap dwy) <= dwy.
Proof.
  intros Hl Hd. unfold monthOfYearDay.
  repeat (table_step; [cbn [monthStartDay]; lia |]).
  cbn [monthStartDay]. lia.
Qed.

Lemma MonthFromTime_range (t : Z) : 0 <= MonthFromTime t <= 11.
Proof. apply monthOfYearDay_range. Qed.

Lemma InLeapYear_range (t : Z) : 0 <= InLeapYear t <= 1.
Proof. unfold InLeapYear. destruct (isLeap _); lia. Qed.

Lemma DateFromTime_pos (t : Z) : 1 <= DateFromTime t.
Proof.
  unfold DateFromTime, MonthFromTime.
  pose proof (DayWithinYear_range t) as R.
  pose proof (monthOfYearDay_start (InLeapYear t) (DayWithinYear t)
                (InLeapYear_range t)).
  lia.
Qed.

(** The fields of a time value name its day: [MakeDay] undoes
    [YearFromTime], [MonthFromTime] and [DateFromTime]. *)
Lemma MakeDay_fields (t : Z) :
  MakeDay (YearFromTime t) (MonthFromTime t) (DateFromTime t) = Day t.
Proof.
  pose proof (MonthFromTime_range t) as R.
  unfold MakeDay.
  rewrite Z.div_small, Z.mod_small, Z.add_0_r by lia.
  unfold DateFromTime, DayWithinYear, InLeapYear. lia.
Qed.

Lemma MakeDay_date (y m dt k : Z) : MakeDay y m (dt + k) = MakeDay y m dt + k.
Proof. unfold MakeDay. lia. Qed.

Lemma MakeDay_monthStart (y m dt : Z) :
  MakeDay y m dt = monthStart (12 * y + m) + dt - 1.
Proof.
  unfold monthStart, MakeDay.
  replace (0 + (12 * y + m) / 12) with (y + m / 12) by divmod.
  replace ((12 * y + m) mod 12) with (m mod 12) by divmod.
  lia.
Qed.

Lemma daysInMonth_bounds (y m : Z) : 28 <= Moment.daysInMonth y m <= 31.
Proof.
  unfold Moment.daysInMonth.
  destruct (m mod 12 =? 1); [destruct (isLeap _); lia | divmod].
Qed.

Lemma monthStart_succ (mi : Z) :
  monthStart (mi + 1) = monthStart mi + Moment.daysInMonth 0 mi.
Proof.
  unfold monthStart, MakeDay, Moment.daysInMonth.
  replace (0 + (mi - mi mod 12) / 12) with (0 + mi / 12) by divmod.
  assert (R : 0 <= mi mod 12 < 12) by (apply Z.mod_pos_bound; lia).
  destruct (Z.eq_dec (mi mod 12) 11) as [E | E].
  - replace ((mi + 1) mod 12) with 0 by divmod.
    replace (0 + (mi + 1) / 12) with (0 + mi / 12 + 1) by divmod.
    rewrite DayFromYear_succ, E. unfold DaysInYear.
    destruct (isLeap (0 + mi / 12)); simpl; lia.
  - replace (0 + (mi + 1) / 12) with (0 + mi / 12) by divmod.
    replace ((mi + 1) mod 12) with (mi mod 12 + 1) by divmod.
    set (mn := mi mod 12) in *.
    destruct (isLeap (0 + mi / 12)); month_cases mn; simpl; lia.
Qed.

Lemma monthOfYearDay_next (leap dwy : Z) :
  0 <= leap <= 1 ->
  monthOfYearDay leap dwy < 11 ->
  dwy < monthStartDay leap (monthOfYearDay leap dwy + 1).
Proof.
  intros Hl. unfold monthOfYearDay.
  repeat (table_step; [intros _; table_norm; lia |]).
  lia.
Qed.

Lemma monthStart_year (y : Z) : monthStart (12 * y) = DayFromYear y.
Proof.
  unfold monthStart, MakeDay.
  replace (0 + 12 * y / 12) with y by divmod.
  replace ((12 * y) mod 12) with 0 by divmod.
  simpl. lia.
Qed.


(** [MakeDay] finds the day whose fields are the given ones ("find a time
    value t such that YearFromTime(t) is ym, MonthFromTime(t) is mn and
    DateFromTime(t) is 1"), for any date that exists in the month. *)
Lemma fields_MakeDay (y m dt r : Z) :
  1 <= dt <= Moment.daysInMonth y m ->
  0 <= r < msPerDay ->
  let t := MakeDay y m dt * msPerDay + r in
  YearFromTime t = y + m / 12 /\ MonthFromTime t = m mod 12 /\ DateFromTime t = dt.
Proof.
  intros Hdt Hr t.
  assert (HD : Day t = MakeDay y m dt) by (apply Day_of_day; assumption).
  unfold Moment.daysInMonth in Hdt.
  replace (y + (m - m mod 12) / 12) with (y + m / 12) in Hdt by divmod.
  assert (R : 0 <= m mod 12 < 12) by (apply Z.mod_pos_bound; lia).
  assert (HY : YearFromTime t = y + m / 12).
  { unfold YearFromTime. rewrite HD. apply YearFromDay_unique.
    rewrite DayFromYear_succ. unfold MakeDay, DaysInYear.
    set (mn := m mod 12) in *.
    destruct (isLeap (y + m / 12)); month_cases mn; cbn in Hdt; table_norm; lia. }
  assert (HW : DayWithinYear t =
               monthStartDay (if isLeap (y + m / 12) then 1 else 0) (m mod 12) + dt - 1).
  { unfold DayWithinYear. rewrite HD, HY. unfold MakeDay. lia. }
  assert (HM : MonthFromTime t = m mod 12).
  { unfold MonthFromTime, InLeapYear. rewrite HW, HY.
    set (mn := m mod 12) in *.
    apply monthOfYearDay_spec;
      destruct (isLeap (y + m / 12)); month_cases mn; cbn in Hdt; table_norm; lia. }
  split; [assumption | split; [assumption |]].
  unfold DateFromTime, InLeapYear. rewrite HW, HM, HY. lia.
Qed.

Lemma monthStart_lt (a b : Z) : a < b -> monthStart a < monthStart b.
Proof.
  intros H. replace b with (a + 1 + Z.of_nat (Z.to_nat (b - a - 1))) by lia.
  induction (Z.to_nat (b - a - 1)) as [| n IH].
  - rewrite Z.add_0_r, monthStart_succ.
    pose proof (daysInMonth_bounds 0 a). lia.
  - replace (a + 1 + Z.of_nat (S n)) with (a + 1 + Z.of_nat n + 1) by lia.
    rewrite monthStart_succ.
    pose proof (daysInMonth_bounds 0 (a + 1 + Z.of_nat n)). lia.
Qed.

Lemma monthStart_le_iff (a b : Z) : monthStart a <= monthStart b <-> a <= b.
Proof.
  split; intros H.
  - destruct (Z_lt_le_dec b a) as [L |]; [| assumption].
    apply monthStart_lt in L. lia.
  - destruct (Z.eq_dec a b) as [-> | N]; [lia |].
    assert (L : a < b) by lia. apply monthStart_lt in L. lia.
Qed.

(** The four hundred years [utcStartOfDate] borrows are whole days and keep
    the leap years in place. *)
Lemma MakeDay_400 (y m d : Z) : MakeDay (y + 400) m d = MakeDay y m d + 146097.
Proof.
  unfold MakeDay.
  replace (y + 400 + m / 12) with (y + m / 12 + 400) by lia.
  set (ym := y + m / 12).
  assert (L : isLeap (ym + 400) = isLeap ym).
  { unfold isLeap.
    replace ((ym + 400) mod 4) with (ym mod 4) by divmod.
    replace ((ym + 400) mod 100) with (ym mod 100) by divmod.
    replace ((ym + 400) mod 400) with (ym mod 400) by divmod.
    reflexivity. }
  rewrite L. unfold DayFromYear. divmod.
Qed.

Lemma utcStartOfDate_MakeDay (y m d : Z) :
  Moment.utcStartOfDate y m d = MakeDay y m d * msPerDay.
Proof.
  unfold Moment.utcStartOfDate, Date_UTC, MakeDate, Moment.MS_PER_400_YEARS.
  destruct (Z.ltb_spec y 100), (Z.leb_spec 0 y); cbn [andb].
  - destruct (Z.leb_spec 0 (y + 400)), (Z.leb_spec (y + 400) 99); cbn [andb];
      try lia.
    rewrite MakeDay_400. unfold msPerDay. lia.
  - destruct (Z.leb_spec y 99); lia.
  - destruct (Z.leb_spec y 99); lia.
  - lia.
Qed.

End CalendarFacts.

(** ** moment's operations on aligned moments *)

Module MomentFacts.
Import Calendar CalendarFacts Moment Period.

Lemma startOf_date (m : Moment.t) :
  startOf m date = mk (Day (time m) * msPerDay) (offset m).
Proof.
  unfold startOf, get. rewrite utcStartOfDate_MakeDay, MakeDay_fields.
  reflexivity.
Qed.

Lemma startOf_month (m : Moment.t) :
  startOf m month =
  mk (monthStart (12 * get m year + get m month) * msPerDay) (offset m).
Proof.
  unfold startOf. rewrite utcStartOfDate_MakeDay, MakeDay_monthStart.
  f_equal. f_equal. lia.
Qed.

Lemma MakeDay_year (y : Z) : MakeDay y 0 1 = DayFromYear y.
Proof.
  unfold MakeDay. change (0 / 12) with 0. change (0 mod 12) with 0.
  cbn [monthStartDay]. replace (y + 0) with y by lia. lia.
Qed.

Lemma startOf_year (m : Moment.t) :
  startOf m year = mk (DayFromYear (get m year) * msPerDay) (offset m).
Proof. unfold startOf. rewrite utcStartOfDate_MakeDay, MakeDay_year. reflexivity. Qed.

Lemma endOf_date (m : Moment.t) :
  endOf m date = mk ((Day (time m) + 1) * msPerDay - 1) (offset m).
Proof.
  unfold endOf, get.
  rewrite utcStartOfDate_MakeDay, MakeDay_date, MakeDay_fields. reflexivity.
Qed.

Lemma endOf_month (m : Moment.t) :
  endOf m month =
  mk (monthStart (12 * get m year + get m month + 1) * msPerDay - 1) (offset m).
Proof.
  unfold endOf. rewrite utcStartOfDate_MakeDay, MakeDay_monthStart.
  f_equal. f_equal. f_equal. replace (12 * get m year + (get m month + 1))
    with (12 * get m year + get m month + 1) by lia. lia.
Qed.

Lemma endOf_year (m : Moment.t) :
  endOf m year = mk (DayFromYear (get m year + 1) * msPerDay - 1) (offset m).
Proof. unfold endOf. rewrite utcStartOfDate_MakeDay, MakeDay_year. reflexivity. Qed.

(** The fields of the first day of a month and of a year. *)
Lemma fields_monthStart (mi : Z) :
  yearOfDay (monthStart mi) = mi / 12 /\
  monthOfDay (monthStart mi) = mi mod 12 /\
  dateOfDay (monthStart mi) = 1.
Proof.
  pose proof (daysInMonth_bounds 0 mi) as B.
  assert (R : 0 <= 0 < msPerDay) by (unfold msPerDay; lia).
  destruct (fields_MakeDay 0 mi 1 0 ltac:(lia) R) as (Y & M & D).
  fold (monthStart mi) in Y, M, D. rewrite Z.add_0_r in Y, M, D.
  unfold yearOfDay, monthOfDay, dateOfDay. rewrite Y, M, D. auto.
Qed.

Lemma fields_DayFromYear (y : Z) :
  yearOfDay (DayFromYear y) = y /\
  monthOfDay (DayFromYear y) = 0 /\
  dateOfDay (DayFromYear y) = 1.
Proof.
  rewrite <- monthStart_year.
  destruct (fields_monthStart (12 * y)) as (Y & M & D).
  rewrite Y, M, D.
  replace (12 * y / 12) with y by divmod.
  replace ((12 * y) mod 12) with 0 by divmod. auto.
Qed.

(** A day is the day of its fields. *)
Lemma day_of_fields (d : Z) :
  monthStart (12 * yearOfDay d + monthOfDay d) + dateOfDay d - 1 = d.
Proof.
  rewrite <- MakeDay_monthStart. unfold yearOfDay, monthOfDay, dateOfDay.
  rewrite MakeDay_fields. unfold Day, msPerDay. divmod.
Qed.

Lemma TimeWithinDay_range (t : Z) : 0 <= TimeWithinDay t < msPerDay.
Proof. unfold TimeWithinDay, msPerDay. apply Z.mod_pos_bound. lia. Qed.

(** [add(1, 'day')] moves a moment by one day. *)
Lemma add_day (m : Moment.t) :
  add m 1 day = mk (time m + msPerDay) (offset m).
Proof.
  unfold add, get, setUTCDate, MakeDate. cbn [Z.eqb].
  rewrite MakeDay_date, MakeDay_fields.
  f_equal. unfold Day, TimeWithinDay, msPerDay. divmod.
Qed.

(** The fields after [setMonth]: the clamped date exists in the month. *)
Lemma setMonth_fields (m : Moment.t) (value : Z) :
  let dayOfMonth := Z.min (get m date) (daysInMonth (get m year) value) in
  get (setMonth m value) year = get m year + value / 12 /\
  get (setMonth m value) month = value mod 12 /\
  get (setMonth m value) date = dayOfMonth.
Proof.
  intros dayOfMonth. unfold setMonth, setUTCMonth, MakeDate.
  cbn [get time]. fold dayOfMonth.
  apply fields_MakeDay.
  - pose proof (DateFromTime_pos (time m)).
    pose proof (daysInMonth_bounds (get m year) value).
    unfold dayOfMonth. cbn [get] in *. lia.
  - apply TimeWithinDay_range.
Qed.

(** [cursor.add(1, 'year').startOf('year')] is the first day of the next
    year, wherever the cursor stands. *)
Lemma startOf_add_year (m : Moment.t) :
  startOf (add m 1 year) year =
  mk (DayFromYear (get m year + 1) * msPerDay) (offset m).
Proof.
  rewrite startOf_year. unfold add. cbn [Z.eqb].
  destruct (setMonth_fields m (get m month + 12 * 1)) as (Y & _ & _).
  rewrite Y. pose proof (MonthFromTime_range (time m)) as R. cbn [get].
  replace ((MonthFromTime (time m) + 12 * 1) / 12) with 1 by divmod.
  reflexivity.
Qed.

(** [cursor.add(1, 'month').startOf('month')] is the first day of the next
    month, wherever the cursor stands. *)
Lemma startOf_add_month (m : Moment.t) :
  startOf (add m 1 month) month =
  mk (monthStart (12 * get m year + get m month + 1) * msPerDay) (offset m).
Proof.
  rewrite startOf_month. unfold add. cbn [Z.eqb].
  destruct (setMonth_fields m (get m month + 1)) as (Y & M & _).
  rewrite Y, M. cbn [setMonth offset]. f_equal. f_equal. f_equal. divmod.
Qed.

(** [add(1, 'month')] on the first instant of a month. *)
Lemma add_month_aligned (mi off : Z) :
  add (mk (monthStart mi * msPerDay) off) 1 month =
  mk (monthStart (mi + 1) * msPerDay) off.
Proof.
  destruct (fields_monthStart mi) as (Y & M & D).
  unfold yearOfDay, monthOfDay, dateOfDay in Y, M, D.
  unfold add, setMonth, setUTCMonth, MakeDate. cbn [Z.eqb get time offset].
  rewrite Y, M, D.
  pose proof (daysInMonth_bounds (mi / 12) (mi mod 12 + 1)).
  rewrite Z.min_l by lia. rewrite MakeDay_monthStart.
  replace (12 * (mi / 12) + (mi mod 12 + 1)) with (mi + 1) by divmod.
  f_equal. unfold TimeWithinDay, msPerDay. divmod.
Qed.

(** [add(1, 'year')] on the first instant of a year. *)
Lemma add_year_aligned (y off : Z) :
  add (mk (DayFromYear y * msPerDay) off) 1 year =
  mk (DayFromYear (y + 1) * msPerDay) off.
Proof.
  destruct (fields_DayFromYear y) as (Y & M & D).
  unfold yearOfDay, monthOfDay, dateOfDay in Y, M, D.
  unfold add, setMonth, setUTCMonth, MakeDate. cbn [Z.eqb get time offset].
  rewrite Y, M, D.
  pose proof (daysInMonth_bounds y (0 + 12 * 1)).
  rewrite Z.min_l by lia. rewrite MakeDay_monthStart.
  replace (12 * y + (0 + 12 * 1)) with (12 * (y + 1)) by lia.
  rewrite monthStart_year.
  f_equal. unfold TimeWithinDay, msPerDay. divmod.
Qed.

(** The loop test on aligned moments: the cursor on the first instant of
    day [d], [endAtDate] on the last millisecond of day [d']. *)
Lemma unix_le_aligned (d d' off : Z) :
  (unix (mk (d * msPerDay) off) <=? unix (mk ((d' + 1) * msPerDay - 1) off))
  = (d <=? d').
Proof.
  unfold unix, valueOf, msPerDay. cbn [time offset].
  destruct (Z.leb_spec d d');
    [apply Z.leb_le | apply Z.leb_gt]; divmod.
Qed.

End MomentFacts.

(** ** Strings and labels *)

Module LabelFacts.
Import Calendar CalendarFacts Format Period.

Lemma append_nil_r (s : string) : (s ++ "")%string = s.
Proof. induction s as [| c s IH]; cbn; [reflexivity | now rewrite IH]. Qed.

Lemma append_assoc (a b c : string) :
  ((a ++ b) ++ c)%string = (a ++ (b ++ c))%string.
Proof. induction a as [| x a IH]; cbn; [reflexivity | now rewrite IH]. Qed.

Lemma append_length (a b : string) :
  String.length (a ++ b) = (String.length a + String.length b)%nat.
Proof. induction a as [| x a IH]; cbn; [reflexivity | now rewrite IH]. Qed.

Lemma numeric_app (a b : string) :
  numeric (a ++ b) = numeric a && numeric b.
Proof.
  induction a as [| x a IH]; cbn; [reflexivity |].
  rewrite IH. now rewrite andb_assoc.
Qed.

Lemma numeric_zeros (k : nat) : numeric (zeros k) = true.
Proof. induction k as [| k IH]; cbn; [reflexivity | exact IH]. Qed.

Lemma numeric_string_of_uint (d : Decimal.uint) :
  numeric (NilEmpty.string_of_uint d) = true.
Proof. induction d; cbn; auto. Qed.

Lemma numeric_zeroFill (n : Z) (w : nat) : numeric (zeroFill n w) = true.
Proof.
  unfold zeroFill, decimal. rewrite !numeric_app, numeric_zeros,
    numeric_string_of_uint.
  destruct (0 <=? n); reflexivity.
Qed.

(** A numeric string holds no dot: two strings that agree up to their
    first dot agree before and after it. *)
Lemma split_at_dot (a a' r r' : string) :
  numeric a = true -> numeric a' = true ->
  (a ++ String "." r)%string = (a' ++ String "." r')%string ->
  a = a' /\ r = r'.
Proof.
  revert a'. induction a as [| c a IH]; intros [| c' a'] Ha Ha' E; cbn in *.
  - injection E as ->. auto.
  - injection E as <- _. discriminate.
  - injection E as -> _. discriminate.
  - injection E as -> E.
    apply andb_prop in Ha as [_ Ha]. apply andb_prop in Ha' as [_ Ha'].
    destruct (IH a' Ha Ha' E) as [-> ->]. auto.
Qed.

Lemma numeric_no_dot (a x r : string) :
  numeric a = true -> a <> (x ++ String "." r)%string.
Proof.
  intros Ha E. rewrite E, numeric_app in Ha.
  apply andb_prop in Ha as [_ Ha]. discriminate.
Qed.

Lemma star_no_dot (a r x : string) :
  numeric a = true -> String "*" x <> (a ++ String "." r)%string.
Proof.
  intros Ha E. destruct a as [| c a]; cbn in *.
  - discriminate.
  - injection E as <- _. discriminate.
Qed.

Lemma digitsValue_zeros (k : nat) (s : string) :
  digitsValue (zeros k ++ s) = digitsValue s.
Proof.
  induction k as [| k IH]; [reflexivity |].
  rewrite <- IH. unfold digitsValue. cbn.
  destruct (NilEmpty.uint_of_string (zeros k ++ s)); reflexivity.
Qed.

Lemma digitsValue_decimal (n : Z) : digitsValue (decimal n) = Z.to_N n.
Proof.
  unfold digitsValue, decimal. rewrite NilEmpty.usu.
  apply DecimalN.Unsigned.of_to.
Qed.

Lemma zeros_decimal_parsed (k : nat) (n : Z) :
  NilEmpty.uint_of_string (zeros k ++ decimal n) <> None.
Proof.
  induction k as [| k IH]; cbn [zeros append].
  - unfold decimal. rewrite NilEmpty.usu. discriminate.
  - cbn [NilEmpty.uint_of_string].
    destruct (NilEmpty.uint_of_string (zeros k ++ decimal n));
      [discriminate | contradiction].
Qed.

Lemma minus_not_parsed (x : string) :
  NilEmpty.uint_of_string (String "-" x) = None.
Proof. cbn. destruct (NilEmpty.uint_of_string x); reflexivity. Qed.

(** [zeroFill] loses nothing: the number can be read back. *)
Lemma zeroFill_inj (a b : Z) (w : nat) : zeroFill a w = zeroFill b w -> a = b.
Proof.
  unfold zeroFill. intros E.
  assert (V : forall n, digitsValue
              (zeros (w - String.length (decimal (Z.abs n))) ++ decimal (Z.abs n))
            = Z.to_N (Z.abs n)).
  { intros n. now rewrite digitsValue_zeros, digitsValue_decimal. }
  assert (F : forall n x, (zeros (w - String.length (decimal (Z.abs n)))
                ++ decimal (Z.abs n))%string <> String "-" x).
  { intros n x Hx. apply (zeros_decimal_parsed
      (w - String.length (decimal (Z.abs n))) (Z.abs n)).
    rewrite Hx. apply minus_not_parsed. }
  destruct (Z.leb_spec 0 a), (Z.leb_spec 0 b); cbn in E.
  - pose proof (V a) as Va. rewrite E, V in Va. lia.
  - exfalso. exact (F a _ E).
  - exfalso. symmetry in E. exact (F b _ E).
  - injection E as E. pose proof (V a) as Va. rewrite E, V in Va. lia.
Qed.

Ltac label_norm H :=
  unfold tokenLabel, unitLabel, dayLabel, monthLabel, yearLabel in H;
  rewrite ?append_assoc in H; cbn [append] in H.

Ltac label_solve :=
  repeat match goal with
  | H : (?a ++ String "." ?r)%string = (?a' ++ String "." ?r')%string |- _ =>
      apply split_at_dot in H;
      [destruct H as [? ?] | apply numeric_zeroFill | apply numeric_zeroFill]
  | H : zeroFill ?a ?w = zeroFill ?b ?w |- _ => apply zeroFill_inj in H
  | H : String "*" _ = (_ ++ String "." _)%string |- _ =>
      exfalso; revert H; apply star_no_dot, numeric_zeroFill
  | H : (_ ++ String "." _)%string = String "*" _ |- _ => symmetry in H
  | H : zeroFill _ _ = (_ ++ String "." _)%string |- _ =>
      exfalso; revert H; apply numeric_no_dot, numeric_zeroFill
  | H : (_ ++ String "." _)%string = zeroFill _ _ |- _ => symmetry in H
  | H : zeroFill ?a ?w = String "*" _ |- _ =>
      exfalso; pose proof (numeric_zeroFill a w) as N; rewrite H in N;
      discriminate N
  | H : String "*" _ = zeroFill _ _ |- _ => symmetry in H
  end.

(** A token can be read back from its label. *)
Lemma tokenLabel_inj (g : PeriodType) (t t' : Token) :
  supported g -> tokenLabel g t = tokenLabel g t' -> t = t'.
Proof.
  intros [-> | [-> | ->]] E; destruct t as [u | y | y m], t' as [u' | y' | y' m'];
    label_norm E; label_solve; subst; try reflexivity; f_equal; try lia.
  - rewrite <- (MomentFacts.day_of_fields u), <- (MomentFacts.day_of_fields u').
    replace (monthOfDay u') with (monthOfDay u) by lia.
    congruence.
  - divmod.
Qed.

Lemma format_year (c : Moment.t) :
  format c "YYYY" = yearLabel (Moment.get c Moment.year).
Proof. cbn [format]. apply append_nil_r. Qed.

Lemma format_month (c : Moment.t) :
  format c "YYYY.MM" =
  monthLabel (Moment.get c Moment.year) (Moment.get c Moment.month).
Proof. cbn [format]. now rewrite append_nil_r. Qed.

Lemma format_day (c : Moment.t) :
  format c "YYYY.MM.DD" =
  dayLabel (Moment.get c Moment.year) (Moment.get c Moment.month)
           (Moment.get c Moment.date).
Proof.
  cbn [format]. unfold dayLabel, monthLabel.
  rewrite append_nil_r, append_assoc. reflexivity.
Qed.

Lemma format_yearGroup (c : Moment.t) :
  format c "YYYY.*" = (yearLabel (Moment.get c Moment.year) ++ ".*")%string.
Proof. reflexivity. Qed.

Lemma format_monthGroup (c : Moment.t) :
  format c "YYYY.MM.*" =
  (monthLabel (Moment.get c Moment.year) (Moment.get c Moment.month) ++ ".*")%string.
Proof. cbn [format]. unfold monthLabel. now rewrite append_assoc. Qed.

(** [new Set] changes nothing in an array without repetition. *)
Lemma uniqueFrom_NoDup (l seen : list string) :
  NoDup l -> (forall x, In x l -> ~ In x seen) -> uniqueFrom seen l = l.
Proof.
  revert seen. induction l as [| x l IH]; intros seen ND Hs; [reflexivity |].
  inversion ND as [| ? ? Hx ND']; subst. cbn [uniqueFrom].
  destruct (existsb (String.eqb x) seen) eqn:Ex.
  - apply existsb_exists in Ex as (y & Hy & Exy).
    apply String.eqb_eq in Exy as <-. exfalso. apply (Hs x); [now left | exact Hy].
  - f_equal. apply IH; [exact ND' |].
    intros z Hz [<- | Hin]; [contradiction |].
    apply (Hs z); [now right | exact Hin].
Qed.

Lemma unique_NoDup (l : list string) : NoDup l -> unique l = l.
Proof. intros ND. apply uniqueFrom_NoDup; [exact ND | intros x _ []]. Qed.

End LabelFacts.

(** ** The loops of [indexesByTimeRange] *)

Module LoopFacts.
Import Calendar CalendarFacts Moment MomentFacts Format Period LabelFacts.

Lemma monthStart_diff (a b : Z) : a <= b -> b - a <= monthStart b - monthStart a.
Proof.
  intros H. replace b with (a + Z.of_nat (Z.to_nat (b - a))) by lia.
  induction (Z.to_nat (b - a)) as [| n IH].
  - rewrite Z.add_0_r. lia.
  - replace (a + Z.of_nat (S n)) with (a + Z.of_nat n + 1) by lia.
    rewrite monthStart_succ.
    pose proof (daysInMonth_bounds 0 (a + Z.of_nat n)). lia.
Qed.

Lemma unitStart_diff (g : PeriodType) (a b : Z) :
  a <= b -> b - a <= unitStart g b - unitStart g a.
Proof.
  intros H. destruct g; cbn [unitStart]; try lia.
  - apply monthStart_diff, H.
  - unfold DayFromYear. divmod.
Qed.

Lemma unitStart_le_iff (g : PeriodType) (a b : Z) :
  unitStart g a <= unitStart g b <-> a <= b.
Proof.
  split; intros H.
  - destruct (Z_lt_le_dec b a) as [L |]; [| assumption].
    pose proof (unitStart_diff g b a ltac:(lia)). lia.
  - pose proof (unitStart_diff g a b H). lia.
Qed.

(** The loop test compares unit numbers. *)
Lemma cond_aligned (g : PeriodType) (u uE : Z) :
  (unix (cursorAt g u) <=? unix (endAtOf g uE)) = (u <=? uE).
Proof.
  unfold cursorAt, endAtOf.
  replace (unitStart g (uE + 1) * msPerDay - 1)
    with ((unitStart g (uE + 1) - 1 + 1) * msPerDay - 1) by lia.
  rewrite unix_le_aligned.
  pose proof (unitStart_le_iff g (uE + 1) u) as I.
  destruct (Z.leb_spec u uE); [apply Z.leb_le | apply Z.leb_gt]; lia.
Qed.

(** The fields of a time value depend on its day only. *)
Lemma fields_of_Day (t : Z) :
  YearFromTime t = yearOfDay (Day t) /\
  MonthFromTime t = monthOfDay (Day t) /\
  DateFromTime t = dateOfDay (Day t).
Proof.
  assert (D : Day (Day t * msPerDay) = Day t) by (unfold Day, msPerDay; divmod).
  unfold yearOfDay, monthOfDay, dateOfDay, DateFromTime, MonthFromTime,
    InLeapYear, DayWithinYear, YearFromTime.
  rewrite D. auto.
Qed.

Lemma Day_start (d : Z) : Day (d * msPerDay) = d.
Proof. unfold Day, msPerDay. divmod. Qed.

(** A day lies before the first day of the month after its own. *)
Lemma day_before_next_month (d : Z) :
  d < monthStart (12 * yearOfDay d + monthOfDay d + 1).
Proof.
  pose proof (MonthFromTime_range (d * msPerDay)) as R. fold (monthOfDay d) in R.
  pose proof (YearFromDay_spec d) as Y.
  assert (E : yearOfDay d = YearFromDay d).
  { unfold yearOfDay, YearFromTime. now rewrite Day_start. }
  destruct (Z.eq_dec (monthOfDay d) 11) as [M | M].
  - rewrite M. replace (12 * yearOfDay d + 11 + 1) with (12 * (yearOfDay d + 1)) by lia.
    rewrite monthStart_year, E. lia.
  - unfold monthStart, MakeDay.
    replace (0 + (12 * yearOfDay d + monthOfDay d + 1) / 12) with (yearOfDay d)
      by divmod.
    replace ((12 * yearOfDay d + monthOfDay d + 1) mod 12) with (monthOfDay d + 1)
      by divmod.
    pose proof (monthOfYearDay_next (InLeapYear (d * msPerDay))
                  (DayWithinYear (d * msPerDay))
                  (InLeapYear_range _)) as N.
    fold (MonthFromTime (d * msPerDay)) in N. fold (monthOfDay d) in N.
    unfold InLeapYear in N. fold (yearOfDay d) in N.
    unfold DayWithinYear in N. fold (yearOfDay d) in N.
    rewrite Day_start in N. rewrite E in *. lia.
Qed.


Lemma unix_le_ends (a b off : Z) :
  (unix (mk (a * msPerDay - 1) off) <=? unix (mk (b * msPerDay - 1) off))
  = (a - 1 <=? b - 1).
Proof.
  unfold unix, valueOf, msPerDay. cbn [time offset].
  destruct (Z.leb_spec (a - 1) (b - 1));
    [apply Z.leb_le | apply Z.leb_gt]; divmod.
Qed.

Lemma fields_cursor_monthly (u : Z) :
  get (cursorAt MONTHLY u) year = u / 12 /\
  get (cursorAt MONTHLY u) month = u mod 12 /\
  get (cursorAt MONTHLY u) date = 1.
Proof.
  destruct (fields_monthStart u) as (Y & M & D).
  unfold yearOfDay, monthOfDay, dateOfDay in Y, M, D.
  unfold cursorAt. cbn [get time unitStart]. auto.
Qed.

Lemma fields_cursor_yearly (y : Z) :
  get (cursorAt YEARLY y) year = y /\
  get (cursorAt YEARLY y) month = 0 /\
  get (cursorAt YEARLY y) date = 1.
Proof.
  destruct (fields_DayFromYear y) as (Y & M & D).
  unfold yearOfDay, monthOfDay, dateOfDay in Y, M, D.
  unfold cursorAt. cbn [get time unitStart]. auto.
Qed.

Lemma add_month_cursor (u : Z) :
  add (cursorAt MONTHLY u) 1 month = cursorAt MONTHLY (u + 1).
Proof. apply add_month_aligned. Qed.

Lemma add_year_cursor (y : Z) :
  add (cursorAt YEARLY y) 1 year = cursorAt YEARLY (y + 1).
Proof. apply add_year_aligned. Qed.

(** One pass of a loop body on an aligned cursor is one [selectStep]. *)
Lemma body_aligned (g : PeriodType) (egs : bool) (uE u : Z) (acc : list string) :
  supported g ->
  bodyOf g egs (endAtOf g uE) (cursorAt g u, acc) =
  (cursorAt g (snd (selectStep g egs uE u)),
   acc ++ [tokenLabel g (fst (selectStep g egs uE u))]).
Proof.
  intros [-> | [-> | ->]]; cbn [bodyOf].
  - (* DAILY *)
    unfold dailyBody, selectStep.
    rewrite endOf_year, endOf_month, startOf_add_year, startOf_add_month,
      add_day, format_day, format_yearGroup, format_monthGroup.
    unfold endAtOf at 1 2. cbn [unitStart]. rewrite !unix_le_ends.
    change (get (cursorAt DAILY u) year) with (yearOfDay u).
    change (get (cursorAt DAILY u) month) with (monthOfDay u).
    change (get (cursorAt DAILY u) date) with (dateOfDay u).
    change (offset (cursorAt DAILY u)) with 540.
    replace (uE + 1 - 1) with uE by lia.
    destruct (egs && (monthOfDay u =? 0) && (dateOfDay u =? 1)
              && (DayFromYear (yearOfDay u + 1) - 1 <=? uE)); [reflexivity |].
    destruct (egs && (dateOfDay u =? 1)
              && (monthStart (12 * yearOfDay u + monthOfDay u + 1) - 1 <=? uE));
      [reflexivity |].
    cbn [fst snd tokenLabel unitLabel]. unfold cursorAt. cbn [unitStart time].
    f_equal. f_equal. lia.
  - (* MONTHLY *)
    unfold monthlyBody, selectStep.
    rewrite endOf_year, startOf_add_year, add_month_cursor, format_month,
      format_yearGroup.
    destruct (fields_cursor_monthly u) as (Y & M & _). rewrite Y, M.
    unfold endAtOf at 1. cbn [unitStart]. rewrite unix_le_ends.
    change (offset (cursorAt MONTHLY u)) with 540.
    destruct egs; cbn [andb]; [| reflexivity].
    destruct (Z.eqb_spec (u mod 12) 0) as [Z0 | Z0]; cbn [andb]; [| reflexivity].
    assert (E : u + 12 = 12 * (u / 12 + 1)) by divmod.
    assert (C : (DayFromYear (u / 12 + 1) - 1 <=? monthStart (uE + 1) - 1)
                = (u + 11 <=? uE)).
    { rewrite <- monthStart_year, <- E.
      pose proof (monthStart_le_iff (u + 12) (uE + 1)).
      destruct (Z.leb_spec (u + 11) uE); [apply Z.leb_le | apply Z.leb_gt]; lia. }
    rewrite C. destruct (u + 11 <=? uE); [| reflexivity].
    cbn [fst snd tokenLabel]. unfold cursorAt. cbn [unitStart].
    rewrite E, monthStart_year. reflexivity.
  - (* YEARLY *)
    unfold yearlyBody, selectStep. cbn [fst snd tokenLabel unitLabel].
    rewrite format_year. destruct (fields_cursor_yearly u) as (Y & _ & _).
    rewrite Y, add_year_cursor. reflexivity.
Qed.

(** Where a step starts and where it leads. *)
Lemma selectStep_start (g : PeriodType) (egs : bool) (uE u u' : Z) (tok : Token) :
  supported g ->
  selectStep g egs uE u = (tok, u') ->
  tokenStart g tok = u /\ u < u'.
Proof.
  intros [-> | [-> | ->]]; unfold selectStep.
  - pose proof (day_of_fields u) as F. pose proof (day_before_next_month u) as N.
    destruct (egs && (monthOfDay u =? 0) && (dateOfDay u =? 1)
              && (DayFromYear (yearOfDay u + 1) - 1 <=? uE)) eqn:C1.
    + intros E; apply pair_equal_spec in E as [<- <-]. cbn [tokenStart firstUnitOfYear].
      apply andb_prop in C1 as [C1 _]. apply andb_prop in C1 as [C1 D].
      apply andb_prop in C1 as [_ M].
      apply Z.eqb_eq in D, M. rewrite M, D in *.
      rewrite Z.add_0_r, monthStart_year in F.
      replace (12 * yearOfDay u + 0 + 1) with (12 * yearOfDay u + 1) in N by lia.
      pose proof (monthStart_diff (12 * yearOfDay u + 1) (12 * (yearOfDay u + 1))
                    ltac:(lia)) as G.
      rewrite monthStart_year in G. lia.
    + destruct (egs && (dateOfDay u =? 1)
                && (monthStart (12 * yearOfDay u + monthOfDay u + 1) - 1 <=? uE))
        eqn:C2.
      * intros E; apply pair_equal_spec in E as [<- <-]. cbn [tokenStart].
        apply andb_prop in C2 as [C2 _]. apply andb_prop in C2 as [_ D].
        apply Z.eqb_eq in D. rewrite D in *. lia.
      * intros E; apply pair_equal_spec in E as [<- <-]. cbn [tokenStart]. lia.
  - destruct (egs && (u mod 12 =? 0) && (u + 11 <=? uE)) eqn:C.
    + intros E; apply pair_equal_spec in E as [<- <-]. cbn [tokenStart firstUnitOfYear].
      apply andb_prop in C as [C _]. apply andb_prop in C as [_ M].
      apply Z.eqb_eq in M. divmod.
    + intros E; apply pair_equal_spec in E as [<- <-]. cbn [tokenStart]. lia.
  - intros E; apply pair_equal_spec in E as [<- <-]. cbn [tokenStart]. lia.
Qed.


(** Tokens come out in the order of their first units, none twice. *)
Lemma Selects_starts (g : PeriodType) (egs : bool) (uE u : Z) (toks : list Token) :
  supported g ->
  Selects g egs uE u toks ->
  Forall (fun t => u <= tokenStart g t) toks /\ NoDup toks.
Proof.
  intros Hg S. induction S as [u Hu | u u' tok toks Hu St S [IHF IHN]].
  - split; constructor.
  - destruct (selectStep_start g egs uE u u' tok Hg St) as [T L].
    split.
    + constructor; [lia |].
      eapply Forall_impl; [| exact IHF]. cbn. intros t Ht. lia.
    + constructor; [| exact IHN].
      intros Hin. rewrite Forall_forall in IHF. apply IHF in Hin. lia.
Qed.

Lemma Selects_labels_NoDup (g : PeriodType) (egs : bool) (uE u : Z)
  (toks : list Token) :
  supported g ->
  Selects g egs uE u toks ->
  NoDup (map (tokenLabel g) toks).
Proof.
  intros Hg S. apply Finite.Injective_map_NoDup.
  - intros t t' E. exact (tokenLabel_inj g t t' Hg E).
  - exact (proj2 (Selects_starts g egs uE u toks Hg S)).
Qed.

(** The loop from an aligned cursor, with passes to spare, walks by
    [selectStep] and stops on an aligned cursor. *)
Lemma while_selects (g : PeriodType) (egs : bool) (uE : Z) :
  supported g ->
  forall (fuel : nat) (u : Z) (acc : list string),
    0 < Z.of_nat fuel -> uE + 1 - u < Z.of_nat fuel ->
    exists toks u_end,
      Selects g egs uE u toks /\
      while fuel (fun st => unix (fst st) <=? unix (endAtOf g uE))
            (bodyOf g egs (endAtOf g uE)) (cursorAt g u, acc)
      = Some (cursorAt g u_end, acc ++ map (tokenLabel g) toks).
Proof.
  intros Hg fuel. induction fuel as [| fuel IH]; intros u acc Hpos Hfuel; [lia |].
  cbn [while fst]. rewrite cond_aligned.
  destruct (Z.leb_spec u uE) as [Hu | Hu].
  - rewrite body_aligned by exact Hg.
    destruct (selectStep g egs uE u) as [tok u'] eqn:St. cbn [fst snd].
    destruct (selectStep_start g egs uE u u' tok Hg St) as [_ L].
    destruct (IH u' (acc ++ [tokenLabel g tok]) ltac:(lia) ltac:(lia))
      as (toks & u_end & S & W).
    exists (tok :: toks), u_end. split.
    + econstructor; eassumption.
    + rewrite W. cbn [map]. rewrite <- app_assoc. reflexivity.
  - exists [], u. split; [constructor; exact Hu |].
    cbn [map]. rewrite app_nil_r. reflexivity.
Qed.

Lemma utcOffset_9 (s : Z) :
  utcOffset (of_unix s) 9 = mk (s * 1000 + 32400000) 540.
Proof.
  unfold utcOffset, of_unix. cbn [time offset].
  change (Z.abs 9 <? 16) with true. cbv iota. f_equal; lia.
Qed.

Lemma Day_local (s : Z) : Day (s * 1000 + 32400000) = localDay s.
Proof. unfold Day, localDay, referenceOffset, msPerDay. divmod. Qed.

(** The cursor starts on the unit of [startAt]; [endAtDate] ends the unit
    of [endAt]. *)
Lemma cursor_init (g : PeriodType) (s : Z) :
  supported g ->
  startOf (utcOffset (of_unix s) 9) (momentUnit g) = cursorAt g (unitOf g s).
Proof.
  intros Hg. rewrite utcOffset_9.
  destruct (fields_of_Day (s * 1000 + 32400000)) as (Y & M & _).
  rewrite Day_local in Y, M.
  destruct Hg as [-> | [-> | ->]]; cbn [momentUnit].
  - rewrite startOf_date. cbn [time offset]. rewrite Day_local. reflexivity.
  - rewrite startOf_month. cbn [get time offset]. rewrite Y, M. reflexivity.
  - rewrite startOf_year. cbn [get time offset]. rewrite Y. reflexivity.
Qed.

Lemma end_init (g : PeriodType) (e : Z) :
  supported g ->
  endOf (utcOffset (of_unix e) 9) (momentUnit g) = endAtOf g (unitOf g e).
Proof.
  intros Hg. rewrite utcOffset_9.
  destruct (fields_of_Day (e * 1000 + 32400000)) as (Y & M & _).
  rewrite Day_local in Y, M.
  destruct Hg as [-> | [-> | ->]]; cbn [momentUnit].
  - rewrite endOf_date. cbn [time offset]. rewrite Day_local. reflexivity.
  - rewrite endOf_month. cbn [get time offset]. rewrite Y, M. reflexivity.
  - rewrite endOf_year. cbn [get time offset]. rewrite Y. reflexivity.
Qed.

(** The passes granted to a loop are enough. *)
Lemma loopBound_enough (g : PeriodType) (uS uE : Z) :
  0 < Z.of_nat (loopBound (cursorAt g uS) (endAtOf g uE)) /\
  uE + 1 - uS < Z.of_nat (loopBound (cursorAt g uS) (endAtOf g uE)).
Proof.
  unfold loopBound, cursorAt, endAtOf. cbn [time].
  rewrite Day_start.
  replace (Day (unitStart g (uE + 1) * msPerDay - 1))
    with (unitStart g (uE + 1) - 1) by (unfold Day, msPerDay; divmod).
  split; [lia |].
  destruct (Z_lt_le_dec (uE + 1) uS) as [L | L]; [lia |].
  pose proof (unitStart_diff g uS (uE + 1) L). lia.
Qed.

(** What [indexesByTimeRange] returns on a valid range: the labels of the
    tokens that [selectStep] emits from the unit of [startAt] to the unit of
    [endAt]. *)
Lemma indexesByTimeRange_selects (prefix : string) (s e : Z) (g : PeriodType)
  (egs : bool) :
  s <= e -> supported g ->
  exists toks,
    Selects g egs (unitOf g e) (unitOf g s) toks /\
    indexesByTimeRange prefix s e g egs =
    Return (map (fun t => (prefix ++ tokenLabel g t)%string) toks).
Proof.
  intros Hse Hg.
  pose proof (cursor_init g s Hg) as Cs. pose proof (end_init g e Hg) as Ce.
  destruct (loopBound_enough g (unitOf g s) (unitOf g e)) as [F1 F2].
  destruct (while_selects g egs (unitOf g e) Hg _ (unitOf g s) [] F1 F2)
    as (toks & u_end & S & W).
  exists toks. split; [exact S |].
  pose proof (Selects_labels_NoDup g egs _ _ toks Hg S) as ND.
  unfold indexesByTimeRange.
  destruct (Z.ltb_spec e s) as [L | _]; [lia |].
  destruct Hg as [-> | [-> | ->]]; cbn [momentUnit bodyOf] in *;
    rewrite Cs, Ce; unfold runLoop; rewrite W; cbn [app];
    rewrite unique_NoDup by exact ND; rewrite map_map; reflexivity.
Qed.


(** *** Lists of consecutive units *)

Lemma unitsBetween_nil (a b : Z) : b < a -> unitsBetween a b = [].
Proof.
  intros H. unfold unitsBetween.
  replace (Z.to_nat (b - a + 1)) with 0%nat by lia. reflexivity.
Qed.

Lemma unitsBetween_cons (a b : Z) :
  a <= b -> unitsBetween a b = a :: unitsBetween (a + 1) b.
Proof.
  intros H. unfold unitsBetween.
  replace (Z.to_nat (b - a + 1)) with (S (Z.to_nat (b - (a + 1) + 1))) by lia.
  cbn [seq map]. f_equal; [lia |].
  rewrite <- seq_shift, map_map. apply map_ext. intros i. lia.
Qed.

Lemma unitsBetween_app (a m b : Z) :
  a <= m <= b + 1 ->
  unitsBetween a (m - 1) ++ unitsBetween m b = unitsBetween a b.
Proof.
  intros H. remember (Z.to_nat (m - a)) as n eqn:Hn.
  revert a H Hn. induction n as [| n IH]; intros a H Hn.
  - assert (a = m) by lia. subst a.
    rewrite unitsBetween_nil by lia. reflexivity.
  - rewrite (unitsBetween_cons a (m - 1)), (unitsBetween_cons a b) by lia.
    cbn [app]. f_equal. apply IH; lia.
Qed.

Lemma unitsBetween_length (a b : Z) :
  a <= b + 1 -> Z.of_nat (List.length (unitsBetween a b)) = b - a + 1.
Proof.
  intros H. unfold unitsBetween. rewrite length_map, length_seq. lia.
Qed.

Lemma unitsBetween_In (a b u : Z) : In u (unitsBetween a b) <-> a <= u <= b.
Proof.
  unfold unitsBetween. rewrite in_map_iff. split.
  - intros (i & <- & Hi). apply in_seq in Hi. lia.
  - intros H. exists (Z.to_nat (u - a)). split; [lia |]. apply in_seq. lia.
Qed.

(** *** Without group selection *)

Lemma Selects_plain (g : PeriodType) (uE u : Z) (toks : list Token) :
  Selects g false uE u toks -> toks = map Concrete (unitsBetween u uE).
Proof.
  intros S. induction S as [u Hu | u u' tok toks Hu St S IH].
  - rewrite unitsBetween_nil by exact Hu. reflexivity.
  - assert (E : selectStep g false uE u = (Concrete u, u + 1))
      by (destruct g; reflexivity).
    rewrite E in St. apply pair_equal_spec in St as [<- <-].
    rewrite unitsBetween_cons by exact Hu. cbn [map]. now rewrite IH.
Qed.

(** *** Units grow with time *)

Lemma yearOfDay_spec (d : Z) :
  DayFromYear (yearOfDay d) <= d < DayFromYear (yearOfDay d + 1).
Proof.
  unfold yearOfDay, YearFromTime. rewrite Day_start. apply YearFromDay_spec.
Qed.

Lemma monthStart_le_day (d : Z) :
  monthStart (12 * yearOfDay d + monthOfDay d) <= d.
Proof.
  pose proof (day_of_fields d). pose proof (DateFromTime_pos (d * msPerDay)).
  unfold dateOfDay in *. lia.
Qed.

Lemma unitOf_mono (g : PeriodType) (s e : Z) :
  s <= e -> unitOf g s <= unitOf g e.
Proof.
  intros H.
  assert (L : localDay s <= localDay e)
    by (unfold localDay, referenceOffset; divmod).
  destruct g; cbn [unitOf]; try lia.
  - pose proof (monthStart_le_day (localDay s)).
    pose proof (day_before_next_month (localDay e)).
    set (a := 12 * yearOfDay (localDay s) + monthOfDay (localDay s)) in *.
    set (b := 12 * yearOfDay (localDay e) + monthOfDay (localDay e)) in *.
    destruct (Z_lt_le_dec b a) as [C |]; [| assumption].
    pose proof (proj2 (monthStart_le_iff (b + 1) a) ltac:(lia)). lia.
  - pose proof (yearOfDay_spec (localDay s)).
    pose proof (yearOfDay_spec (localDay e)).
    assert (yearOfDay (localDay s) < yearOfDay (localDay e) + 1)
      by (apply DayFromYear_lt_inv; lia).
    lia.
Qed.

(** *** With group selection *)

(** A token stands for the units from its step to the next one, and a step
    never leads past the unit after [uE]. *)
Lemma selectStep_expand (g : PeriodType) (egs : bool) (uE u u' : Z) (tok : Token) :
  supported g -> u <= uE ->
  selectStep g egs uE u = (tok, u') ->
  expand g tok = unitsBetween u (u' - 1) /\ u' <= uE + 1.
Proof.
  intros Hg Hu St.
  destruct (selectStep_start g egs uE u u' tok Hg St) as [T L].
  destruct Hg as [-> | [-> | ->]]; unfold selectStep in St.
  - destruct (egs && (monthOfDay u =? 0) && (dateOfDay u =? 1)
              && (DayFromYear (yearOfDay u + 1) - 1 <=? uE)) eqn:C1.
    + apply pair_equal_spec in St as [<- <-].
      apply andb_prop in C1 as [_ C1]. apply Z.leb_le in C1.
      cbn [expand tokenStart firstUnitOfYear] in *. rewrite T. split; [reflexivity | lia].
    + destruct (egs && (dateOfDay u =? 1)
                && (monthStart (12 * yearOfDay u + monthOfDay u + 1) - 1 <=? uE))
        eqn:C2.
      * apply pair_equal_spec in St as [<- <-].
        apply andb_prop in C2 as [_ C2]. apply Z.leb_le in C2.
        cbn [expand tokenStart] in *. rewrite T. split; [reflexivity | lia].
      * apply pair_equal_spec in St as [<- <-]. cbn [expand].
        replace (u + 1 - 1) with u by lia.
        rewrite unitsBetween_cons, unitsBetween_nil by lia. split; [reflexivity | lia].
  - destruct (egs && (u mod 12 =? 0) && (u + 11 <=? uE)) eqn:C.
    + apply pair_equal_spec in St as [<- <-].
      apply andb_prop in C as [C1 C2]. apply andb_prop in C1 as [_ M].
      apply Z.eqb_eq in M. apply Z.leb_le in C2.
      cbn [expand tokenStart firstUnitOfYear] in *. rewrite T.
      split; [f_equal; divmod | lia].
    + apply pair_equal_spec in St as [<- <-]. cbn [expand].
      replace (u + 1 - 1) with u by lia.
      rewrite unitsBetween_cons, unitsBetween_nil by lia. split; [reflexivity | lia].
  - apply pair_equal_spec in St as [<- <-]. cbn [expand].
    replace (u + 1 - 1) with u by lia.
    rewrite unitsBetween_cons, unitsBetween_nil by lia. split; [reflexivity | lia].
Qed.

Lemma Selects_expand (g : PeriodType) (egs : bool) (uE u : Z) (toks : list Token) :
  supported g ->
  Selects g egs uE u toks ->
  flat_map (expand g) toks = unitsBetween u uE.
Proof.
  intros Hg S. induction S as [u Hu | u u' tok toks Hu St S IH].
  - rewrite unitsBetween_nil by exact Hu. reflexivity.
  - destruct (selectStep_expand g egs uE u u' tok Hg Hu St) as [E B].
    destruct (selectStep_start g egs uE u u' tok Hg St) as [_ L].
    cbn [flat_map]. rewrite E, IH. apply unitsBetween_app. lia.
Qed.

End LoopFacts.

(** ** Entity identity *)

Module IdentityFacts.
Import Identity LabelFacts.

Lemma substring_prefix (a b : string) :
  String.substring 0 (String.length a) (a ++ b) = a.
Proof.
  induction a as [| c a IH]; cbn.
  - destruct b; reflexivity.
  - now rewrite IH.
Qed.

(** Cutting the length of the delimiter off the end removes a trailing
    delimiter. *)
Lemma substr_strip (a d : string) :
  substr (a ++ d) 0 (strlen (a ++ d) - strlen d) = a.
Proof.
  unfold substr, strlen. rewrite append_length.
  replace (Z.to_nat (Z.of_nat (String.length a + String.length d)
                     - Z.of_nat (String.length d)))
    with (String.length a) by lia.
  apply substring_prefix.
Qed.

Lemma substr_empty (d : string) : substr "" 0 (strlen "" - strlen d) = "".
Proof.
  unfold substr, strlen. cbn [String.length].
  destruct (Z.to_nat (Z.of_nat 0 - Z.of_nat (String.length d))); reflexivity.
Qed.

(** The loop of [entityId] appends, for every item, its value and the
    delimiter. *)
Lemma fold_left_segments {A : Type} (f : A -> string) (d : string) (l : list A)
  (acc : string) :
  fold_left (fun acc item => (acc ++ (f item ++ d))%string) l acc =
  (acc ++ fold_right (fun item r => ((f item ++ d) ++ r)%string) "" l)%string.
Proof.
  revert acc. induction l as [| x l IH]; intros acc; cbn [fold_left fold_right].
  - now rewrite append_nil_r.
  - rewrite IH, append_assoc. reflexivity.
Qed.

Lemma segments_concat {A : Type} (f : A -> string) (d : string) (x : A)
  (l : list A) :
  fold_right (fun item r => ((f item ++ d) ++ r)%string) "" (x :: l) =
  (String.concat d (map f (x :: l)) ++ d)%string.
Proof.
  revert x. induction l as [| y l IH]; intros x.
  - cbn. now rewrite append_nil_r.
  - cbn [fold_right] in *. rewrite IH. cbn [map String.concat].
    destruct (map f l); now rewrite !append_assoc.
Qed.

Section WithLocale.
Variable localeCompare : string -> string -> Z.

Local Abbreviation sortItems := (sortItems localeCompare).
Local Abbreviation compareItems := (compareItems localeCompare).
Local Abbreviation itemLe := (itemLe localeCompare).
Local Abbreviation entityId := (entityId localeCompare).

(** [entityId] joins the values of the sorted id fields. *)
Lemma entityId_concat (entries : list (string * EntityIdOptions))
  (entity : Entity) (delimiter : string) :
  entityId (Some entries) entity delimiter =
  Some (String.concat delimiter
          (map (fun item => toString (entity (prop item)))
               (sortItems (entityIdList entries)))).
Proof.
  unfold Identity.entityId. f_equal. rewrite fold_left_segments. cbn [append].
  destruct (sortItems (entityIdList entries)) as [| x l].
  - cbn [fold_right map String.concat]. apply substr_empty.
  - rewrite segments_concat. apply substr_strip.
Qed.

Lemma insertItem_perm (x : IdItem) (l : list IdItem) :
  Permutation (insertItem localeCompare x l) (x :: l).
Proof.
  induction l as [| y l IH]; cbn [insertItem]; [reflexivity |].
  destruct (compareItems x y <=? 0); [reflexivity |].
  rewrite IH. apply perm_swap.
Qed.

Lemma sortItems_perm (l : list IdItem) : Permutation (sortItems l) l.
Proof.
  induction l as [| x l IH]; cbn [Identity.sortItems]; [reflexivity |].
  rewrite insertItem_perm. now constructor.
Qed.

Lemma sortItems_length (l : list IdItem) :
  List.length (sortItems l) = List.length l.
Proof. apply Permutation_length, sortItems_perm. Qed.

Lemma entityIdList_length (entries : list (string * EntityIdOptions)) :
  List.length (entityIdList entries) = List.length entries.
Proof. apply length_map. Qed.

Lemma compareItems_le (a b : IdItem) : compareItems a b <= 0 -> itemLe a b.
Proof.
  unfold Identity.compareItems, Identity.itemLe.
  destruct (Z.eqb_spec (item_seq a - item_seq b) 0); intros H; [right | left]; lia.
Qed.

Section Sorted.
(** What the sort needs of [localeCompare]: of two names one is not after
    the other. *)
Hypothesis localeCompare_flip :
  forall a b, 0 < localeCompare a b -> localeCompare b a <= 0.

Lemma compareItems_gt (a b : IdItem) : 0 < compareItems a b -> itemLe b a.
Proof.
  unfold Identity.compareItems, Identity.itemLe.
  destruct (Z.eqb_spec (item_seq a - item_seq b) 0); intros H; [right | left]; [| lia].
  split; [lia |]. now apply localeCompare_flip.
Qed.

Lemma insertItem_sorted (x : IdItem) (l : list IdItem) :
  Sorted itemLe l -> Sorted itemLe (insertItem localeCompare x l).
Proof.
  induction l as [| y l IH]; intros S; cbn [insertItem].
  - repeat constructor.
  - destruct (Z.leb_spec (compareItems x y) 0) as [L | G].
    + constructor; [exact S |]. constructor. now apply compareItems_le.
    + inversion S as [| ? ? S' Hd]; subst.
      constructor; [now apply IH |].
      destruct l as [| z l]; cbn [insertItem].
      * constructor. now apply compareItems_gt.
      * destruct (compareItems x z <=? 0).
        -- constructor. now apply compareItems_gt.
        -- inversion Hd; subst. now constructor.
Qed.

Lemma sortItems_sorted (l : list IdItem) : Sorted itemLe (sortItems l).
Proof.
  induction l as [| x l IH]; cbn [Identity.sortItems]; [constructor |].
  now apply insertItem_sorted.
Qed.

(** With a transitive [localeCompare] every item is before all the later
    ones. *)
Hypothesis localeCompare_trans :
  forall a b c,
    localeCompare a b <= 0 -> localeCompare b c <= 0 -> localeCompare a c <= 0.

Lemma itemLe_trans : Transitive itemLe.
Proof.
  intros a b c [L1 | [E1 L1]] [L2 | [E2 L2]]; unfold Identity.itemLe;
    try (left; lia).
  right. split; [lia |]. eapply localeCompare_trans; eassumption.
Qed.

Lemma sortItems_strongly_sorted (l : list IdItem) :
  StronglySorted itemLe (sortItems l).
Proof.
  apply Sorted_StronglySorted; [exact itemLe_trans | apply sortItems_sorted].
Qed.

End Sorted.
End WithLocale.

Lemma ordinalCompare_flip (a b : string) :
  0 < ordinalCompare a b -> ordinalCompare b a <= 0.
Proof.
  unfold ordinalCompare. rewrite (String.compare_antisym b a).
  destruct (String.compare a b); cbn; lia.
Qed.

Lemma ordinalCompare_le (a b : string) :
  ordinalCompare a b <= 0 <-> String_as_OT.lt a b \/ a = b.
Proof.
  unfold ordinalCompare.
  pose proof (String_as_OT.cmp_lt a b) as L.
  pose proof (String_as_OT.cmp_eq a b) as E.
  unfold String_as_OT.cmp in L, E.
  destruct (String.compare a b); split; intros H; try lia.
  - right. now apply E.
  - left. now apply L.
  - destruct H as [H | H]; [apply L in H | apply E in H]; discriminate.
Qed.

Lemma ordinalCompare_trans (a b c : string) :
  ordinalCompare a b <= 0 -> ordinalCompare b c <= 0 -> ordinalCompare a c <= 0.
Proof.
  rewrite !ordinalCompare_le. intros [L1 | ->] [L2 | ->]; auto.
  left. eapply String_as_OT.lt_trans; eassumption.
Qed.

End IdentityFacts.

(** ** Index selection: the statements of the specification *)

Module SelectionFacts.
Import Calendar CalendarFacts Moment MomentFacts Format Period LabelFacts LoopFacts.

Lemma append_inj_l (p a b : string) : (p ++ a)%string = (p ++ b)%string -> a = b.
Proof.
  induction p as [| c p IH]; cbn; intros E; [exact E |].
  injection E as E. now apply IH.
Qed.

Lemma unitsBetween_NoDup (a b : Z) : NoDup (unitsBetween a b).
Proof.
  unfold unitsBetween. apply Finite.Injective_map_NoDup.
  - intros i j E. lia.
  - apply seq_NoDup.
Qed.

Lemma unitLabel_inj (g : PeriodType) (u u' : Z) :
  supported g -> unitLabel g u = unitLabel g u' -> u = u'.
Proof.
  intros Hg E.
  assert (T : Concrete u = Concrete u') by (apply (tokenLabel_inj g); assumption).
  now injection T.
Qed.

Lemma names_NoDup (prefix : string) (g : PeriodType) (a b : Z) :
  supported g ->
  NoDup (map (fun u => (prefix ++ unitLabel g u)%string) (unitsBetween a b)).
Proof.
  intros Hg. apply Finite.Injective_map_NoDup; [| apply unitsBetween_NoDup].
  intros u u' E. apply append_inj_l in E. exact (unitLabel_inj g u u' Hg E).
Qed.

(** What is returned without group selection. *)
Lemma indexesByTimeRange_plain (prefix : string) (s e : Z) (g : PeriodType) :
  s <= e -> supported g ->
  indexesByTimeRange prefix s e g false =
  Return (map (fun u => (prefix ++ unitLabel g u)%string)
              (unitsBetween (unitOf g s) (unitOf g e))).
Proof.
  intros Hse Hg.
  destruct (indexesByTimeRange_selects prefix s e g false Hse Hg) as (toks & S & R).
  rewrite R, (Selects_plain g _ _ toks S), map_map. reflexivity.
Qed.

(** Without group selection there is one name for each unit. *)
Lemma plain_count (prefix : string) (s e : Z) (g : PeriodType) :
  s <= e -> supported g ->
  exists names,
    indexesByTimeRange prefix s e g false = Return names /\
    Z.of_nat (List.length names) = unitOf g e - unitOf g s + 1.
Proof.
  intros Hse Hg. eexists. split.
  - apply indexesByTimeRange_plain; assumption.
  - rewrite length_map. apply unitsBetween_length.
    pose proof (unitOf_mono g s e Hse). lia.
Qed.

(** No label is a bare star. *)
Lemma tokenLabel_not_star (g : PeriodType) (t : Token) :
  supported g -> tokenLabel g t <> "*".
Proof.
  intros [-> | [-> | ->]] E; destruct t as [u | y | y m];
    symmetry in E; label_norm E; label_solve.
Qed.

(** When a group token is emitted. *)
Lemma selectStep_group_iff (g : PeriodType) (uE u : Z) :
  supported g ->
  isGroup (fst (selectStep g true uE u)) = true <-> groupDue g uE u.
Proof.
  intros [-> | [-> | ->]]; unfold selectStep, groupDue; cbn [andb].
  - destruct (Z.eqb_spec (monthOfDay u) 0), (Z.eqb_spec (dateOfDay u) 1),
      (Z.leb_spec (DayFromYear (yearOfDay u + 1) - 1) uE),
      (Z.leb_spec (monthStart (12 * yearOfDay u + monthOfDay u + 1) - 1) uE);
      cbn [andb fst isGroup]; split; intros Hyp; try discriminate; try reflexivity;
      try tauto; lia.
  - destruct (Z.eqb_spec (u mod 12) 0), (Z.leb_spec (u + 11) uE);
      cbn [andb fst isGroup]; split; intros Hyp; try discriminate; try reflexivity;
      lia.
  - cbn [fst isGroup]. split; [discriminate | contradiction].
Qed.

(** Monthly indices know no month groups, yearly indices no groups. *)
Lemma Selects_monthly (egs : bool) (uE u : Z) (toks : list Token) :
  Selects MONTHLY egs uE u toks ->
  Forall (fun t => forall y m, t <> MonthGroup y m) toks.
Proof.
  intros S. induction S as [u Hu | u u' tok toks Hu St S IH]; constructor;
    [| exact IH].
  unfold selectStep in St.
  destruct (egs && (u mod 12 =? 0) && (u + 11 <=? uE));
    apply pair_equal_spec in St as [<- _]; discriminate.
Qed.

Lemma Selects_yearly (egs : bool) (uE u : Z) (toks : list Token) :
  Selects YEARLY egs uE u toks ->
  Forall (fun t => isGroup t = false) toks.
Proof.
  intros S. induction S as [u Hu | u u' tok toks Hu St S IH]; constructor;
    [| exact IH].
  unfold selectStep in St. apply pair_equal_spec in St as [<- _]. reflexivity.
Qed.

Lemma flat_map_labels (prefix : string) (g : PeriodType) (toks : list Token) :
  flat_map (expandLabels prefix g) toks =
  map (fun u => (prefix ++ unitLabel g u)%string) (flat_map (expand g) toks).
Proof.
  induction toks as [| t toks IH]; cbn [flat_map]; [reflexivity |].
  now rewrite map_app, IH.
Qed.

(** A month is the days from its first day to the day before the first day
    of the next month. *)
Lemma monthIndex_unique (a d : Z) :
  monthStart a <= d < monthStart (a + 1) ->
  12 * yearOfDay d + monthOfDay d = a.
Proof.
  intros [A B].
  pose proof (monthStart_le_day d) as L. pose proof (day_before_next_month d) as N.
  set (mi := 12 * yearOfDay d + monthOfDay d) in *.
  assert (a < mi + 1).
  { destruct (Z_lt_le_dec a (mi + 1)) as [| C]; [assumption |].
    apply monthStart_le_iff in C. lia. }
  assert (mi < a + 1).
  { destruct (Z_lt_le_dec mi (a + 1)) as [| C]; [assumption |].
    apply monthStart_le_iff in C. lia. }
  lia.
Qed.

Lemma yearOfDay_unique (y d : Z) :
  DayFromYear y <= d < DayFromYear (y + 1) -> yearOfDay d = y.
Proof.
  intros H. unfold yearOfDay, YearFromTime. rewrite Day_start.
  now apply YearFromDay_unique.
Qed.

(** The units are intervals of days that follow each other: an instant
    lies in unit [u] exactly when its day is between the first day of [u]
    and the first day of [u + 1]. *)
Lemma unitOf_interval (g : PeriodType) (ts u : Z) :
  supported g ->
  unitOf g ts = u <-> unitStart g u <= localDay ts < unitStart g (u + 1).
Proof.
  intros [-> | [-> | ->]]; cbn [unitOf unitStart].
  - lia.
  - split.
    + intros <-. split;
        [apply monthStart_le_day | apply day_before_next_month].
    + apply monthIndex_unique.
  - split.
    + intros <-. apply yearOfDay_spec.
    + apply yearOfDay_unique.
Qed.

(** The units a group stands for are the units of its period. *)
Lemma expand_year (g : PeriodType) (y u : Z) :
  supported g ->
  In u (expand g (YearGroup y)) <-> yearOfUnit g u = y.
Proof.
  intros [-> | [-> | ->]]; cbn [expand firstUnitOfYear yearOfUnit];
    rewrite unitsBetween_In.
  - pose proof (yearOfDay_spec u) as Y. split; intros H.
    + apply yearOfDay_unique. lia.
    + subst y. lia.
  - split; intros H; divmod.
  - lia.
Qed.

Lemma expand_month (y m u : Z) :
  0 <= m <= 11 ->
  In u (expand DAILY (MonthGroup y m)) <-> yearOfDay u = y /\ monthOfDay u = m.
Proof.
  intros Hm. cbn [expand]. rewrite unitsBetween_In.
  pose proof (MonthFromTime_range (u * msPerDay)) as R. fold (monthOfDay u) in R.
  split.
  - intros H.
    assert (I : 12 * yearOfDay u + monthOfDay u = 12 * y + m)
      by (apply monthIndex_unique; lia).
    lia.
  - intros [<- <-]. split;
      [apply monthStart_le_day | pose proof (day_before_next_month u); lia].
Qed.

End SelectionFacts.

(** ** The range of [Date] *)

Module RangeFacts.
Import Calendar CalendarFacts Moment MomentFacts Period LoopFacts SelectionFacts.

Lemma TimeClip_Some (t : Z) : - maxTime <= t <= maxTime -> TimeClip t = Some t.
Proof.
  intros H. unfold TimeClip.
  destruct (Z.leb_spec (Z.abs t) maxTime); [reflexivity | lia].
Qed.

Lemma time_of_day (t : Z) : Day t * msPerDay <= t < (Day t + 1) * msPerDay.
Proof. unfold Day, msPerDay. divmod. Qed.

Lemma DaysInYear_le (y : Z) : DaysInYear y <= 366.
Proof. unfold DaysInYear. destruct (isLeap y); lia. Qed.

Lemma month_of_day (d : Z) :
  let mi := 12 * yearOfDay d + monthOfDay d in
  monthStart mi <= d < monthStart (mi + 1) /\ monthStart (mi + 1) <= monthStart mi + 31.
Proof.
  intros mi. pose proof (monthStart_le_day d). pose proof (day_before_next_month d).
  pose proof (monthStart_succ mi) as S. pose proof (daysInMonth_bounds 0 mi).
  fold mi in H, H0. lia.
Qed.

Lemma monthStart_upper (a : Z) (k : nat) :
  monthStart (a + Z.of_nat k) <= monthStart a + 31 * Z.of_nat k.
Proof.
  induction k as [| k IH].
  - replace (a + Z.of_nat 0) with a by lia. lia.
  - replace (a + Z.of_nat (S k)) with (a + Z.of_nat k + 1) by lia.
    rewrite monthStart_succ.
    pose proof (daysInMonth_bounds 0 (a + Z.of_nat k)). lia.
Qed.

(** [startOf] goes back less than a year, [endOf] on less than a year. *)
Lemma startOf_near (m : Moment.t) (u : unitOfTime) :
  time m - 366 * msPerDay <= time (startOf m u) <= time m.
Proof.
  pose proof (time_of_day (time m)) as T.
  destruct (fields_of_Day (time m)) as (Y & M & _).
  set (d := Day (time m)) in *.
  assert (D : time (startOf m u) = time (startOf m year) \/
              time (startOf m u) = time (startOf m month) \/
              time (startOf m u) = time (startOf m date))
    by (destruct u; auto).
  pose proof (yearOfDay_spec d) as Ys.
  pose proof (DayFromYear_succ (yearOfDay d)) as Yn.
  pose proof (DaysInYear_le (yearOfDay d)).
  pose proof (month_of_day d) as Ms. cbv zeta in Ms.
  rewrite startOf_year, startOf_month, startOf_date in D. cbn [time get] in D.
  rewrite Y, M in D. fold d in D.
  unfold msPerDay in *. lia.
Qed.

Lemma endOf_near (m : Moment.t) (u : unitOfTime) :
  time m <= time (endOf m u) <= time m + 366 * msPerDay.
Proof.
  pose proof (time_of_day (time m)) as T.
  destruct (fields_of_Day (time m)) as (Y & M & _).
  set (d := Day (time m)) in *.
  assert (D : time (endOf m u) = time (endOf m year) \/
              time (endOf m u) = time (endOf m month) \/
              time (endOf m u) = time (endOf m date))
    by (destruct u; auto).
  pose proof (yearOfDay_spec d) as Ys.
  pose proof (DayFromYear_succ (yearOfDay d)) as Yn.
  pose proof (DaysInYear_le (yearOfDay d)).
  pose proof (month_of_day d) as Ms. cbv zeta in Ms.
  rewrite endOf_year, endOf_month, endOf_date in D. cbn [time get] in D.
  rewrite Y, M in D. fold d in D.
  unfold msPerDay in *. lia.
Qed.

(** [setMonth] by [k] months on, [k] from 1 to 12. *)
Lemma setMonth_near (m : Moment.t) (k : nat) :
  (1 <= k <= 12)%nat ->
  time m - 31 * msPerDay <=
  time (setMonth m (get m month + Z.of_nat k)) <=
  time m + 403 * msPerDay.
Proof.
  intros Hk.
  pose proof (time_of_day (time m)) as T.
  destruct (fields_of_Day (time m)) as (Y & M & Dt).
  pose proof (TimeWithinDay_range (time m)) as W.
  assert (TW : time m = Day (time m) * msPerDay + TimeWithinDay (time m))
    by (unfold Day, TimeWithinDay, msPerDay; divmod).
  set (d := Day (time m)) in *.
  pose proof (month_of_day d) as Ms. cbv zeta in Ms.
  pose proof (day_of_fields d) as Df.
  pose proof (DateFromTime_pos (time m)) as Dp.
  unfold setMonth, setUTCMonth, MakeDate. cbn [time get].
  rewrite MakeDay_monthStart, Y, M, Dt in *.
  set (mi := 12 * yearOfDay d + monthOfDay d) in *.
  replace (12 * yearOfDay d + (monthOfDay d + Z.of_nat k)) with (mi + Z.of_nat k)
    by (unfold mi; lia).
  pose proof (monthStart_upper mi k) as U.
  pose proof (proj2 (monthStart_le_iff mi (mi + Z.of_nat k)) ltac:(lia)) as L.
  pose proof (daysInMonth_bounds (yearOfDay d) (monthOfDay d + Z.of_nat k)) as B.
  set (dim := daysInMonth _ _) in *.
  unfold msPerDay in *. lia.
Qed.

(** [add(1, unit)] ends less than 403 days on. *)
Lemma add_near (m : Moment.t) (u : unitOfTime) :
  time m - 31 * msPerDay <= time (add m 1 u) <= time m + 403 * msPerDay.
Proof.
  destruct u.
  - unfold add. cbn [Z.eqb]. exact (setMonth_near m 12 ltac:(lia)).
  - unfold add. cbn [Z.eqb]. exact (setMonth_near m 1 ltac:(lia)).
  - change (add m 1 date) with (add m 1 day). rewrite add_day. cbn [time].
    unfold msPerDay. lia.
  - rewrite add_day. cbn [time]. unfold msPerDay. lia.
Qed.

(** The two moments of a run, as created and as moved to +09:00. *)
Lemma local_time (ts : Z) :
  time (of_unix ts) = ts * 1000 /\
  time (utcOffset (of_unix ts) 9) = ts * 1000 + 32400000.
Proof. rewrite utcOffset_9. split; reflexivity. Qed.

(** On timestamps of [inDateRange] no [Date] of a run is invalid: the two
    moments as they are created, moved to +09:00 and aligned and, with the
    cursor on a unit [u] from the unit of [startAt] to the unit of [endAt]
    (the states in which the loops run their body), every moment that the
    tests for a group and the three ways to move the cursor compute. *)
Lemma run_in_range (g : PeriodType) (startAt endAt u : Z) :
  supported g -> inDateRange startAt -> inDateRange endAt ->
  unitOf g startAt <= u <= unitOf g endAt ->
  let cursor := cursorAt g u in
  Forall (fun m => TimeClip (time m) = Some (time m))
    [of_unix startAt; utcOffset (of_unix startAt) 9;
     startOf (utcOffset (of_unix startAt) 9) (momentUnit g);
     of_unix endAt; utcOffset (of_unix endAt) 9;
     endOf (utcOffset (of_unix endAt) 9) (momentUnit g);
     cursor; endOf cursor year; endOf cursor month;
     add cursor 1 year; startOf (add cursor 1 year) year;
     add cursor 1 month; startOf (add cursor 1 month) month;
     add cursor 1 day].
Proof.
  intros Hg Hs He Hu cursor.
  destruct (local_time startAt) as (S0 & S1).
  destruct (local_time endAt) as (E0 & E1).
  pose proof (startOf_near (utcOffset (of_unix startAt) 9) (momentUnit g)) as S2.
  pose proof (endOf_near (utcOffset (of_unix endAt) 9) (momentUnit g)) as E2.
  assert (C : time (startOf (utcOffset (of_unix startAt) 9) (momentUnit g))
              <= time cursor <=
              time (endOf (utcOffset (of_unix endAt) 9) (momentUnit g)) + 1).
  { rewrite (cursor_init g startAt Hg), (end_init g endAt Hg).
    unfold cursor, cursorAt, endAtOf. cbn [time].
    pose proof (proj2 (unitStart_le_iff g (unitOf g startAt) u) ltac:(lia)).
    pose proof (proj2 (unitStart_le_iff g u (unitOf g endAt + 1)) ltac:(lia)).
    unfold msPerDay. lia. }
  pose proof (endOf_near cursor year). pose proof (endOf_near cursor month).
  pose proof (add_near cursor year). pose proof (add_near cursor month).
  pose proof (add_near cursor day).
  pose proof (startOf_near (add cursor 1 year) year).
  pose proof (startOf_near (add cursor 1 month) month).
  unfold inDateRange, maxTime, msPerDay in *.
  repeat constructor; apply TimeClip_Some; unfold maxTime; lia.
Qed.

End RangeFacts.

(** * The claims *)

Import Period.

(** C1. On a valid range of timestamps that [Date] holds ([inDateRange])
    and a supported granularity, without group selection,
    [indexesByTimeRange] returns the canonical labels (in +09:00) of the
    consecutive units from the unit of [startAt] to the unit of [endAt], in
    order and without repetition; a range inside one unit gives one name.
    The units are intervals of days that follow one another without gap or
    overlap. *)
Theorem C1_plain_buckets (prefix : string) (startAt endAt : Z) (g : PeriodType) :
  startAt <= endAt -> inDateRange startAt -> inDateRange endAt -> supported g ->
  let names := map (fun u => (prefix ++ unitLabel g u)%string)
                   (unitsBetween (unitOf g startAt) (unitOf g endAt)) in
  unitOf g startAt <= unitOf g endAt /\
  indexesByTimeRange prefix startAt endAt g false = Return names /\
  NoDup names /\
  (unitOf g startAt = unitOf g endAt ->
   indexesByTimeRange prefix startAt endAt g false =
   Return [(prefix ++ unitLabel g (unitOf g startAt))%string]) /\
  (forall ts u,
     unitOf g ts = u <-> unitStart g u <= localDay ts < unitStart g (u + 1)).
Proof.
  intros Hse _ _ Hg names.
  pose proof (SelectionFacts.indexesByTimeRange_plain prefix startAt endAt g Hse Hg)
    as R.
  split; [apply LoopFacts.unitOf_mono, Hse |].
  split; [exact R |].
  split; [apply SelectionFacts.names_NoDup, Hg |].
  split.
  - intros E. rewrite R, <- E.
    rewrite LoopFacts.unitsBetween_cons, LoopFacts.unitsBetween_nil by lia.
    reflexivity.
  - intros ts u. apply SelectionFacts.unitOf_interval, Hg.
Qed.

Lemma C1_plain_buckets_witness :
  let names := map (fun u => ("test_" ++ unitLabel DAILY u)%string)
                   (unitsBetween (unitOf DAILY 1561161600) (unitOf DAILY 1561301999)) in
  unitOf DAILY 1561161600 <= unitOf DAILY 1561301999 /\
  indexesByTimeRange "test_" 1561161600 1561301999 DAILY false = Return names /\
  NoDup names /\
  (unitOf DAILY 1561161600 = unitOf DAILY 1561301999 ->
   indexesByTimeRange "test_" 1561161600 1561301999 DAILY false =
   Return [("test_" ++ unitLabel DAILY (unitOf DAILY 1561161600))%string]) /\
  (forall ts u,
     unitOf DAILY ts = u <->
     unitStart DAILY u <= localDay ts < unitStart DAILY (u + 1)).
Proof.
  apply (C1_plain_buckets "test_" 1561161600 1561301999 DAILY).
  - lia.
  - unfold inDateRange, Calendar.maxTime, Calendar.msPerDay. lia.
  - unfold inDateRange, Calendar.maxTime, Calendar.msPerDay. lia.
  - left. reflexivity.
Defined.

(** C2, as the code has it.  [indexesByTimeRange] knows no threshold: on a
    valid range and a supported granularity, without group selection it
    returns one name for each unit from the unit of [startAt] to the unit
    of [endAt], however many they are, when the timestamps are of those
    that [Date] holds ([inDateRange]); and with or without group selection
    no name it returns is the wildcard [prefix + "*"]. *)
Theorem C2_no_threshold (prefix : string) (startAt endAt : Z) (g : PeriodType) :
  startAt <= endAt -> supported g ->
  (inDateRange startAt -> inDateRange endAt ->
   exists names,
     indexesByTimeRange prefix startAt endAt g false = Return names /\
     Z.of_nat (List.length names) = unitOf g endAt - unitOf g startAt + 1) /\
  (forall enableGroupSelect names,
     indexesByTimeRange prefix startAt endAt g enableGroupSelect = Return names ->
     ~ In (prefix ++ "*")%string names).
Proof.
  intros Hse Hg. split.
  - intros _ _. apply SelectionFacts.plain_count; assumption.
  - intros egs names R.
    destruct (LoopFacts.indexesByTimeRange_selects prefix startAt endAt g egs Hse Hg)
      as (toks & _ & R').
    rewrite R' in R. injection R as <-.
    rewrite in_map_iff. intros (t & E & _).
    apply SelectionFacts.append_inj_l in E.
    exact (SelectionFacts.tokenLabel_not_star g t Hg E).
Qed.

Lemma C2_no_threshold_witness :
  (exists names,
     indexesByTimeRange "test_" 1583766000 1736434800 DAILY false = Return names /\
     Z.of_nat (List.length names) =
     unitOf DAILY 1736434800 - unitOf DAILY 1583766000 + 1) /\
  (forall enableGroupSelect names,
     indexesByTimeRange "test_" 1583766000 1736434800 DAILY enableGroupSelect
     = Return names ->
     ~ In ("test_" ++ "*")%string names).
Proof.
  destruct (C2_no_threshold "test_" 1583766000 1736434800 DAILY) as [Count Names].
  - lia.
  - left. reflexivity.
  - split; [| exact Names].
    apply Count; unfold inDateRange, Calendar.maxTime, Calendar.msPerDay; lia.
Defined.

(** C2, as stated, fails: the five years of days of the repository's test
    are 1768 names, more than 100, and they are returned, not the
    wildcard. *)
Lemma C2_counterexample :
  exists names,
    indexesByTimeRange "test_" 1583766000 1736434800 DAILY false = Return names /\
    (100 < List.length names)%nat /\
    names <> ["test_*"].
Proof.
  destruct (SelectionFacts.plain_count "test_" 1583766000 1736434800 DAILY)
    as (names & R & L); [lia | left; reflexivity |].
  exists names. split; [exact R |].
  assert (N : Z.of_nat (List.length names) = 1768).
  { rewrite L. vm_compute. reflexivity. }
  split; [lia |].
  intros ->. cbn in N. lia.
Qed.

(** C3. Group selection changes the names, not the units they stand for:
    on a valid range and a supported granularity, putting for every token
    returned with group selection the names of the units it stands for (a
    year group: the units of that year; a month group: the days of that
    month; a unit: itself) gives the names returned without group
    selection. *)
Theorem C3_groups_cover_same_units (prefix : string) (startAt endAt : Z)
  (g : PeriodType) :
  startAt <= endAt -> supported g ->
  (forall y u, In u (expand g (YearGroup y)) <-> yearOfUnit g u = y) /\
  (forall y m u, 0 <= m <= 11 ->
     In u (expand DAILY (MonthGroup y m)) <-> yearOfDay u = y /\ monthOfDay u = m) /\
  exists toks,
    indexesByTimeRange prefix startAt endAt g true =
    Return (map (fun t => (prefix ++ tokenLabel g t)%string) toks) /\
    indexesByTimeRange prefix startAt endAt g false =
    Return (flat_map (expandLabels prefix g) toks).
Proof.
  intros Hse Hg.
  split; [intros y u; apply SelectionFacts.expand_year, Hg |].
  split; [intros y m u; apply SelectionFacts.expand_month |].
  destruct (LoopFacts.indexesByTimeRange_selects prefix startAt endAt g true Hse Hg)
    as (toks & S & R).
  exists toks. split; [exact R |].
  rewrite SelectionFacts.flat_map_labels,
    (LoopFacts.Selects_expand g true _ _ toks Hg S).
  apply SelectionFacts.indexesByTimeRange_plain; assumption.
Qed.

Lemma C3_groups_cover_same_units_witness :
  (forall y u, In u (expand DAILY (YearGroup y)) <-> yearOfUnit DAILY u = y) /\
  (forall y m u, 0 <= m <= 11 ->
     In u (expand DAILY (MonthGroup y m)) <-> yearOfDay u = y /\ monthOfDay u = m) /\
  exists toks,
    indexesByTimeRange "test_" 1546300800 1578009599 DAILY true =
    Return (map (fun t => ("test_" ++ tokenLabel DAILY t)%string) toks) /\
    indexesByTimeRange "test_" 1546300800 1578009599 DAILY false =
    Return (flat_map (expandLabels "test_" DAILY) toks).
Proof.
  apply (C3_groups_cover_same_units "test_" 1546300800 1578009599 DAILY).
  - lia.
  - left. reflexivity.
Defined.

(** C4. With group selection, on a valid range of timestamps that [Date]
    holds ([inDateRange]): a pass of the loop with
    the cursor on unit [u] is one [selectStep], which emits a group token
    exactly when the cursor is on the first sub-unit of a coarser period
    (January 1 or the first of a month for days, January for months) whose
    last unit is not after the unit of [endAt], and then moves the cursor to
    the first unit after that period; the names returned are the labels of
    the tokens of this walk.  Monthly indices get no month group, yearly
    indices no group. *)
Theorem C4_group_rule (prefix : string) (startAt endAt : Z) (g : PeriodType) :
  startAt <= endAt -> inDateRange startAt -> inDateRange endAt -> supported g ->
  (forall uE u suffexes,
     bodyOf g true (endAtOf g uE) (cursorAt g u, suffexes) =
     (cursorAt g (snd (selectStep g true uE u)),
      suffexes ++ [tokenLabel g (fst (selectStep g true uE u))])) /\
  (forall uE u,
     isGroup (fst (selectStep g true uE u)) = true <-> groupDue g uE u) /\
  (forall uE u, u <= uE ->
     expand g (fst (selectStep g true uE u)) =
     unitsBetween u (snd (selectStep g true uE u) - 1)) /\
  exists toks,
    Selects g true (unitOf g endAt) (unitOf g startAt) toks /\
    indexesByTimeRange prefix startAt endAt g true =
    Return (map (fun t => (prefix ++ tokenLabel g t)%string) toks) /\
    (g = MONTHLY -> Forall (fun t => forall y m, t <> MonthGroup y m) toks) /\
    (g = YEARLY -> Forall (fun t => isGroup t = false) toks).
Proof.
  intros Hse _ _ Hg. split; [| split; [| split]].
  - intros uE u suffexes. apply LoopFacts.body_aligned, Hg.
  - intros uE u. apply SelectionFacts.selectStep_group_iff, Hg.
  - intros uE u Hu.
    destruct (selectStep g true uE u) as [tok u'] eqn:St.
    exact (proj1 (LoopFacts.selectStep_expand g true uE u u' tok Hg Hu St)).
  - destruct (LoopFacts.indexesByTimeRange_selects prefix startAt endAt g true Hse Hg)
      as (toks & S & R).
    exists toks. repeat split; try assumption.
    + intros ->. exact (SelectionFacts.Selects_monthly _ _ _ _ S).
    + intros ->. exact (SelectionFacts.Selects_yearly _ _ _ _ S).
Qed.

Lemma C4_group_rule_witness :
  (forall uE u suffexes,
     bodyOf MONTHLY true (endAtOf MONTHLY uE) (cursorAt MONTHLY u, suffexes) =
     (cursorAt MONTHLY (snd (selectStep MONTHLY true uE u)),
      suffexes ++ [tokenLabel MONTHLY (fst (selectStep MONTHLY true uE u))])) /\
  (forall uE u,
     isGroup (fst (selectStep MONTHLY true uE u)) = true <-> groupDue MONTHLY uE u) /\
  (forall uE u, u <= uE ->
     expand MONTHLY (fst (selectStep MONTHLY true uE u)) =
     unitsBetween u (snd (selectStep MONTHLY true uE u) - 1)) /\
  exists toks,
    Selects MONTHLY true (unitOf MONTHLY 1623488400) (unitOf MONTHLY 1561161600) toks /\
    indexesByTimeRange "test_" 1561161600 1623488400 MONTHLY true =
    Return (map (fun t => ("test_" ++ tokenLabel MONTHLY t)%string) toks) /\
    (MONTHLY = MONTHLY -> Forall (fun t => forall y m, t <> MonthGroup y m) toks) /\
    (MONTHLY = YEARLY -> Forall (fun t => isGroup t = false) toks).
Proof.
  apply (C4_group_rule "test_" 1561161600 1623488400 MONTHLY).
  - lia.
  - unfold inDateRange, Calendar.maxTime, Calendar.msPerDay. lia.
  - unfold inDateRange, Calendar.maxTime, Calendar.msPerDay. lia.
  - right. left. reflexivity.
Defined.

(** C7. When [endAt] is before [startAt], [indexesByTimeRange] throws
    [InvalidTimeRangeError], whatever the granularity, supported or not:
    the range is tested first. *)
Theorem C7_invalid_range (prefix : string) (startAt endAt : Z) (g : PeriodType)
  (enableGroupSelect : bool) :
  endAt < startAt ->
  indexesByTimeRange prefix startAt endAt g enableGroupSelect =
  Throw InvalidTimeRangeError.
Proof.
  intros H. unfold indexesByTimeRange.
  destruct (Z.ltb_spec endAt startAt); [reflexivity | lia].
Qed.

Lemma C7_invalid_range_witness :
  indexesByTimeRange "test_" 1561301999 1561161600 (OtherPeriod "1h") true =
  Throw InvalidTimeRangeError.
Proof.
  apply (C7_invalid_range "test_" 1561301999 1561161600 (OtherPeriod "1h") true).
  lia.
Defined.

(** C8. On a valid range, a granularity that is none of DAILY, MONTHLY and
    YEARLY makes [indexesByTimeRange] throw the [RangeError] of an undefined
    period type (the specification's UnsupportedGranularityError); for the
    three granularities the call returns its names and throws nothing. *)
Theorem C8_unsupported_granularity (prefix : string) (startAt endAt : Z)
  (g : PeriodType) (enableGroupSelect : bool) :
  startAt <= endAt ->
  (~ supported g ->
   indexesByTimeRange prefix startAt endAt g enableGroupSelect =
   Throw (RangeError g)) /\
  (supported g ->
   exists names,
     indexesByTimeRange prefix startAt endAt g enableGroupSelect = Return names).
Proof.
  intros Hse. split.
  - intros Hn. unfold indexesByTimeRange.
    destruct (Z.ltb_spec endAt startAt); [lia |].
    destruct g; try reflexivity; exfalso; apply Hn; unfold supported; auto.
  - intros Hg.
    destruct (LoopFacts.indexesByTimeRange_selects prefix startAt endAt g
                enableGroupSelect Hse Hg) as (toks & _ & R).
    eexists. exact R.
Qed.

Lemma C8_unsupported_granularity_witness :
  (~ supported (OtherPeriod "1h") ->
   indexesByTimeRange "test_" 1561161600 1561301999 (OtherPeriod "1h") true =
   Throw (RangeError (OtherPeriod "1h"))) /\
  (supported (OtherPeriod "1h") ->
   exists names,
     indexesByTimeRange "test_" 1561161600 1561301999 (OtherPeriod "1h") true
     = Return names).
Proof.
  apply (C8_unsupported_granularity "test_" 1561161600 1561301999
           (OtherPeriod "1h") true).
  lia.
Defined.

Import Identity.

(** C5, as the code has it.  [entityId] joins one segment for every id
    field, and the segment of an absent value is the text ["undefined"] or
    ["null"] that string concatenation makes of it.  When every id value is
    [undefined], the result is a string all the same: the word
    ["undefined"], once for each id field, joined by the delimiter. *)
Theorem C5_absent_segments (localeCompare : string -> string -> Z)
  (entries : list (string * EntityIdOptions)) (entity : Entity)
  (delimiter : string) :
  exists sorted,
    Permutation sorted (entityIdList entries) /\
    entityId localeCompare (Some entries) entity delimiter =
    Some (String.concat delimiter
            (map (fun item => toString (entity (prop item))) sorted)) /\
    (forall item, In item sorted -> entity (prop item) = undefined ->
       toString (entity (prop item)) = "undefined") /\
    (forall item, In item sorted -> entity (prop item) = null ->
       toString (entity (prop item)) = "null") /\
    ((forall e, In e entries -> entity (fst e) = undefined) ->
     entityId localeCompare (Some entries) entity delimiter =
     Some (String.concat delimiter (repeat "undefined" (List.length entries)))).
Proof.
  exists (sortItems localeCompare (entityIdList entries)).
  split; [apply IdentityFacts.sortItems_perm |].
  split; [apply IdentityFacts.entityId_concat |].
  split; [intros item _ E; rewrite E; reflexivity |].
  split; [intros item _ E; rewrite E; reflexivity |].
  intros Habs. rewrite IdentityFacts.entityId_concat. do 2 f_equal.
  rewrite <- (IdentityFacts.entityIdList_length entries),
    <- (IdentityFacts.sortItems_length localeCompare), <- map_const.
  apply map_ext_in. intros item Hi.
  apply (Permutation_in _ (IdentityFacts.sortItems_perm localeCompare _)) in Hi.
  apply in_map_iff in Hi as (e & <- & He). cbn [prop].
  now rewrite (Habs e He).
Qed.

Lemma C5_absent_segments_witness :
  exists sorted,
    Permutation sorted
      (entityIdList [("a", {| seq := None |}); ("b", {| seq := None |});
                     ("c", {| seq := None |})]) /\
    entityId ordinalCompare
      (Some [("a", {| seq := None |}); ("b", {| seq := None |});
             ("c", {| seq := None |})])
      (fun _ => undefined) "-" =
    Some (String.concat "-"
            (map (fun _ => toString undefined) sorted)) /\
    (forall item, In item sorted -> undefined = undefined ->
       toString undefined = "undefined") /\
    (forall item, In item sorted -> undefined = null ->
       toString undefined = "null") /\
    ((forall e, In e [("a", {| seq := None |}); ("b", {| seq := None |});
                      ("c", {| seq := None |})] ->
        undefined = undefined) ->
     entityId ordinalCompare
       (Some [("a", {| seq := None |}); ("b", {| seq := None |});
              ("c", {| seq := None |})])
       (fun _ => undefined) "-" =
     Some (String.concat "-" (repeat "undefined" 3))).
Proof.
  exact (C5_absent_segments ordinalCompare
           [("a", {| seq := None |}); ("b", {| seq := None |});
            ("c", {| seq := None |})]
           (fun _ => undefined) "-").
Defined.

(** C5, as stated, fails: three absent id values joined by ["-"] give
    ["undefined-undefined-undefined"], not the bare delimiters ["--"]. *)
Lemma C5_counterexample :
  entityId ordinalCompare
    (Some [("a", {| seq := None |}); ("b", {| seq := None |});
           ("c", {| seq := None |})])
    (fun _ => undefined) "-" = Some "undefined-undefined-undefined" /\
  entityId ordinalCompare
    (Some [("a", {| seq := None |}); ("b", {| seq := None |});
           ("c", {| seq := None |})])
    (fun _ => undefined) "-" <> Some "--".
Proof. split; [reflexivity | discriminate]. Qed.

(** C6. [entityId] orders the id fields by [seq] and, for equal [seq], by
    property name (every item is before all the later ones), joins their
    values in that order with the delimiter (["-"] unless given) and leaves
    no delimiter at the end; the id fields a (seq 1) and b (seq 0) with the
    values ["a"] and ["b"] give ["b-a"].  The order of names is the one of
    [localeCompare], taken to be a total preorder. *)
Theorem C6_sorted_join (localeCompare : string -> string -> Z)
  (entries : list (string * EntityIdOptions)) (entity : Entity)
  (delimiter : string) :
  (forall a b, 0 < localeCompare a b -> localeCompare b a <= 0) ->
  (forall a b c,
     localeCompare a b <= 0 -> localeCompare b c <= 0 -> localeCompare a c <= 0) ->
  (exists sorted,
     Permutation sorted (entityIdList entries) /\
     StronglySorted (itemLe localeCompare) sorted /\
     entityId localeCompare (Some entries) entity delimiter =
     Some (String.concat delimiter
             (map (fun item => toString (entity (prop item))) sorted))) /\
  entityId localeCompare
    (Some [("a", {| seq := Some 1 |}); ("b", {| seq := Some 0 |})])
    (fun p => if String.eqb p "a" then JsString "a"
              else if String.eqb p "b" then JsString "b" else undefined)
    "-" = Some "b-a".
Proof.
  intros Hflip Htrans. split; [| reflexivity].
  exists (sortItems localeCompare (entityIdList entries)).
  split; [apply IdentityFacts.sortItems_perm | split].
  - apply IdentityFacts.sortItems_strongly_sorted; assumption.
  - apply IdentityFacts.entityId_concat.
Qed.

Lemma C6_sorted_join_witness :
  (exists sorted,
     Permutation sorted
       (entityIdList [("aEntityId", {| seq := None |});
                      ("bEntityId", {| seq := None |})]) /\
     StronglySorted (itemLe ordinalCompare) sorted /\
     entityId ordinalCompare
       (Some [("aEntityId", {| seq := None |}); ("bEntityId", {| seq := None |})])
       (fun p => JsString p) "-" =
     Some (String.concat "-"
             (map (fun item => toString (JsString (prop item))) sorted))) /\
  entityId ordinalCompare
    (Some [("a", {| seq := Some 1 |}); ("b", {| seq := Some 0 |})])
    (fun p => if String.eqb p "a" then JsString "a"
              else if String.eqb p "b" then JsString "b" else undefined)
    "-" = Some "b-a".
Proof.
  apply (C6_sorted_join ordinalCompare
           [("aEntityId", {| seq := None |}); ("bEntityId", {| seq := None |})]
           (fun p => JsString p) "-").
  - exact IdentityFacts.ordinalCompare_flip.
  - exact IdentityFacts.ordinalCompare_trans.
Defined.

(** C9, as the code has it.  [entityId] returns [undefined] exactly when
    [getEntityIdProps] gives no [Map]; for a [Map] it returns a string, and
    for a [Map] without entry the empty string.  No error is raised: the
    result is a string or [undefined]. *)
Theorem C9_absent_iff_no_metadata (localeCompare : string -> string -> Z)
  (props : EntityIdProps) (entity : Entity) (delimiter : string) :
  (entityId localeCompare props entity delimiter = None <-> props = None) /\
  (idFields props = [] <-> props = None \/ props = Some []) /\
  entityId localeCompare (Some []) entity delimiter = Some "".
Proof.
  split; [| split].
  - destruct props as [entries |].
    + rewrite IdentityFacts.entityId_concat. split; discriminate.
    + split; reflexivity.
  - destruct props as [[| e entries] |]; cbn [idFields].
    + split; auto.
    + split; [discriminate | intros [H | H]; discriminate].
    + split; auto.
  - rewrite IdentityFacts.entityId_concat. reflexivity.
Qed.

(** C9, as stated, fails: a [Map] without entry declares no id field, and
    [entityId] returns the empty string for it, not [undefined]. *)
Lemma C9_counterexample :
  idFields (Some []) = [] /\
  entityId ordinalCompare (Some []) (fun _ => JsString "noneIdEntity") "-" = Some "" /\
  entityId ordinalCompare (Some []) (fun _ => JsString "noneIdEntity") "-" <> None.
Proof. split; [reflexivity | split; [reflexivity | discriminate]]. Qed.

(** C10. [createEntity] throws the error 'entityId decorator requried'
    exactly when the composed id is falsy, [undefined] or the empty string;
    a single id field with the empty string as its value is such a case.
    [indexEntity] throws nothing and hands the id on, absent or not. *)
Theorem C10_create_requires_id (localeCompare : string -> string -> Z)
  (props : EntityIdProps) (routingIdProp : option string) (entity : Entity)
  (index : string) :
  (createEntity localeCompare props routingIdProp entity index =
   Throw (PlainError "entityId decorator requried")
   <-> entityId localeCompare props entity "-" = None \/
       entityId localeCompare props entity "-" = Some "") /\
  createEntity localeCompare (Some [("testEntityId", {| seq := None |})])
    routingIdProp (fun _ => JsString "") index =
  Throw (PlainError "entityId decorator requried") /\
  exists params,
    indexEntity localeCompare props routingIdProp entity index = Return params /\
    id params = entityId localeCompare props entity "-".
Proof.
  split; [| split].
  - unfold createEntity.
    destruct (entityId localeCompare props entity "-") as [[| c s] |].
    + split; auto.
    + split; [discriminate | intros [H | H]; discriminate].
    + split; auto.
  - reflexivity.
  - eexists. split; reflexivity.
Qed.

(** * The tests of the repository, run on the embedding *)

Module Tests.

Example daily_same_day :
  indexSelectorByTimeRange "test_" 1561161600 1561161600 DAILY
  = Return "test_2019.06.22".
Proof. vm_compute. reflexivity. Qed.

Example daily_two_days :
  indexesByTimeRange "test_" 1561161600 1561301999 DAILY true
  = Return ["test_2019.06.22"; "test_2019.06.23"].
Proof. vm_compute. reflexivity. Qed.

Example daily_one_month :
  indexSelectorByTimeRange "test_" 1559347200 1562025599 DAILY
  = Return "test_2019.06.*,test_2019.07.01,test_2019.07.02".
Proof. vm_compute. reflexivity. Qed.

Example daily_one_year :
  indexSelectorByTimeRange "test_" 1546300800 1578009599 DAILY
  = Return "test_2019.*,test_2020.01.01,test_2020.01.02,test_2020.01.03".
Proof. vm_compute. reflexivity. Qed.

Example daily_five_years_plain :
  match indexesByTimeRange "test_" 1583766000 1736434800 DAILY false with
  | Return names => List.length names = 1768%nat
  | _ => False
  end.
Proof. vm_compute. reflexivity. Qed.

Example monthly_one_month :
  indexSelectorByTimeRange "test_" 1561161600 1561301999 MONTHLY
  = Return "test_2019.06".
Proof. vm_compute. reflexivity. Qed.

Example monthly_to_year_end :
  indexSelectorByTimeRange "test_" 1561161600 1640919600 MONTHLY
  = Return "test_2019.06,test_2019.07,test_2019.08,test_2019.09,test_2019.10,test_2019.11,test_2019.12,test_2020.*,test_2021.*".
Proof. vm_compute. reflexivity. Qed.

Example yearly_ten_years :
  indexSelectorByTimeRange "test_" 1561161600 1876780800 YEARLY
  = Return "test_2019,test_2020,test_2021,test_2022,test_2023,test_2024,test_2025,test_2026,test_2027,test_2028,test_2029".
Proof. vm_compute. reflexivity. Qed.

Example multi_prop_id :
  entityId ordinalCompare
    (Some [("aEntityId", {| seq := None |}); ("bEntityId", {| seq := None |})])
    (fun p => if String.eqb p "aEntityId" then JsString "a"
              else if String.eqb p "bEntityId" then JsString "b" else undefined)
    "-" = Some "a-b".
Proof. reflexivity. Qed.

Example ordered_multi_prop_id :
  entityId ordinalCompare
    (Some [("aEntityId", {| seq := Some 1 |}); ("bEntityId", {| seq := Some 0 |})])
    (fun p => if String.eqb p "aEntityId" then JsString "a"
              else if String.eqb p "bEntityId" then JsString "b" else undefined)
    "-" = Some "b-a".
Proof. reflexivity. Qed.

End Tests.

(** * Further properties *)

(** ** Further properties of the index selection *)

Module SelectionMore.
Import Calendar CalendarFacts Moment MomentFacts Format Period LabelFacts
  LoopFacts SelectionFacts Naming.

(** Every token stands for one unit at least. *)
Lemma Selects_count (g : PeriodType) (egs : bool) (uE u : Z) (toks : list Token) :
  supported g ->
  Selects g egs uE u toks ->
  (List.length toks <= List.length (flat_map (expand g) toks))%nat.
Proof.
  intros Hg S. induction S as [u Hu | u u' tok toks Hu St S IH]; [reflexivity |].
  destruct (selectStep_expand g egs uE u u' tok Hg Hu St) as [E _].
  destruct (selectStep_start g egs uE u u' tok Hg St) as [_ L].
  cbn [flat_map List.length]. rewrite length_app, E.
  pose proof (unitsBetween_length u (u' - 1) ltac:(lia)). lia.
Qed.

Lemma Selects_nonempty (g : PeriodType) (egs : bool) (uE u : Z) (toks : list Token) :
  u <= uE -> Selects g egs uE u toks -> toks <> [].
Proof. intros Hu S. inversion S; subst; [lia | discriminate]. Qed.

(** On a range of one unit there is no room for a group. *)
Lemma selectStep_single (g : PeriodType) (egs : bool) (u : Z) :
  supported g -> selectStep g egs u u = (Concrete u, u + 1).
Proof.
  intros Hg. destruct (selectStep g egs u u) as [tok u'] eqn:St.
  destruct (selectStep_expand g egs u u u' tok Hg ltac:(lia) St) as [_ B].
  destruct (selectStep_start g egs u u u' tok Hg St) as [T L].
  destruct Hg as [-> | [-> | ->]]; unfold selectStep in St.
  - destruct (egs && (monthOfDay u =? 0) && (dateOfDay u =? 1)
              && (DayFromYear (yearOfDay u + 1) - 1 <=? u)).
    + apply pair_equal_spec in St as [<- <-]. cbn [tokenStart firstUnitOfYear] in T.
      rewrite DayFromYear_succ in B. unfold DaysInYear in B.
      destruct (isLeap (yearOfDay u)); lia.
    + destruct (egs && (dateOfDay u =? 1)
                && (monthStart (12 * yearOfDay u + monthOfDay u + 1) - 1 <=? u)).
      * apply pair_equal_spec in St as [<- <-]. cbn [tokenStart] in T.
        rewrite monthStart_succ in B.
        pose proof (daysInMonth_bounds 0 (12 * yearOfDay u + monthOfDay u)). lia.
      * now symmetry.
  - destruct (egs && (u mod 12 =? 0) && (u + 11 <=? u)).
    + apply pair_equal_spec in St as [<- <-]. lia.
    + now symmetry.
  - now symmetry.
Qed.

Lemma Selects_single (g : PeriodType) (egs : bool) (u : Z) (toks : list Token) :
  supported g -> Selects g egs u u toks -> toks = [Concrete u].
Proof.
  intros Hg S. inversion S as [| ? u' tok toks' Hu St S']; subst; [lia |].
  rewrite (selectStep_single g egs u Hg) in St.
  apply pair_equal_spec in St as [<- <-].
  inversion S'; subst; [reflexivity | lia].
Qed.

Lemma unitOf_unitOfDay (g : PeriodType) (ts : Z) :
  unitOf g ts = unitOfDay g (localDay ts).
Proof. destruct g; reflexivity. Qed.

(** The name [periodIndexName] gives: the label of the unit of the host's
    date. *)
Lemma periodIndexName_label (LocalTZA : Z -> Z) (prefix : string) (ts : Z)
  (g : PeriodType) :
  supported g ->
  periodIndexName LocalTZA prefix ts g =
  Return (prefix ++ unitLabel g (unitOfDay g (hostDay LocalTZA ts)))%string.
Proof.
  intros Hg. unfold periodIndexName, hostDay, local.
  destruct (fields_of_Day (LocalTime LocalTZA (ts * 1000))) as (Y & M & D).
  set (d := Day (LocalTime LocalTZA (ts * 1000))) in *.
  destruct Hg as [-> | [-> | ->]]; cbn [unitOfDay unitLabel].
  - rewrite format_day. cbn [get time]. now rewrite Y, M, D.
  - rewrite format_month. cbn [get time]. rewrite Y, M.
    pose proof (MonthFromTime_range (d * msPerDay)) as R. fold (monthOfDay d) in R.
    replace ((12 * yearOfDay d + monthOfDay d) / 12) with (yearOfDay d) by divmod.
    replace ((12 * yearOfDay d + monthOfDay d) mod 12) with (monthOfDay d) by divmod.
    reflexivity.
  - rewrite format_year. cbn [get time]. now rewrite Y.
Qed.

(** What is selected for a single instant. *)
Lemma indexesByTimeRange_instant (prefix : string) (ts : Z) (g : PeriodType)
  (egs : bool) :
  supported g ->
  indexesByTimeRange prefix ts ts g egs =
  Return [(prefix ++ unitLabel g (unitOf g ts))%string].
Proof.
  intros Hg.
  destruct (indexesByTimeRange_selects prefix ts ts g egs ltac:(lia) Hg)
    as (toks & S & R).
  rewrite R, (Selects_single g egs _ toks Hg S). reflexivity.
Qed.

End SelectionMore.

Import Period Naming.

(** X1. With group selection, on a valid range of timestamps that [Date]
    holds and a supported granularity, the names returned are pairwise
    distinct, there is one at least, and there are never more of them than
    without group selection. *)
Theorem X1_grouped_count (prefix : string) (startAt endAt : Z) (g : PeriodType) :
  startAt <= endAt -> inDateRange startAt -> inDateRange endAt -> supported g ->
  exists grouped plain,
    indexesByTimeRange prefix startAt endAt g true = Return grouped /\
    indexesByTimeRange prefix startAt endAt g false = Return plain /\
    NoDup grouped /\
    (1 <= List.length grouped <= List.length plain)%nat.
Proof.
  intros Hse _ _ Hg.
  destruct (LoopFacts.indexesByTimeRange_selects prefix startAt endAt g true Hse Hg)
    as (toks & S & R).
  pose proof (SelectionFacts.indexesByTimeRange_plain prefix startAt endAt g Hse Hg)
    as P.
  eexists. eexists. split; [exact R |]. split; [exact P |]. split.
  - apply Finite.Injective_map_NoDup.
    + intros t t' E. apply SelectionFacts.append_inj_l in E.
      exact (LabelFacts.tokenLabel_inj g t t' Hg E).
    + exact (proj2 (LoopFacts.Selects_starts g true _ _ toks Hg S)).
  - rewrite !length_map.
    rewrite <- (LoopFacts.Selects_expand g true _ _ toks Hg S).
    split; [| exact (SelectionMore.Selects_count g true _ _ toks Hg S)].
    pose proof (SelectionMore.Selects_nonempty g true _ _ toks
                  (LoopFacts.unitOf_mono g _ _ Hse) S).
    destruct toks; [contradiction | cbn; lia].
Qed.

Lemma X1_grouped_count_witness :
  exists grouped plain,
    indexesByTimeRange "test_" 1559347200 1562025599 DAILY true = Return grouped /\
    indexesByTimeRange "test_" 1559347200 1562025599 DAILY false = Return plain /\
    NoDup grouped /\
    (1 <= List.length grouped <= List.length plain)%nat.
Proof.
  apply (X1_grouped_count "test_" 1559347200 1562025599 DAILY).
  - lia.
  - unfold inDateRange, Calendar.maxTime, Calendar.msPerDay. lia.
  - unfold inDateRange, Calendar.maxTime, Calendar.msPerDay. lia.
  - left. reflexivity.
Defined.

(** X2. For a timestamp that [Date] holds, [periodIndexName] names, for the
    three period types, the index of the unit that holds the instant in the
    host's calendar, and throws [RangeError] for any other period type.  Its
    name is the one name that
    [indexesByTimeRange] and [indexSelectorByTimeRange] select for that
    instant exactly when the host's date lies in the same unit as the date
    at +09:00; on a host at +09:00 it always is. *)
Theorem X2_periodIndexName_selected (LocalTZA : Z -> Z) (prefix : string)
  (timestamp : Z) (g : PeriodType) (enableGroupSelect : bool) :
  inDateRange timestamp -> supported g ->
  (forall other,
     periodIndexName LocalTZA prefix timestamp (OtherPeriod other) =
     Throw (RangeError (OtherPeriod other))) /\
  exists name,
    periodIndexName LocalTZA prefix timestamp g = Return name /\
    name = (prefix ++ unitLabel g (unitOfDay g (hostDay LocalTZA timestamp)))%string /\
    (indexesByTimeRange prefix timestamp timestamp g enableGroupSelect
     = Return [name]
     <-> unitOfDay g (hostDay LocalTZA timestamp) = unitOf g timestamp) /\
    (LocalTZA (timestamp * 1000) = 32400000 ->
     indexesByTimeRange prefix timestamp timestamp g enableGroupSelect
     = Return [name] /\
     indexSelectorByTimeRange prefix timestamp timestamp g = Return name).
Proof.
  intros _ Hg. split; [reflexivity |].
  eexists. split; [apply SelectionMore.periodIndexName_label, Hg |].
  split; [reflexivity |].
  pose proof (SelectionMore.indexesByTimeRange_instant prefix timestamp g) as I.
  split.
  - rewrite (I enableGroupSelect Hg). split.
    + intros E. injection E as E. apply SelectionFacts.append_inj_l in E.
      symmetry. exact (SelectionFacts.unitLabel_inj g _ _ Hg E).
    + intros ->. reflexivity.
  - intros H9.
    assert (E : unitOfDay g (hostDay LocalTZA timestamp) = unitOf g timestamp).
    { rewrite SelectionMore.unitOf_unitOfDay. f_equal.
      unfold hostDay, LocalTime. rewrite H9. apply LoopFacts.Day_local. }
    rewrite E. split; [apply I, Hg |].
    unfold indexSelectorByTimeRange. rewrite (I true Hg). reflexivity.
Qed.

Lemma X2_periodIndexName_selected_witness :
  (forall other,
     periodIndexName seoul "test_" 1561161600 (OtherPeriod other) =
     Throw (RangeError (OtherPeriod other))) /\
  exists name,
    periodIndexName seoul "test_" 1561161600 DAILY = Return name /\
    name = ("test_" ++ unitLabel DAILY (unitOfDay DAILY (hostDay seoul 1561161600)))%string /\
    (indexesByTimeRange "test_" 1561161600 1561161600 DAILY true = Return [name]
     <-> unitOfDay DAILY (hostDay seoul 1561161600) = unitOf DAILY 1561161600) /\
    (seoul (1561161600 * 1000) = 32400000 ->
     indexesByTimeRange "test_" 1561161600 1561161600 DAILY true = Return [name] /\
     indexSelectorByTimeRange "test_" 1561161600 1561161600 DAILY = Return name).
Proof.
  apply (X2_periodIndexName_selected seoul "test_" 1561161600 DAILY true).
  - unfold inDateRange, Calendar.maxTime, Calendar.msPerDay. lia.
  - left. reflexivity.
Defined.

(** ** Date-math selectors *)

Module RelativeFacts.
Import Period LabelFacts IdentityFacts Relative.

Lemma slice_strip (a : string) (c : ascii) :
  slice (a ++ String c "") 0 (-1) = a.
Proof.
  unfold slice, Identity.strlen. rewrite append_length. cbn [String.length].
  change (0 <? 0) with false. change (-1 <? 0) with true. cbv iota.
  replace (Z.to_nat (Z.min 0 (Z.of_nat (String.length a + 1)))) with 0%nat by lia.
  replace (Z.to_nat (Z.max (Z.max (Z.of_nat (String.length a + 1) + -1) 0
                            - Z.min 0 (Z.of_nat (String.length a + 1))) 0))
    with (String.length a) by lia.
  apply substring_prefix.
Qed.

Ltac string_norm := repeat (rewrite ?append_assoc; cbn [append]).

(** The shape shared by the three selectors. *)
Lemma selector_shape (unit prefix format : string) (range : Z) :
  slice
    (fold_left
       (fun names i =>
          (names ++ ("<" ++ prefix ++ "{now/" ++ unit ++ "-" ++ Format.decimal (i + 1)
                     ++ unit ++ "{" ++ format ++ "|+09:00}}>,"))%string)
       (counter range)
       ("<" ++ prefix ++ "{now/" ++ unit ++ "{" ++ format ++ "|+09:00}}>,")%string)
    0 (-1)
  = String.concat "," (map (dateMathName unit prefix format)
                           (unitsBetween 0 (Z.max range 0))).
Proof.
  assert (F : forall l acc,
    fold_left
      (fun names i =>
         (names ++ ("<" ++ prefix ++ "{now/" ++ unit ++ "-" ++ Format.decimal (i + 1)
                    ++ unit ++ "{" ++ format ++ "|+09:00}}>,"))%string)
      (map Z.of_nat l) acc
    = (acc ++ fold_right
                (fun k r => ((dateMathName unit prefix format k ++ ",") ++ r)%string)
                "" (map (fun i => 1 + Z.of_nat i) l))%string).
  { induction l as [| i l IH]; intros acc; cbn [map fold_left fold_right].
    - now rewrite append_nil_r.
    - rewrite IH. unfold dateMathName at 2.
      replace (1 + Z.of_nat i =? 0) with false by (symmetry; apply Z.eqb_neq; lia).
      replace (Z.of_nat i + 1) with (1 + Z.of_nat i) by lia.
      string_norm. reflexivity. }
  unfold counter. rewrite F.
  assert (E : ("<" ++ prefix ++ "{now/" ++ unit ++ "{" ++ format ++ "|+09:00}}>,")%string
              = (dateMathName unit prefix format 0 ++ ",")%string).
  { unfold dateMathName. cbn [Z.eqb]. string_norm. reflexivity. }
  rewrite E.
  rewrite (LoopFacts.unitsBetween_cons 0 (Z.max range 0)) by lia.
  change (unitsBetween (0 + 1) (Z.max range 0))
    with (map (fun i => 1 + Z.of_nat i) (List.seq 0 (Z.to_nat (Z.max range 0 - 1 + 1)))).
  replace (Z.to_nat (Z.max range 0 - 1 + 1)) with (Z.to_nat range) by lia.
  set (rest := map (fun i => 1 + Z.of_nat i) (List.seq 0 (Z.to_nat range))).
  change ((dateMathName unit prefix format 0 ++ ",") ++
          fold_right (fun k r => ((dateMathName unit prefix format k ++ ",") ++ r)%string)
            "" rest)%string
    with (fold_right (fun k r => ((dateMathName unit prefix format k ++ ",") ++ r)%string)
            "" (0 :: rest)).
  rewrite segments_concat. apply slice_strip.
Qed.

End RelativeFacts.

Import Relative.

(** X3. The three selectors relative to now return the date-math names for
    now and for each of the [range] units before it, joined by commas with
    no comma at the end: [max range 0 + 1] names; a range of zero or less
    gives the name for now alone. *)
Theorem X3_relative_selectors (prefix format : string) (range : Z) :
  indexSelectorByRelDate prefix range format =
  String.concat "," (map (dateMathName "d" prefix format)
                         (unitsBetween 0 (Z.max range 0))) /\
  indexSelectorByRelMonth prefix range format =
  String.concat "," (map (dateMathName "m" prefix format)
                         (unitsBetween 0 (Z.max range 0))) /\
  indexSelectorByRelHour prefix range format =
  String.concat "," (map (dateMathName "h" prefix format)
                         (unitsBetween 0 (Z.max range 0))) /\
  Z.of_nat (List.length (unitsBetween 0 (Z.max range 0))) = Z.max range 0 + 1 /\
  (range <= 0 ->
   indexSelectorByRelDate prefix range format = dateMathName "d" prefix format 0).
Proof.
  assert (D : indexSelectorByRelDate prefix range format =
              String.concat "," (map (dateMathName "d" prefix format)
                                     (unitsBetween 0 (Z.max range 0))))
    by apply (RelativeFacts.selector_shape "d").
  split; [exact D |].
  split; [apply (RelativeFacts.selector_shape "m") |].
  split; [apply (RelativeFacts.selector_shape "h") |].
  split; [rewrite LoopFacts.unitsBetween_length; lia |].
  intros H. rewrite D. replace (Z.max range 0) with 0 by lia. reflexivity.
Qed.

(** ** The summary of a bulk response *)

Module BulkFacts.
Import Bulk.

(** The loop, when every item carries a response. *)
Lemma tallyItems_done (ignore : option (list Z)) (l : list BulkItem) :
  forall t,
    (forall item, In item l -> infoOf item <> None) ->
    exists infos,
      map infoOf l = map Some infos /\
      tallyItems ignore t l =
      Done {| tally_succeed :=
                tally_succeed t + Z.of_nat (List.length (filter succeeded infos));
              tally_errors := tally_errors t ++ reportedFailures ignore infos;
              resultItems := resultItems t ++ infos |}.
Proof.
  induction l as [| item l IH]; intros t Hall.
  - exists []. split; [reflexivity |]. cbn. rewrite Z.add_0_r, !app_nil_r.
    now destruct t.
  - assert (Hl : forall i, In i l -> infoOf i <> None)
      by (intros i Hi; apply Hall; now right).
    destruct (infoOf item) as [info |] eqn:I;
      [| exfalso; apply (Hall item); [now left | exact I]].
    assert (Step : exists t',
      tallyItem ignore t item = Done t' /\
      tally_succeed t' =
        tally_succeed t + Z.of_nat (List.length (filter succeeded [info])) /\
      tally_errors t' = tally_errors t ++ reportedFailures ignore [info] /\
      resultItems t' = resultItems t ++ [info]).
    { unfold tallyItem, reportedFailures, succeeded, failure. rewrite I.
      cbn [filter flat_map].
      destruct (result info); [eexists; split; [reflexivity |]; cbn;
        rewrite app_nil_r; auto |].
      destruct (error info); [| eexists; split; [reflexivity |]; cbn;
        rewrite app_nil_r, Z.add_0_r; auto].
      destruct (reported ignore info); eexists; (split; [reflexivity |]); cbn;
        rewrite ?app_nil_r, Z.add_0_r; auto. }
    destruct Step as (t' & St & S1 & S2 & S3).
    destruct (IH t' Hl) as (infos & M & T).
    exists (info :: infos). split; [cbn [map]; now rewrite I, M |].
    cbn [tallyItems]. rewrite St, T, S1, S2, S3.
    change (info :: infos) with ([info] ++ infos).
    unfold reportedFailures. rewrite flat_map_app, filter_app, length_app.
    f_equal. f_equal; [lia | now rewrite app_assoc | now rewrite <- app_assoc].
Qed.

(** The loop, when an item carries none. *)
Lemma tallyItems_throws (ignore : option (list Z)) (l : list BulkItem) :
  forall t,
    (exists item, In item l /\ infoOf item = None) ->
    tallyItems ignore t l = TypeError.
Proof.
  induction l as [| item l IH]; intros t (bad & Hin & Hbad); [contradiction |].
  cbn [tallyItems]. unfold tallyItem.
  destruct (infoOf item) as [info |] eqn:I; [| reflexivity].
  destruct Hin as [-> | Hin]; [congruence |].
  assert (Ex : exists i, In i l /\ infoOf i = None) by (exists bad; auto).
  destruct (result info); [apply IH, Ex |].
  destruct (error info); [| apply IH, Ex].
  destruct (reported ignore info); apply IH, Ex.
Qed.

Lemma all_or_one (l : list BulkItem) :
  (forall item, In item l -> infoOf item <> None) \/
  (exists item, In item l /\ infoOf item = None).
Proof.
  induction l as [| item l [IH | (bad & Hin & Hbad)]].
  - left. intros item [].
  - destruct (infoOf item) eqn:I.
    + left. intros i [<- | Hi]; [congruence | now apply IH].
    + right. exists item. split; [now left | exact I].
  - right. exists bad. split; [now right | exact Hbad].
Qed.

(** What [bulk] returns, and when. *)
Lemma bulk_done (l : list BulkItem) (ignore : option (list Z)) :
  (forall item, In item l -> infoOf item <> None) ->
  exists infos,
    map infoOf l = map Some infos /\
    bulk l ignore =
    Done {| succeed := Z.of_nat (List.length (filter succeeded infos));
            failed := Z.of_nat (List.length (reportedFailures ignore infos));
            errors := reportedFailures ignore infos;
            items := infos |}.
Proof.
  intros Hall. unfold bulk.
  destruct (tallyItems_done ignore l
              {| tally_succeed := 0; tally_errors := []; resultItems := [] |} Hall)
    as (infos & M & T).
  exists infos. split; [exact M |]. rewrite T. reflexivity.
Qed.

Lemma bulk_inv (l : list BulkItem) (ignore : option (list Z)) (r : BulkResult) :
  bulk l ignore = Done r ->
  map infoOf l = map Some (items r) /\
  succeed r = Z.of_nat (List.length (filter succeeded (items r))) /\
  failed r = Z.of_nat (List.length (reportedFailures ignore (items r))) /\
  errors r = reportedFailures ignore (items r).
Proof.
  intros H. destruct (all_or_one l) as [Hall | Hbad].
  - destruct (bulk_done l ignore Hall) as (infos & M & B).
    rewrite B in H. injection H as <-. cbn [items succeed failed errors]. auto.
  - unfold bulk in H. rewrite (tallyItems_throws ignore l _ Hbad) in H.
    discriminate.
Qed.

Lemma map_Some_inj {A : Type} (l l' : list A) :
  map Some l = map Some l' -> l = l'.
Proof.
  revert l'. induction l as [| a l IH]; intros [| b l'] E; try discriminate;
    [reflexivity |].
  injection E as -> E. f_equal. now apply IH.
Qed.

Lemma infoOf_None (item : BulkItem) :
  infoOf item = None <->
  index item = None /\ update item = None /\ delete item = None /\
  create item = None.
Proof.
  unfold infoOf.
  destruct (index item), (update item), (delete item), (create item);
    split; intros H; try discriminate; try tauto;
    destruct H as (? & ? & ? & ?); discriminate.
Qed.

Lemma tally_bound (ignore : option (list Z)) (infos : list WriteResponse) :
  (List.length (filter succeeded infos)
   + List.length (reportedFailures ignore infos) <= List.length infos)%nat.
Proof.
  induction infos as [| info infos IH]; [reflexivity |].
  unfold reportedFailures in *. cbn [filter flat_map List.length].
  rewrite length_app. unfold succeeded at 1, failure at 1.
  destruct (result info); [cbn; lia |].
  destruct (error info); [| cbn; lia].
  destruct (reported ignore info); cbn; lia.
Qed.

Lemma reportedFailures_ignore (statuses : list Z) (infos : list WriteResponse) :
  incl (reportedFailures (Some statuses) infos) (reportedFailures None infos) /\
  (List.length (reportedFailures (Some statuses) infos)
   <= List.length (reportedFailures None infos))%nat.
Proof.
  induction infos as [| info infos [IHi IHl]]; [split; [intros x [] | reflexivity] |].
  unfold reportedFailures in *. cbn [flat_map].
  destruct (failure info) as [m |]; [| split; assumption].
  change (reported None info) with true.
  destruct (reported (Some statuses) info); cbv iota.
  - split; [| cbn [app List.length]; lia].
    intros x [<- | Hx]; [now left | right; now apply IHi].
  - split; [| cbn [app List.length]; lia]. intros x Hx. right. now apply IHi.
Qed.

Lemma reportedFailures_success (ignore : option (list Z))
  (infos : list WriteResponse) :
  Forall (fun info => succeeded info = true) infos ->
  reportedFailures ignore infos = [] /\ filter succeeded infos = infos.
Proof.
  induction 1 as [| info infos H _ [IHr IHf]]; [split; reflexivity |].
  assert (Fx : failure info = None).
  { unfold succeeded in H. unfold failure.
    destruct (result info); [reflexivity | discriminate]. }
  unfold reportedFailures in *. cbn [flat_map filter].
  rewrite Fx, H, IHr, IHf. split; reflexivity.
Qed.

End BulkFacts.

Import Bulk.

(** X4. When [bulk] returns, its items are the responses of the operations
    in the order of the response, [succeed] counts those with a result,
    [errors] holds the messages "type - reason" of those with an error and
    no result whose status is not ignored, [failed] is the number of these
    messages, and [succeed + failed] is at most the number of items; when
    every operation has a result, [failed] is 0 and [succeed] the number of
    items. *)
Theorem X4_bulk_summary (responseItems : list BulkItem) (ignore : option (list Z))
  (r : BulkResult) :
  bulk responseItems ignore = Done r ->
  map infoOf responseItems = map Some (items r) /\
  succeed r = Z.of_nat (List.length (filter succeeded (items r))) /\
  errors r = reportedFailures ignore (items r) /\
  failed r = Z.of_nat (List.length (errors r)) /\
  0 <= succeed r /\ 0 <= failed r /\
  succeed r + failed r <= Z.of_nat (List.length responseItems) /\
  (Forall (fun info => succeeded info = true) (items r) ->
   failed r = 0 /\ errors r = [] /\
   succeed r = Z.of_nat (List.length responseItems)).
Proof.
  intros H. destruct (BulkFacts.bulk_inv _ _ _ H) as (M & Es & Ef & Ee).
  assert (L : List.length responseItems = List.length (items r)).
  { rewrite <- (length_map infoOf), M. apply length_map. }
  pose proof (BulkFacts.tally_bound ignore (items r)) as B.
  split; [exact M |]. split; [exact Es |]. split; [exact Ee |].
  split; [now rewrite Ef, Ee |].
  split; [lia |]. split; [lia |]. split; [lia |].
  intros F. destruct (BulkFacts.reportedFailures_success ignore _ F) as [R S].
  rewrite Ef, Ee, Es, R, S, L. auto.
Qed.

Lemma X4_bulk_summary_witness :
  let done := {| _index := "test"; _id := "1"; result := Some created;
                 status := 201; error := None |} in
  let conflict := {| _index := "test"; _id := "2"; result := None; status := 409;
                     error := Some {| type := "version_conflict_engine_exception";
                                      reason := "document already exists" |} |} in
  let responseItems :=
    [{| index := Some done; update := None; delete := None; create := None |};
     {| index := None; update := None; delete := None; create := Some conflict |}] in
  let r := {| succeed := 1; failed := 1;
              errors := ["version_conflict_engine_exception - document already exists"];
              items := [done; conflict] |} in
  map infoOf responseItems = map Some (items r) /\
  succeed r = Z.of_nat (List.length (filter succeeded (items r))) /\
  errors r = reportedFailures None (items r) /\
  failed r = Z.of_nat (List.length (errors r)) /\
  0 <= succeed r /\ 0 <= failed r /\
  succeed r + failed r <= Z.of_nat (List.length responseItems) /\
  (Forall (fun info => succeeded info = true) (items r) ->
   failed r = 0 /\ errors r = [] /\
   succeed r = Z.of_nat (List.length responseItems)).
Proof.
  intros done conflict responseItems r.
  apply (X4_bulk_summary responseItems None r).
  reflexivity.
Defined.

(** X5. The statuses to ignore only hide error messages: if [bulk]
    returns without them, it returns with them too, with the same items and
    the same [succeed], with no message that was not there before and a
    [failed] that is not larger; an empty list of statuses changes
    nothing. *)
Theorem X5_bulk_ignore (responseItems : list BulkItem) (statuses : list Z)
  (r : BulkResult) :
  bulk responseItems None = Done r ->
  bulk responseItems (Some []) = Done r /\
  exists r',
    bulk responseItems (Some statuses) = Done r' /\
    items r' = items r /\
    succeed r' = succeed r /\
    incl (errors r') (errors r) /\
    failed r' <= failed r.
Proof.
  intros H. destruct (BulkFacts.bulk_inv _ _ _ H) as (M & Es & Ef & Ee).
  assert (Hall : forall item, In item responseItems -> infoOf item <> None).
  { intros item Hi N.
    assert (I : In None (map infoOf responseItems))
      by (rewrite <- N; now apply in_map).
    rewrite M in I. apply in_map_iff in I as (x & Hx & _). discriminate. }
  split.
  - destruct (BulkFacts.bulk_done responseItems (Some []) Hall) as (infos & Mi & B).
    rewrite M in Mi. apply BulkFacts.map_Some_inj in Mi. subst infos.
    rewrite B. destruct r as [s f e i]. cbn [items succeed failed errors] in *.
    subst s f e. reflexivity.
  - destruct (BulkFacts.bulk_done responseItems (Some statuses) Hall)
      as (infos & Mi & B).
    rewrite M in Mi. apply BulkFacts.map_Some_inj in Mi. subst infos.
    eexists. split; [exact B |].
    destruct (BulkFacts.reportedFailures_ignore statuses (items r)) as [I L].
    cbn [items succeed errors failed]. rewrite Es, Ef, Ee.
    repeat split; try assumption. lia.
Qed.

Lemma X5_bulk_ignore_witness :
  let done := {| _index := "test"; _id := "1"; result := Some created;
                 status := 201; error := None |} in
  let conflict := {| _index := "test"; _id := "2"; result := None; status := 409;
                     error := Some {| type := "version_conflict_engine_exception";
                                      reason := "document already exists" |} |} in
  let responseItems :=
    [{| index := Some done; update := None; delete := None; create := None |};
     {| index := None; update := None; delete := None; create := Some conflict |}] in
  let r := {| succeed := 1; failed := 1;
              errors := ["version_conflict_engine_exception - document already exists"];
              items := [done; conflict] |} in
  bulk responseItems (Some []) = Done r /\
  exists r',
    bulk responseItems (Some [409]) = Done r' /\
    items r' = items r /\
    succeed r' = succeed r /\
    incl (errors r') (errors r) /\
    failed r' <= failed r.
Proof.
  intros done conflict responseItems r.
  apply (X5_bulk_ignore responseItems [409] r).
  reflexivity.
Defined.

(** X6. [bulk] throws a [TypeError] exactly when an item of the response
    carries none of [index], [update], [delete] and [create]; the statuses
    to ignore play no part in it. *)
Theorem X6_bulk_throws (responseItems : list BulkItem) (ignore : option (list Z)) :
  bulk responseItems ignore = TypeError <->
  exists item,
    In item responseItems /\
    index item = None /\ update item = None /\ delete item = None /\
    create item = None.
Proof.
  split.
  - intros H. destruct (BulkFacts.all_or_one responseItems) as [Hall | (bad & Hi & Hb)].
    + destruct (BulkFacts.bulk_done responseItems ignore Hall) as (infos & _ & B).
      rewrite B in H. discriminate.
    + exists bad. split; [exact Hi |]. now apply BulkFacts.infoOf_None.
  - intros (bad & Hi & Hb). unfold bulk.
    rewrite (BulkFacts.tallyItems_throws ignore responseItems); [reflexivity |].
    exists bad. split; [exact Hi |]. now apply BulkFacts.infoOf_None.
Qed.

(** ** Further properties of [entityId] *)

Module IdentityMore.
Import Identity LabelFacts IdentityFacts Chars.

(** Two strings that agree up to the first [c] agree before and after it. *)
Lemma split_at_char (c : ascii) (a a' r r' : string) :
  charFree c a = true -> charFree c a' = true ->
  (a ++ String c r)%string = (a' ++ String c r')%string ->
  a = a' /\ r = r'.
Proof.
  revert a'. induction a as [| x a IH]; intros [| x' a'] Ha Ha' E; cbn in *.
  - injection E as ->. auto.
  - injection E as <- _. rewrite Ascii.eqb_refl in Ha'. discriminate.
  - injection E as -> _. rewrite Ascii.eqb_refl in Ha. discriminate.
  - injection E as -> E.
    apply andb_prop in Ha as [_ Ha]. apply andb_prop in Ha' as [_ Ha'].
    destruct (IH a' Ha Ha' E) as [-> ->]. auto.
Qed.

Lemma charFree_no_char (c : ascii) (a x r : string) :
  charFree c a = true -> a <> (x ++ String c r)%string.
Proof.
  revert x. induction a as [| y a IH]; intros [| z x] Ha E; cbn in *;
    try discriminate.
  - injection E as -> _. rewrite Ascii.eqb_refl in Ha. discriminate.
  - injection E as _ E. apply andb_prop in Ha as [_ Ha]. exact (IH x Ha E).
Qed.

(** Values without the delimiter can be read back from their join. *)
Lemma concat_inj (c : ascii) (vs vs' : list string) :
  List.length vs = List.length vs' ->
  Forall (fun v => charFree c v = true) vs ->
  Forall (fun v => charFree c v = true) vs' ->
  String.concat (String c "") vs = String.concat (String c "") vs' ->
  vs = vs'.
Proof.
  revert vs'. induction vs as [| v vs IH]; intros [| v' vs'] L F F' E;
    try discriminate; [reflexivity |].
  inversion F as [| ? ? Fv Fr]; inversion F' as [| ? ? Fv' Fr']; subst.
  destruct vs as [| w vs], vs' as [| w' vs']; try discriminate.
  - cbn in E. now subst.
  - cbn [String.concat] in E.
    change (String c "" ++ ?x)%string with (String c x) in E.
    cbn [append] in E.
    destruct (split_at_char c v v' _ _ Fv Fv' E) as [-> E'].
    f_equal. apply IH; auto.
Qed.

Section WithLocale.
Variable localeCompare : string -> string -> Z.

Local Abbreviation sortItems := (sortItems localeCompare).
Local Abbreviation itemLe := (itemLe localeCompare).
Local Abbreviation entityId := (entityId localeCompare).

Hypothesis localeCompare_flip :
  forall a b, 0 < localeCompare a b -> localeCompare b a <= 0.
Hypothesis localeCompare_trans :
  forall a b c,
    localeCompare a b <= 0 -> localeCompare b c <= 0 -> localeCompare a c <= 0.
(** No two names are equivalent. *)
Hypothesis localeCompare_antisym :
  forall a b, localeCompare a b <= 0 -> localeCompare b a <= 0 -> a = b.

Lemma itemLe_antisym (a b : IdItem) : itemLe a b -> itemLe b a -> a = b.
Proof.
  unfold Identity.itemLe. intros [L1 | [E1 L1]] [L2 | [E2 L2]]; try lia.
  destruct a as [pa sa], b as [pb sb]. cbn [prop item_seq] in *.
  f_equal; [now apply localeCompare_antisym | exact E1].
Qed.

(** A list has one sorted arrangement. *)
Lemma sorted_unique (l l' : list IdItem) :
  StronglySorted itemLe l -> StronglySorted itemLe l' ->
  Permutation l l' -> l = l'.
Proof.
  intros S. revert l'. induction S as [| a l S IH Ha]; intros l' S' P.
  - apply Permutation_nil in P. now subst.
  - destruct S' as [| b l' S' Hb].
    + symmetry in P. apply Permutation_nil in P. discriminate.
    + assert (E : a = b).
      { assert (Ia : In a (b :: l'))
          by (apply (Permutation_in _ P); now left).
        assert (Ib : In b (a :: l))
          by (apply (Permutation_in _ (Permutation_sym P)); now left).
        destruct Ia as [-> | Ia]; [reflexivity |].
        destruct Ib as [-> | Ib]; [reflexivity |].
        rewrite Forall_forall in Ha, Hb.
        apply itemLe_antisym; [now apply Ha | now apply Hb]. }
      subst b. f_equal. apply IH; [exact S' |].
      now apply Permutation_cons_inv with a.
Qed.

Lemma sortItems_perm_eq (l l' : list IdItem) :
  Permutation l l' -> sortItems l = sortItems l'.
Proof.
  intros P. apply sorted_unique.
  - apply sortItems_strongly_sorted; assumption.
  - apply sortItems_strongly_sorted; assumption.
  - rewrite (sortItems_perm localeCompare l), (sortItems_perm localeCompare l').
    exact P.
Qed.

End WithLocale.

Lemma ordinalCompare_antisym (a b : string) :
  ordinalCompare a b <= 0 -> ordinalCompare b a <= 0 -> a = b.
Proof.
  intros H1 H2. unfold ordinalCompare in *.
  rewrite (String.compare_antisym b a) in H2.
  destruct (String.compare a b) eqn:C; cbn in H2; try lia.
  now apply String.compare_eq_iff.
Qed.

End IdentityMore.

Import Identity Chars.

(** X7. The id does not depend on the order in which the id properties
    were declared: two [Map]s with the same entries in different insertion
    orders give the same id, for every [localeCompare] that is a total
    order of the names. *)
Theorem X7_entityId_declaration_order (localeCompare : string -> string -> Z)
  (entries entries' : list (string * EntityIdOptions)) (entity : Entity)
  (delimiter : string) :
  (forall a b, 0 < localeCompare a b -> localeCompare b a <= 0) ->
  (forall a b c,
     localeCompare a b <= 0 -> localeCompare b c <= 0 -> localeCompare a c <= 0) ->
  (forall a b, localeCompare a b <= 0 -> localeCompare b a <= 0 -> a = b) ->
  Permutation entries entries' ->
  entityId localeCompare (Some entries) entity delimiter =
  entityId localeCompare (Some entries') entity delimiter.
Proof.
  intros Hf Ht Ha P. rewrite !IdentityFacts.entityId_concat.
  rewrite (IdentityMore.sortItems_perm_eq localeCompare Hf Ht Ha
             (entityIdList entries) (entityIdList entries')); [reflexivity |].
  unfold entityIdList. now apply Permutation_map.
Qed.

Lemma X7_entityId_declaration_order_witness :
  entityId ordinalCompare
    (Some [("aEntityId", {| seq := Some 1 |}); ("bEntityId", {| seq := Some 0 |})])
    (fun p => JsString p) "-" =
  entityId ordinalCompare
    (Some [("bEntityId", {| seq := Some 0 |}); ("aEntityId", {| seq := Some 1 |})])
    (fun p => JsString p) "-".
Proof.
  apply (X7_entityId_declaration_order ordinalCompare
           [("aEntityId", {| seq := Some 1 |}); ("bEntityId", {| seq := Some 0 |})]
           [("bEntityId", {| seq := Some 0 |}); ("aEntityId", {| seq := Some 1 |})]
           (fun p => JsString p) "-").
  - exact IdentityFacts.ordinalCompare_flip.
  - exact IdentityFacts.ordinalCompare_trans.
  - exact IdentityMore.ordinalCompare_antisym.
  - apply perm_swap.
Defined.

(** X8. With a delimiter of one character, two entities of one type whose
    id values do not hold that character have the same id only if they
    agree on every id value. *)
Theorem X8_entityId_injective (localeCompare : string -> string -> Z)
  (entries : list (string * EntityIdOptions)) (e1 e2 : Entity) (c : ascii) :
  (forall e, In e entries -> charFree c (toString (e1 (fst e))) = true) ->
  (forall e, In e entries -> charFree c (toString (e2 (fst e))) = true) ->
  entityId localeCompare (Some entries) e1 (String c "") =
  entityId localeCompare (Some entries) e2 (String c "") ->
  forall e, In e entries -> toString (e1 (fst e)) = toString (e2 (fst e)).
Proof.
  intros F1 F2 E e He. rewrite !IdentityFacts.entityId_concat in E.
  injection E as E.
  set (sorted := sortItems localeCompare (entityIdList entries)) in *.
  assert (In_sorted : forall item, In item sorted ->
                        exists e', In e' entries /\ prop item = fst e').
  { intros item Hi.
    apply (Permutation_in _ (IdentityFacts.sortItems_perm localeCompare _)) in Hi.
    apply in_map_iff in Hi as (e' & <- & He'). exists e'. auto. }
  apply IdentityMore.concat_inj in E.
  - assert (Hi : In {| prop := fst e;
                       item_seq := match seq (snd e) with Some n => n | None => 0 end |}
                    sorted).
    { apply (Permutation_in _ (Permutation_sym
               (IdentityFacts.sortItems_perm localeCompare _))).
      unfold entityIdList. apply in_map_iff. exists e. auto. }
    assert (M : forall item, In item sorted ->
                  toString (e1 (prop item)) = toString (e2 (prop item))).
    { apply map_ext_in_iff. exact E. }
    exact (M _ Hi).
  - now rewrite !length_map.
  - apply Forall_forall. intros v Hv. apply in_map_iff in Hv as (item & <- & Hi).
    destruct (In_sorted item Hi) as (e' & He' & ->). now apply F1.
  - apply Forall_forall. intros v Hv. apply in_map_iff in Hv as (item & <- & Hi).
    destruct (In_sorted item Hi) as (e' & He' & ->). now apply F2.
Qed.

Lemma X8_entityId_injective_witness :
  toString (JsString "a") = toString (JsString "a").
Proof.
  apply (X8_entityId_injective ordinalCompare
           [("aEntityId", {| seq := None |}); ("bEntityId", {| seq := None |})]
           (fun p => if String.eqb p "aEntityId" then JsString "a" else JsString "b")
           (fun p => if String.eqb p "aEntityId" then JsString "a" else JsString "b")
           "-"%char
           ltac:(intros e [<- | [<- | []]]; reflexivity)
           ltac:(intros e [<- | [<- | []]]; reflexivity)
           eq_refl
           ("aEntityId", {| seq := None |})).
  left. reflexivity.
Defined.

(** X9. The edges of [entityId]: [createEntity] refuses a [Map] without
    entries, whose id is the empty string; a single id field gives its value
    as a string, whatever the delimiter; with the empty delimiter the
    values are concatenated. *)
Theorem X9_entityId_edges (localeCompare : string -> string -> Z)
  (p : string) (options : EntityIdOptions)
  (entries : list (string * EntityIdOptions)) (routingIdProp : option string)
  (entity : Entity) (delimiter index : string) :
  createEntity localeCompare (Some []) routingIdProp entity index =
  Throw (PlainError "entityId decorator requried") /\
  entityId localeCompare (Some [(p, options)]) entity delimiter =
  Some (toString (entity p)) /\
  entityId localeCompare (Some entries) entity "" =
  Some (fold_right
          (fun item r => (toString (entity (prop item)) ++ r)%string) ""
          (sortItems localeCompare (entityIdList entries))).
Proof.
  assert (E0 : forall d, entityId localeCompare (Some []) entity d = Some "")
    by (intros d; now rewrite IdentityFacts.entityId_concat).
  split; [unfold createEntity; now rewrite E0 |].
  split; [now rewrite IdentityFacts.entityId_concat |].
  rewrite IdentityFacts.entityId_concat. f_equal.
  induction (sortItems localeCompare (entityIdList entries)) as [| x l IH];
    [reflexivity |].
  cbn [map fold_right String.concat]. rewrite <- IH.
  destruct (map (fun item => toString (entity (prop item))) l);
    [cbn; now rewrite LabelFacts.append_nil_r | reflexivity].
Qed.

(** X10. Whenever [createEntity] sends a request, [indexEntity] sends the
    same parameters; the id of the request is a string that is not empty,
    and the request carries a routing exactly when the routing property
    reads a truthy value. *)
Theorem X10_create_then_index (localeCompare : string -> string -> Z)
  (props : EntityIdProps) (routingIdProp : option string) (entity : Entity)
  (index : string) (params : WriteParams) :
  createEntity localeCompare props routingIdProp entity index = Return params ->
  indexEntity localeCompare props routingIdProp entity index = Return params /\
  (exists s, id params = Some s /\ s <> "" /\
             entityId localeCompare props entity "-" = Some s) /\
  Identity.index params = index /\
  (routing params = None <-> truthy (routingId routingIdProp entity) = false) /\
  (routingIdProp = None -> routing params = None).
Proof.
  unfold createEntity, indexEntity. intros H.
  destruct (entityId localeCompare props entity "-") as [[| c s] |];
    try discriminate.
  injection H as <-. cbn [id Identity.index routing].
  split; [reflexivity |].
  split; [exists (String c s); repeat split; discriminate |].
  split; [reflexivity |].
  unfold routingParam. split.
  - destruct (truthy (routingId routingIdProp entity)); split; intros H;
      try discriminate; reflexivity.
  - intros ->. reflexivity.
Qed.

Lemma X10_create_then_index_witness :
  indexEntity ordinalCompare (Some [("testId", {| seq := None |})]) None
    (fun _ => JsString "hasIdEntity") "test" =
  Return {| Identity.index := "test"; id := Some "hasIdEntity";
            body := fun _ => JsString "hasIdEntity"; routing := None |} /\
  (exists s, Some "hasIdEntity" = Some s /\ s <> "" /\
             entityId ordinalCompare (Some [("testId", {| seq := None |})])
               (fun _ => JsString "hasIdEntity") "-" = Some s) /\
  "test" = "test" /\
  (@None JsValue = None <-> truthy (routingId None (fun _ => JsString "hasIdEntity")) = false) /\
  (@None string = None -> @None JsValue = None).
Proof.
  apply (X10_create_then_index ordinalCompare
           (Some [("testId", {| seq := None |})]) None
           (fun _ => JsString "hasIdEntity") "test"
           {| Identity.index := "test"; id := Some "hasIdEntity";
              body := fun _ => JsString "hasIdEntity"; routing := None |}).
  reflexivity.
Defined.

(** ** The former index selector *)

Module LegacyFacts.
Import Calendar CalendarFacts Moment MomentFacts Format Period LabelFacts
  LoopFacts SelectionFacts Naming Legacy.

(** The label a moment is formatted to. *)
Lemma format_unitLabel (g : PeriodType) (m : Moment.t) :
  supported g ->
  format m (fmtOf g) = unitLabel g (unitOfDay g (Day (time m))).
Proof.
  intros Hg. destruct (fields_of_Day (time m)) as (Y & M & D).
  set (d := Day (time m)) in *.
  destruct Hg as [-> | [-> | ->]]; cbn [fmtOf unitOfDay unitLabel].
  - rewrite format_day. cbn [get]. now rewrite Y, M, D.
  - rewrite format_month. cbn [get]. rewrite Y, M.
    pose proof (MonthFromTime_range (d * msPerDay)) as R. fold (monthOfDay d) in R.
    replace ((12 * yearOfDay d + monthOfDay d) / 12) with (yearOfDay d) by divmod.
    replace ((12 * yearOfDay d + monthOfDay d) mod 12) with (monthOfDay d) by divmod.
    reflexivity.
  - rewrite format_year. cbn [get]. now rewrite Y.
Qed.

(** [add] with a number that is not zero. *)
Lemma add_year_eq (m : Moment.t) (n : Z) :
  n <> 0 -> add m n year = setMonth m (get m month + 12 * n).
Proof.
  intros H. unfold add. destruct (Z.eqb_spec n 0); [contradiction | reflexivity].
Qed.

Lemma add_month_eq (m : Moment.t) (n : Z) :
  n <> 0 -> add m n month = setMonth m (get m month + n).
Proof.
  intros H. unfold add. destruct (Z.eqb_spec n 0); [contradiction | reflexivity].
Qed.

Lemma add_day_eq (m : Moment.t) (n : Z) :
  n <> 0 -> add m n day = mk (setUTCDate (time m) (get m date + n)) (offset m).
Proof.
  intros H. unfold add. destruct (Z.eqb_spec n 0); [contradiction | reflexivity].
Qed.

Lemma get_fields (m : Moment.t) :
  get m year = yearOfDay (Day (time m)) /\
  get m month = monthOfDay (Day (time m)) /\
  get m date = dateOfDay (Day (time m)).
Proof. exact (fields_of_Day (time m)). Qed.

(** [add('-1', unit)] leads to the unit before. *)
Lemma back_day (m : Moment.t) :
  unitOfDay DAILY (Day (time (add m (-1) day))) = unitOfDay DAILY (Day (time m)) - 1.
Proof.
  unfold unitOfDay.
  rewrite add_day_eq by lia. cbn [time]. unfold setUTCDate, MakeDate.
  change (get m date) with (DateFromTime (time m)).
  rewrite MakeDay_date, MakeDay_fields.
  replace (Day (time m) - 1) with (Day (time m) + -1) by lia.
  apply Day_of_day, TimeWithinDay_range.
Qed.

Lemma back_month (m : Moment.t) :
  unitOfDay MONTHLY (Day (time (add m (-1) month))) =
  unitOfDay MONTHLY (Day (time m)) - 1.
Proof.
  rewrite add_month_eq by lia.
  destruct (get_fields m) as (Y & M & _).
  assert (R : 0 <= get m month <= 11) by apply MonthFromTime_range.
  destruct (setMonth_fields m (get m month + -1)) as (Y' & M' & _).
  destruct (get_fields (setMonth m (get m month + -1))) as (Y2 & M2 & _).
  unfold unitOfDay. rewrite <- Y2, <- M2, Y', M', <- Y, <- M.
  generalize dependent (get m month). generalize (get m year).
  intros yy mm; intros. clear - R. divmod.
Qed.

Lemma back_year (m : Moment.t) :
  unitOfDay YEARLY (Day (time (add m (-1) year))) =
  unitOfDay YEARLY (Day (time m)) - 1.
Proof.
  rewrite add_year_eq by lia.
  destruct (get_fields m) as (Y & _ & _).
  assert (R : 0 <= get m month <= 11) by apply MonthFromTime_range.
  destruct (setMonth_fields m (get m month + 12 * -1)) as (Y' & _ & _).
  destruct (get_fields (setMonth m (get m month + 12 * -1))) as (Y2 & _ & _).
  unfold unitOfDay. rewrite <- Y2, Y', <- Y.
  generalize dependent (get m month). generalize (get m year).
  intros yy mm; intros. clear - R. divmod.
Qed.

Lemma add_back (g : PeriodType) (m : Moment.t) :
  supported g ->
  unitOfDay g (Day (time (add m (-1) (unitBack g)))) =
  unitOfDay g (Day (time m)) - 1.
Proof.
  intros [-> | [-> | ->]].
  - exact (back_day m).
  - exact (back_month m).
  - exact (back_year m).
Qed.

Lemma walkOrder_step (u uE : Z) :
  u <= uE ->
  rev (unitsBetween (u + 1) uE) ++ [u] = rev (unitsBetween (u - 1 + 1) uE).
Proof.
  intros H. replace (u - 1 + 1) with u by lia.
  rewrite (unitsBetween_cons u uE H). reflexivity.
Qed.

(** Whether the label of unit [u] is listed already. *)
Lemma listed_iff (g : PeriodType) (uS uE u : Z) :
  supported g -> uS <= u ->
  existsb (String.eqb (unitLabel g u))
          (map (unitLabel g) (uS :: rev (unitsBetween (u + 1) uE)))
  = (u =? uS).
Proof.
  intros Hg Hu.
  destruct (Z.eqb_spec u uS) as [-> | N].
  - cbn [map existsb]. now rewrite String.eqb_refl.
  - destruct (existsb _ _) eqn:E; [| reflexivity].
    apply existsb_exists in E as (x & Hx & Ex). apply String.eqb_eq in Ex.
    apply in_map_iff in Hx as (v & <- & Hv).
    apply (unitLabel_inj g u v Hg) in Ex. subst v.
    destruct Hv as [-> | Hv]; [contradiction |].
    apply in_rev, unitsBetween_In in Hv. lia.
Qed.

(** The walk back from the unit [u] of [endAtDate] to the unit [uS]. *)
Lemma while_walkBack (g : PeriodType) (uS uE : Z) :
  supported g ->
  forall (fuel : nat) (m : Moment.t) (u : Z),
    unitOfDay g (Day (time m)) = u -> uS <= u <= uE ->
    u - uS < Z.of_nat fuel ->
    exists m',
      while fuel (notListed (fmtOf g)) (stepBack (fmtOf g) (unitBack g))
            (m, map (unitLabel g) (uS :: rev (unitsBetween (u + 1) uE)))
      = Some (m', map (unitLabel g) (walkOrder uS uE)).
Proof.
  intros Hg fuel. induction fuel as [| fuel IH]; intros m u Hm Hu Hf; [lia |].
  cbn [while]. unfold notListed at 1. cbn [fst snd].
  rewrite (format_unitLabel g m Hg), Hm, (listed_iff g uS uE u Hg) by lia.
  destruct (Z.eqb_spec u uS) as [-> | N]; cbn [negb].
  - exists m. reflexivity.
  - unfold stepBack at 2.
    rewrite (format_unitLabel g m Hg), Hm.
    change (map (unitLabel g) (uS :: rev (unitsBetween (u + 1) uE)) ++ [unitLabel g u])
      with (unitLabel g uS ::
            (map (unitLabel g) (rev (unitsBetween (u + 1) uE)) ++
             map (unitLabel g) [u])).
    rewrite <- map_app, walkOrder_step by lia.
    apply (IH (add m (-1) (unitBack g)) (u - 1)); [| lia | lia].
    rewrite add_back by exact Hg. now rewrite Hm.
Qed.

Lemma unitOfDay_moment (g : PeriodType) (ts : Z) :
  unitOfDay g (Day (time (utcOffset (of_unix ts) 9))) = unitOf g ts.
Proof.
  rewrite utcOffset_9. cbn [time]. rewrite Day_local.
  destruct g; reflexivity.
Qed.

(** The passes granted to the walk are enough. *)
Lemma walk_bound (g : PeriodType) (s e : Z) :
  supported g -> s <= e ->
  unitOf g e - unitOf g s <
  Z.of_nat (loopBound (utcOffset (of_unix s) 9) (utcOffset (of_unix e) 9)).
Proof.
  intros Hg Hse. unfold loopBound. rewrite !utcOffset_9. cbn [time].
  rewrite !Day_local.
  pose proof (proj1 (unitOf_interval g s _ Hg) eq_refl) as [_ S2].
  pose proof (proj1 (unitOf_interval g e _ Hg) eq_refl) as [E1 _].
  pose proof (unitOf_mono g s e Hse) as Mo.
  destruct (Z.eq_dec (unitOf g s) (unitOf g e)) as [Eq | Ne]; [lia |].
  pose proof (unitStart_diff g (unitOf g s + 1) (unitOf g e) ltac:(lia)). lia.
Qed.

Lemma walkOrder_NoDup (uS uE : Z) : NoDup (walkOrder uS uE).
Proof.
  unfold walkOrder. constructor.
  - intros H. apply in_rev, unitsBetween_In in H. lia.
  - apply NoDup_rev, unitsBetween_NoDup.
Qed.

Lemma walkOrder_length (uS uE : Z) :
  uS <= uE -> Z.of_nat (List.length (walkOrder uS uE)) = uE - uS + 1.
Proof.
  intros H. unfold walkOrder. cbn [List.length]. rewrite length_rev.
  pose proof (unitsBetween_length (uS + 1) uE ltac:(lia)). lia.
Qed.

Lemma walkOrder_perm (uS uE : Z) :
  uS <= uE -> Permutation (walkOrder uS uE) (unitsBetween uS uE).
Proof.
  intros H. unfold walkOrder. rewrite (unitsBetween_cons uS uE H).
  constructor. symmetry. apply Permutation_rev.
Qed.

(** What the walk returns. *)
Lemma walkBack_units (g : PeriodType) (s e : Z) :
  supported g -> s <= e ->
  walkBack (fmtOf g) (unitBack g) (utcOffset (of_unix s) 9) (utcOffset (of_unix e) 9)
  = Some (map (unitLabel g) (walkOrder (unitOf g s) (unitOf g e))).
Proof.
  intros Hg Hse. unfold walkBack.
  rewrite (format_unitLabel g _ Hg), unitOfDay_moment.
  pose proof (unitOf_mono g s e Hse) as Mo.
  destruct (while_walkBack g (unitOf g s) (unitOf g e) Hg
              (loopBound (utcOffset (of_unix s) 9) (utcOffset (of_unix e) 9))
              (utcOffset (of_unix e) 9) (unitOf g e)
              (unitOfDay_moment g e) ltac:(lia) (walk_bound g s e Hg Hse))
    as (m' & W).
  rewrite (unitsBetween_nil (unitOf g e + 1) (unitOf g e)) in W by lia.
  cbn [rev map] in W. rewrite W. reflexivity.
Qed.

(** What the former selector returns on a valid range. *)
Lemma former_selector (prefix : string) (s e : Z) (g : PeriodType) :
  s <= e -> supported g ->
  Legacy.indexSelectorByTimeRange prefix s e g =
  Return (if 100 <? unitOf g e - unitOf g s + 1 then (prefix ++ "*")%string
          else String.concat ","
                 (map (fun u => (prefix ++ unitLabel g u)%string)
                      (walkOrder (unitOf g s) (unitOf g e)))).
Proof.
  intros Hse Hg.
  pose proof (unitOf_mono g s e Hse) as Mo.
  pose proof (walkBack_units g s e Hg Hse) as W.
  unfold Legacy.indexSelectorByTimeRange.
  destruct (Z.ltb_spec e s); [lia |].
  assert (F : forall r,
    r = Some (map (unitLabel g) (walkOrder (unitOf g s) (unitOf g e))) ->
    match r with
    | Some indexes =>
        if 100 <? Z.of_nat (List.length indexes)
        then Return (prefix ++ "*")%string
        else Return (String.concat ","
                       (map (fun v => (prefix ++ v)%string) (unique indexes)))
    | None => Unfinished
    end =
    Return (if 100 <? unitOf g e - unitOf g s + 1 then (prefix ++ "*")%string
            else String.concat ","
                   (map (fun u => (prefix ++ unitLabel g u)%string)
                        (walkOrder (unitOf g s) (unitOf g e))))).
  { intros r ->. rewrite length_map, walkOrder_length by exact Mo.
    destruct (100 <? unitOf g e - unitOf g s + 1); [reflexivity |].
    rewrite unique_NoDup, map_map; [reflexivity |].
    apply Finite.Injective_map_NoDup; [| apply walkOrder_NoDup].
    intros u u' E. exact (unitLabel_inj g u u' Hg E). }
  destruct Hg as [-> | [-> | ->]]; apply F; exact W.
Qed.

End LegacyFacts.

(** X11. The former [indexSelectorByTimeRange] of test/esrepo_old.txt, on
    a valid range of timestamps that [Date] holds and a supported
    granularity: when the range holds more than 100 units it returns the
    wildcard [prefix + "*"]; otherwise it returns the names of the units of
    the range joined by commas, the unit of [startAt] first and the others
    from the unit of [endAt] down.  They are the units that
    [indexesByTimeRange] names without group selection, in another order. *)
Theorem X11_former_selector (prefix : string) (startAt endAt : Z) (g : PeriodType) :
  startAt <= endAt -> inDateRange startAt -> inDateRange endAt -> supported g ->
  let uS := unitOf g startAt in
  let uE := unitOf g endAt in
  Legacy.indexSelectorByTimeRange prefix startAt endAt g =
  Return (if 100 <? uE - uS + 1 then (prefix ++ "*")%string
          else String.concat ","
                 (map (fun u => (prefix ++ unitLabel g u)%string)
                      (Legacy.walkOrder uS uE))) /\
  Permutation (Legacy.walkOrder uS uE) (unitsBetween uS uE) /\
  indexesByTimeRange prefix startAt endAt g false =
  Return (map (fun u => (prefix ++ unitLabel g u)%string) (unitsBetween uS uE)).
Proof.
  intros Hse _ _ Hg uS uE.
  split; [apply LegacyFacts.former_selector; assumption |].
  split; [apply LegacyFacts.walkOrder_perm, LoopFacts.unitOf_mono, Hse |].
  apply SelectionFacts.indexesByTimeRange_plain; assumption.
Qed.

Lemma X11_former_selector_witness :
  let uS := unitOf DAILY 1561161600 in
  let uE := unitOf DAILY 1561301999 in
  Legacy.indexSelectorByTimeRange "test_" 1561161600 1561301999 DAILY =
  Return (if 100 <? uE - uS + 1 then ("test_" ++ "*")%string
          else String.concat ","
                 (map (fun u => ("test_" ++ unitLabel DAILY u)%string)
                      (Legacy.walkOrder uS uE))) /\
  Permutation (Legacy.walkOrder uS uE) (unitsBetween uS uE) /\
  indexesByTimeRange "test_" 1561161600 1561301999 DAILY false =
  Return (map (fun u => ("test_" ++ unitLabel DAILY u)%string) (unitsBetween uS uE)).
Proof.
  apply (X11_former_selector "test_" 1561161600 1561301999 DAILY).
  - lia.
  - unfold inDateRange, Calendar.maxTime, Calendar.msPerDay. lia.
  - unfold inDateRange, Calendar.maxTime, Calendar.msPerDay. lia.
  - left. reflexivity.
Defined.

(** X12. The former selector fails as [indexesByTimeRange] does: each
    throws an error exactly when the other throws it, [InvalidTimeRangeError]
    for a range that ends before it starts and else [RangeError] for a
    period type that is none of the three. *)
Theorem X12_former_selector_errors (prefix : string) (startAt endAt : Z)
  (g : PeriodType) (enableGroupSelect : bool) (err : Error) :
  Legacy.indexSelectorByTimeRange prefix startAt endAt g = Throw err <->
  indexesByTimeRange prefix startAt endAt g enableGroupSelect = Throw err.
Proof.
  destruct (Z_lt_le_dec endAt startAt) as [L | L].
  - unfold Legacy.indexSelectorByTimeRange, indexesByTimeRange.
    destruct (Z.ltb_spec endAt startAt); [| lia].
    split; intros E; injection E as <-; reflexivity.
  - assert (Sup : supported g ->
              (Legacy.indexSelectorByTimeRange prefix startAt endAt g = Throw err <->
               indexesByTimeRange prefix startAt endAt g enableGroupSelect = Throw err)).
    { intros Hg.
      rewrite (LegacyFacts.former_selector prefix startAt endAt g L Hg).
      destruct (LoopFacts.indexesByTimeRange_selects prefix startAt endAt g
                  enableGroupSelect L Hg) as (toks & _ & R').
      rewrite R'. split; discriminate. }
    destruct g as [| | | other]; try solve [apply Sup; unfold supported; auto].
    unfold Legacy.indexSelectorByTimeRange, indexesByTimeRange.
    destruct (Z.ltb_spec endAt startAt); [lia |].
    split; intros E; injection E as <-; reflexivity.
Qed.

(** X13. On a valid range of timestamps of [inDateRange] no [Date] of a run
    of [indexesByTimeRange] is invalid: the time values of [cursor] and
    [endAtDate] as they are created, moved to +09:00 and aligned, and, with
    the cursor on a unit from the unit of [startAt] to the unit of [endAt]
    (where the loops run their body), of every moment that the tests for a
    group and the three ways of moving the cursor compute, are all of those
    that [TimeClip] keeps. *)
Theorem X13_dates_in_range (g : PeriodType) (startAt endAt u : Z) :
  supported g -> inDateRange startAt -> inDateRange endAt ->
  unitOf g startAt <= u <= unitOf g endAt ->
  let cursor := cursorAt g u in
  Forall (fun m => Calendar.TimeClip (Moment.time m) = Some (Moment.time m))
    [Moment.of_unix startAt; Moment.utcOffset (Moment.of_unix startAt) 9;
     Moment.startOf (Moment.utcOffset (Moment.of_unix startAt) 9) (momentUnit g);
     Moment.of_unix endAt; Moment.utcOffset (Moment.of_unix endAt) 9;
     Moment.endOf (Moment.utcOffset (Moment.of_unix endAt) 9) (momentUnit g);
     cursor; Moment.endOf cursor Moment.year; Moment.endOf cursor Moment.month;
     Moment.add cursor 1 Moment.year;
     Moment.startOf (Moment.add cursor 1 Moment.year) Moment.year;
     Moment.add cursor 1 Moment.month;
     Moment.startOf (Moment.add cursor 1 Moment.month) Moment.month;
     Moment.add cursor 1 Moment.day].
Proof. exact (RangeFacts.run_in_range g startAt endAt u). Qed.

Lemma X13_dates_in_range_witness :
  let cursor := cursorAt DAILY 18069 in
  Forall (fun m => Calendar.TimeClip (Moment.time m) = Some (Moment.time m))
    [Moment.of_unix 1561161600; Moment.utcOffset (Moment.of_unix 1561161600) 9;
     Moment.startOf (Moment.utcOffset (Moment.of_unix 1561161600) 9) (momentUnit DAILY);
     Moment.of_unix 1561301999; Moment.utcOffset (Moment.of_unix 1561301999) 9;
     Moment.endOf (Moment.utcOffset (Moment.of_unix 1561301999) 9) (momentUnit DAILY);
     cursor; Moment.endOf cursor Moment.year; Moment.endOf cursor Moment.month;
     Moment.add cursor 1 Moment.year;
     Moment.startOf (Moment.add cursor 1 Moment.year) Moment.year;
     Moment.add cursor 1 Moment.month;
     Moment.startOf (Moment.add cursor 1 Moment.month) Moment.month;
     Moment.add cursor 1 Moment.day].
Proof.
  apply (X13_dates_in_range DAILY 1561161600 1561301999 18069).
  - left. reflexivity.
  - unfold inDateRange, Calendar.maxTime, Calendar.msPerDay. lia.
  - unfold inDateRange, Calendar.maxTime, Calendar.msPerDay. lia.
  - vm_compute. split; discriminate.
Defined.

(** ** The cache of clients *)

Module EsClientFacts.
Import EsClient.

Section Cache.
Variable EsHostOptions : Type.
Variable stringify : EsHostOptions -> string.

Local Abbreviation Client := (EsClient.Client EsHostOptions).
Local Abbreviation Handlers := (EsClient.Handlers EsHostOptions).

Lemma get_In (key : string) (l : list (string * Client)) (c : Client) :
  get key l = Some c -> In (key, c) l.
Proof.
  induction l as [| [k c'] l IH]; cbn [get]; [discriminate |].
  destruct (String.eqb_spec k key) as [-> | N].
  - intros [= ->]. now left.
  - intros H. right. now apply IH.
Qed.

Lemma get_None (key : string) (l : list (string * Client)) :
  get key l = None <-> ~ In key (map fst l).
Proof.
  induction l as [| [k c'] l IH]; cbn [get map fst In]; [tauto |].
  destruct (String.eqb_spec k key) as [-> | N].
  - split; [discriminate | intros H; exfalso; apply H; now left].
  - rewrite IH. tauto.
Qed.

Lemma get_app (key k : string) (c : Client) (l : list (string * Client)) :
  get key (l ++ [(k, c)]) =
  match get key l with
  | Some c' => Some c'
  | None => if String.eqb k key then Some c else None
  end.
Proof.
  induction l as [| [k' c'] l IH]; cbn [get app]; [reflexivity |].
  destruct (String.eqb k' key); [reflexivity | exact IH].
Qed.

Lemma In_get (key : string) (l : list (string * Client)) (c : Client) :
  NoDup (map fst l) -> In (key, c) l -> get key l = Some c.
Proof.
  induction l as [| [k c'] l IH]; cbn [get map fst]; intros N H; [contradiction |].
  inversion N as [| ? ? Nk Nl]; subst.
  destruct H as [[= -> ->] | H].
  - now rewrite String.eqb_refl.
  - destruct (String.eqb_spec k key) as [-> | _]; [| now apply IH].
    exfalso. apply Nk. change key with (fst (key, c)). now apply in_map.
Qed.

(** One call. *)
Lemma instance_spec (target : EsHostOptions) (h h' : Handlers) (c : Client) :
  cacheInv stringify h ->
  instance stringify target h = (c, h') ->
  cacheInv stringify h' /\
  (forall key client, get key (entries h) = Some client ->
     get key (entries h') = Some client) /\
  get (stringify target) (entries h') = Some c /\
  (forall key, In key (map fst (entries h')) <->
     In key (map fst (entries h)) \/ key = stringify target).
Proof.
  intros (Nd & Keys & Count). unfold instance.
  destruct (get (stringify target) (entries h)) as [handler |] eqn:G.
  - intros [= <- <-]. split; [now repeat split |]. split; [auto |].
    split; [exact G |].
    intros key. split; [auto |]. intros [H | ->]; [exact H |].
    apply get_In in G. change (stringify target) with (fst (stringify target, handler)).
    now apply in_map.
  - intros [= <- <-]. unfold cacheInv. cbn [entries constructed].
    split; [split; [| split] |].
    + rewrite map_app. cbn [map fst].
      apply NoDup_app; [exact Nd | repeat constructor; intros [] |].
      intros key Hk [<- | []]. now apply (proj1 (get_None _ _) G).
    + intros key client H. apply in_app_or in H as [H | [[= <- <-] | []]];
        [now apply Keys | reflexivity].
    + rewrite length_app, Count. cbn. lia.
    + split.
      * intros key client H. rewrite get_app, H. reflexivity.
      * split.
        -- rewrite get_app, G, String.eqb_refl. reflexivity.
        -- intros key. rewrite map_app, in_app_iff. cbn [map fst In].
           split.
           ++ intros [H | [<- | []]]; auto.
           ++ intros [H | ->]; auto.
Qed.

(** Successive calls. *)
Lemma instances_spec (targets : list EsHostOptions) :
  forall (h h' : Handlers) (clients : list Client),
    cacheInv stringify h ->
    instances stringify targets h = (clients, h') ->
    cacheInv stringify h' /\
    (forall key client, get key (entries h) = Some client ->
       get key (entries h') = Some client) /\
    Forall2 (fun target client =>
               get (stringify target) (entries h') = Some client)
            targets clients /\
    (forall key, In key (map fst (entries h')) <->
       In key (map fst (entries h)) \/ In key (map stringify targets)).
Proof.
  induction targets as [| target rest IH]; intros h h' clients Inv; cbn [instances].
  - intros [= <- <-]. split; [exact Inv |]. split; [auto |].
    split; [constructor |]. intros key. cbn [map In]. tauto.
  - destruct (instance stringify target h) as [c h1] eqn:I.
    destruct (instances stringify rest h1) as [cs h2] eqn:Is.
    intros [= <- <-].
    destruct (instance_spec target h h1 c Inv I) as (Inv1 & Ext1 & G1 & K1).
    destruct (IH h1 h2 cs Inv1 Is) as (Inv2 & Ext2 & F2 & K2).
    split; [exact Inv2 |]. split; [auto |].
    split; [constructor; [now apply Ext2 | exact F2] |].
    intros key. rewrite K2, K1. cbn [map In]. split.
    + intros [[H | ->] | H]; auto.
    + intros [H | [<- | H]]; auto.
Qed.

Lemma cacheInv_empty : cacheInv stringify (empty EsHostOptions).
Proof. split; [constructor | split; [intros ? ? [] | reflexivity]]. Qed.

End Cache.

End EsClientFacts.

(** X14. [EsClient.instance], called any number of times from the empty
    cache: two calls return the same client exactly when their targets
    have the same [JSON.stringify] text; the client returned for a target
    was constructed with options of that text; and one client has been
    constructed for each text, no more. *)
Theorem X14_instance_cache (EsHostOptions : Type)
  (stringify : EsHostOptions -> string) (targets : list EsHostOptions)
  (clients : list (EsClient.Client EsHostOptions))
  (h : EsClient.Handlers EsHostOptions) :
  EsClient.instances stringify targets (EsClient.empty EsHostOptions) = (clients, h) ->
  List.length clients = List.length targets /\
  (forall i j ti tj ci cj,
     nth_error targets i = Some ti -> nth_error clients i = Some ci ->
     nth_error targets j = Some tj -> nth_error clients j = Some cj ->
     (ci = cj <-> stringify ti = stringify tj)) /\
  (forall i t c,
     nth_error targets i = Some t -> nth_error clients i = Some c ->
     stringify (EsClient.options c) = stringify t) /\
  NoDup (map fst (EsClient.entries h)) /\
  EsClient.constructed h = List.length (EsClient.entries h) /\
  (forall key, In key (map fst (EsClient.entries h)) <->
     In key (map stringify targets)).
Proof.
  intros R.
  destruct (EsClientFacts.instances_spec EsHostOptions stringify targets _ _ _
              (EsClientFacts.cacheInv_empty EsHostOptions stringify) R)
    as ((Nd & Keys & Count) & _ & F & K).
  assert (Nth : forall i t c,
            nth_error targets i = Some t -> nth_error clients i = Some c ->
            EsClient.get (stringify t) (EsClient.entries h) = Some c).
  { clear - F. induction F as [| t c ts cs H F IH]; intros [| i] t' c';
      cbn [nth_error]; try discriminate.
    - intros [= <-] [= <-]. exact H.
    - apply IH. }
  split; [symmetry; exact (Forall2_length F) |].
  split; [| split; [| split; [exact Nd | split; [exact Count |]]]].
  - intros i j ti tj ci cj Ti Ci Tj Cj.
    pose proof (Nth i ti ci Ti Ci) as Gi. pose proof (Nth j tj cj Tj Cj) as Gj.
    split.
    + intros <-.
      rewrite (Keys _ _ (EsClientFacts.get_In _ _ _ _ Gi)).
      now rewrite (Keys _ _ (EsClientFacts.get_In _ _ _ _ Gj)).
    + intros E. rewrite E in Gi. congruence.
  - intros i t c Ti Ci. symmetry.
    exact (Keys _ _ (EsClientFacts.get_In _ _ _ _ (Nth i t c Ti Ci))).
  - intros key. rewrite K. cbn [EsClient.empty EsClient.entries map In]. tauto.
Qed.

Lemma X14_instance_cache_witness :
  let a := {| EsClient.born := 0; EsClient.options := "http://a:9200" |} in
  let b := {| EsClient.born := 1; EsClient.options := "http://b:9200" |} in
  let targets := ["http://a:9200"; "http://b:9200"; "http://a:9200"] in
  let clients := [a; b; a] in
  let h := {| EsClient.entries := [("http://a:9200", a); ("http://b:9200", b)];
              EsClient.constructed := 2 |} in
  List.length clients = List.length targets /\
  (forall i j ti tj ci cj,
     nth_error targets i = Some ti -> nth_error clients i = Some ci ->
     nth_error targets j = Some tj -> nth_error clients j = Some cj ->
     (ci = cj <-> (fun s : string => s) ti = (fun s : string => s) tj)) /\
  (forall i t c,
     nth_error targets i = Some t -> nth_error clients i = Some c ->
     (fun s : string => s) (EsClient.options c) = (fun s : string => s) t) /\
  NoDup (map fst (EsClient.entries h)) /\
  EsClient.constructed h = List.length (EsClient.entries h) /\
  (forall key, In key (map fst (EsClient.entries h)) <->
     In key (map (fun s : string => s) targets)).
Proof.
  intros a b targets clients h.
  apply (X14_instance_cache string (fun s => s) targets clients h).
  reflexivity.
Defined.

(** * The embedding run on further examples *)

Module Examples.

Example saturday :
  Moment.get (Moment.utcOffset (Moment.of_unix 1561161600) 9) Moment.day = 6.
Proof. vm_compute. reflexivity. Qed.

Example period_index_name :
  Naming.periodIndexName Naming.seoul "test_" 1561161600 MONTHLY
  = Return "test_2019.06".
Proof. vm_compute. reflexivity. Qed.

Example relative_days :
  Relative.indexSelectorByRelDate "log-" 2 "YYYY.MM.dd"
  = "<log-{now/d{YYYY.MM.dd|+09:00}}>,<log-{now/d-1d{YYYY.MM.dd|+09:00}}>,<log-{now/d-2d{YYYY.MM.dd|+09:00}}>".
Proof. vm_compute. reflexivity. Qed.

Example former_two_days :
  Legacy.indexSelectorByTimeRange "test_" 1561161600 1561301999 DAILY
  = Return "test_2019.06.22,test_2019.06.23".
Proof. vm_compute. reflexivity. Qed.

Example former_three_months :
  Legacy.indexSelectorByTimeRange "test_" 1561161600 1569888000 MONTHLY
  = Return "test_2019.06,test_2019.10,test_2019.09,test_2019.08,test_2019.07".
Proof. vm_compute. reflexivity. Qed.

Example former_five_years :
  Legacy.indexSelectorByTimeRange "test_" 1583766000 1736434800 DAILY
  = Return "test_*".
Proof. vm_compute. reflexivity. Qed.

End Examples.
